(** * Texture classifier and UDIM sequence detector of fbx_loader

    A shallow embedding of the portable core of the Houdini shelf tool:
    [udim_utils.detect_udim_sequences],
    [udim_utils.find_matching_textures_with_udim],
    [material_utils.find_matching_textures] and
    [material_utils._find_matching_textures_standard], together with the
    pieces of [constants.py], [os.path] (POSIX flavour) and [re] they call.

    Conventions.
    - A Python [str] is a [string]; characters are ASCII code points.
    - A Python [int] is a [Z]; [len] is [Z.of_nat] of the list length.
    - A [dict] iterated by the code ([texture_keywords], [udim_groups],
      [udim_sequences]) is an association list in insertion order; the
      result dictionary [found_textures], only read by key, is a [gmap].
    - A loop is a [fold_left] of its body over the iterated list. *)

From Stdlib Require Import ZArith Lia Bool Ascii String.
From stdpp Require Import base list strings gmap sorting.

Local Open Scope Z_scope.

(** ** Characters and strings ([str] methods and the [in] operator) *)

Module Str.

Definition code (c : ascii) : nat := nat_of_ascii c.

Definition between (lo hi : nat) (c : ascii) : bool :=
  (Nat.leb lo (code c)) && (Nat.leb (code c) hi).

(** [\d] on ASCII text. *)
Definition is_digit (c : ascii) : bool := between 48 57 c.

(** [\s] on ASCII text: tab, newline, vertical tab, form feed, carriage
    return, the four information separators and the space. *)
Definition is_space (c : ascii) : bool :=
  between 9 13 c || between 28 31 c || Nat.eqb (code c) 32.

Definition lower_char (c : ascii) : ascii :=
  if between 65 90 c then ascii_of_nat (code c + 32) else c.

(** [s.lower()] *)
Fixpoint lower (s : string) : string :=
  match s with
  | EmptyString => EmptyString
  | String c s' => String (lower_char c) (lower s')
  end.

(** [s.replace(a, b)] for one-character [a] and [b]. *)
Fixpoint replace_char (a b : ascii) (s : string) : string :=
  match s with
  | EmptyString => EmptyString
  | String c s' => String (if Ascii.eqb c a then b else c) (replace_char a b s')
  end.

(** [sub in s] *)
Fixpoint contains (sub s : string) : bool :=
  String.prefix sub s ||
  match s with
  | EmptyString => false
  | String _ s' => contains sub s'
  end.

(** [c in s] for a character. *)
Fixpoint has_char (c : ascii) (s : string) : bool :=
  match s with
  | EmptyString => false
  | String d s' => Ascii.eqb d c || has_char c s'
  end.

Fixpoint all_chars (p : ascii -> bool) (s : string) : bool :=
  match s with
  | EmptyString => true
  | String c s' => p c && all_chars p s'
  end.

(** [s.endswith(c)] for a character. *)
Fixpoint endswith_char (c : ascii) (s : string) : bool :=
  match s with
  | EmptyString => false
  | String d EmptyString => Ascii.eqb d c
  | String _ s' => endswith_char c s'
  end.

(** [bool(s)]: a string is truthy when it is not empty. *)
Definition truthy (s : string) : bool :=
  match s with EmptyString => false | _ => true end.

(** Splitting at the last occurrence of [sep]: [i = s.rfind(sep) + 1] and
    the pair [(s[:i], s[i:])]. The first component is empty exactly when
    [sep] does not occur. *)
Fixpoint rsplit_after (sep : ascii) (s : string) : string * string :=
  match s with
  | EmptyString => (EmptyString, EmptyString)
  | String c s' =>
      let '(h, t) := rsplit_after sep s' in
      if Ascii.eqb c sep then (String c h, t)
      else match h with
           | EmptyString => (EmptyString, String c t)
           | _ => (String c h, t)
           end
  end.

(** [s.rstrip(c)] *)
Fixpoint rstrip (c : ascii) (s : string) : string :=
  match s with
  | EmptyString => EmptyString
  | String d s' =>
      match rstrip c s' with
      | EmptyString => if Ascii.eqb d c then EmptyString else String d EmptyString
      | r => String d r
      end
  end.

(** [s.split(sep)] for a one-character separator. *)
Fixpoint split (sep : ascii) (s : string) : list string :=
  match s with
  | EmptyString => [EmptyString]
  | String c s' =>
      if Ascii.eqb c sep then EmptyString :: split sep s'
      else match split sep s' with
           | p :: ps => String c p :: ps
           | [] => [String c EmptyString]
           end
  end.

(** [sep.join(parts)] *)
Fixpoint join (sep : string) (parts : list string) : string :=
  match parts with
  | [] => EmptyString
  | [p] => p
  | p :: ps => p +:+ sep +:+ join sep ps
  end.

(** [re.split(r"[_\-\s.]+", s)]: the separator class of the regular
    expression and the split on maximal runs of separators. *)
Definition is_name_sep (c : ascii) : bool :=
  Ascii.eqb c "_" || Ascii.eqb c "-" || is_space c || Ascii.eqb c ".".

Fixpoint re_split_from (prev_sep : bool) (s : string) : list string :=
  match s with
  | EmptyString => [EmptyString]
  | String c s' =>
      if is_name_sep c then
        if prev_sep then re_split_from true s'
        else EmptyString :: re_split_from true s'
      else match re_split_from false s' with
           | p :: ps => String c p :: ps
           | [] => [String c EmptyString]
           end
  end.

Definition re_split_name (s : string) : list string := re_split_from false s.

(** [int(s)] for a string of decimal digits. *)
Fixpoint int_of_digits (acc : Z) (s : string) : Z :=
  match s with
  | EmptyString => acc
  | String c s' => int_of_digits (10 * acc + (Z.of_nat (code c) - 48)) s'
  end.

Definition len (s : string) : Z := Z.of_nat (String.length s).

End Str.

(** ** [os.path] on a POSIX host ([os.sep = "/"]) *)

Module PosixPath.

Definition sep : ascii := "/".
Definition extsep : ascii := ".".

(** [os.path.basename(p)] *)
Definition basename (p : string) : string := snd (Str.rsplit_after sep p).

(** [os.path.dirname(p)]: the head up to the last slash, with trailing
    slashes removed unless the head consists of slashes only. *)
Definition dirname (p : string) : string :=
  let head := fst (Str.rsplit_after sep p) in
  if Str.truthy head && negb (Str.all_chars (Ascii.eqb sep) head)
  then Str.rstrip sep head else head.

(** [os.path.splitext(p)[0]]: the extension starts at the last dot of the
    last path component, unless only dots precede it there. *)
Definition splitext_root (p : string) : string :=
  let '(h, t) := Str.rsplit_after sep p in
  let '(pre, ext) := Str.rsplit_after extsep t in
  match pre with
  | EmptyString => p
  | _ =>
      (* [pre] ends with the last dot; [stem] is the text before it *)
      let stem := String.substring 0 (String.length pre - 1) pre in
      if Str.all_chars (Ascii.eqb extsep) stem then p else h +:+ stem
  end.

(** [os.path.join(a, b)] *)
Definition join (a b : string) : string :=
  if String.prefix "/" b then b
  else if negb (Str.truthy a) || Str.endswith_char sep a
       then a +:+ b
       else a +:+ "/" +:+ b.

(** The component loop of [os.path.normpath]; [new_comps] is kept in
    reverse. *)
Definition norm_step (initial_slashes : nat) (new_comps : list string)
    (comp : string) : list string :=
  if String.eqb comp "" || String.eqb comp "." then new_comps
  else if negb (String.eqb comp "..")
          || (Nat.eqb initial_slashes 0 && bool_decide (new_comps = []))
          || match new_comps with
             | last :: _ => String.eqb last ".."
             | [] => false
             end
       then comp :: new_comps
       else match new_comps with
            | _ :: rest => rest
            | [] => new_comps
            end.

Fixpoint repeat_sep (n : nat) : string :=
  match n with
  | O => EmptyString
  | S n' => String sep (repeat_sep n')
  end.

(** [os.path.normpath(path)] *)
Definition normpath (path : string) : string :=
  match path with
  | EmptyString => "."
  | _ =>
      let initial_slashes :=
        if String.prefix "/" path then
          if String.prefix "//" path && negb (String.prefix "///" path)
          then 2%nat else 1%nat
        else 0%nat in
      let comps := rev (fold_left (norm_step initial_slashes) (Str.split sep path) []) in
      let joined := repeat_sep initial_slashes +:+ Str.join "/" comps in
      match joined with
      | EmptyString => "."
      | _ => joined
      end
  end.

End PosixPath.

(** ** Insertion-ordered dictionaries *)

Module Dict.

(** A [dict] whose iteration order the code depends on. *)
Definition t (V : Type) : Type := list (string * V).

(** [d[k] = v]: an existing key keeps its position. *)
Fixpoint set {V} (d : t V) (k : string) (v : V) : t V :=
  match d with
  | [] => [(k, v)]
  | (k', v') :: d' =>
      if String.eqb k' k then (k', v) :: d' else (k', v') :: set d' k v
  end.

(** [d[k].append(x)] on a [defaultdict(list)]. *)
Fixpoint append {V} (d : t (list V)) (k : string) (x : V) : t (list V) :=
  match d with
  | [] => [(k, [x])]
  | (k', xs) :: d' =>
      if String.eqb k' k then (k', xs ++ [x]) :: d' else (k', xs) :: append d' k x
  end.

Fixpoint get {V} (d : t V) (k : string) : option V :=
  match d with
  | [] => None
  | (k', v) :: d' => if String.eqb k' k then Some v else get d' k
  end.

Definition keys {V} (d : t V) : list string := fst <$> d.

End Dict.

(** ** constants.py: the UDIM configuration *)

(** A pattern [^(.+)[<separators>](\d{4})\.(<extensions>)$], compiled with
    [re.IGNORECASE]. *)
Record UdimPattern := {
  separators : string;
  extensions : list string
}.

Record UdimConfig := {
  pattern : UdimPattern;
  range_start : Z;
  range_end : Z;
  min_tiles : Z;
  placeholder : string;
  alternative_patterns : list UdimPattern
}.

Definition texture_exts : list string :=
  ["jpg"; "jpeg"; "png"; "tga"; "tif"; "tiff"; "exr"; "hdr"; "pic"; "rat"].

Definition UDIM_CONFIG : UdimConfig := {|
  pattern := {| separators := "._"; extensions := texture_exts |};
  range_start := 1001;
  range_end := 1100;
  min_tiles := 2;
  placeholder := "<UDIM>";
  alternative_patterns :=
    [ {| separators := "."; extensions := texture_exts |};
      {| separators := "_"; extensions := texture_exts |};
      {| separators := "-"; extensions := texture_exts |} ]
|}.

(** ** [re]: matching a file name against a UDIM pattern *)

Module Re.

Definition newline : ascii := "010".

(** [$] also matches just before one final newline. *)
Fixpoint drop_final_newline (s : string) : string :=
  match s with
  | EmptyString => EmptyString
  | String c EmptyString => if Ascii.eqb c newline then EmptyString else s
  | String c s' => String c (drop_final_newline s')
  end.

Definition ext_matches (exts : list string) (ext : string) : bool :=
  existsb (fun e => String.eqb (Str.lower e) (Str.lower ext)) exts.

(** [re.compile(p, re.IGNORECASE).match(filename)] with the groups
    [(base_name, int(tile), extension)]. The extension follows the last
    dot; the four digits, the separator and the non-empty, newline-free
    base precede that dot. *)
Definition udim_match (p : UdimPattern) (filename : string)
    : option (string * Z * string) :=
  let s := drop_final_newline filename in
  let '(pre, ext) := Str.rsplit_after "." s in
  let n := String.length pre in
  if Nat.ltb n 7 then None
  else
    let base := String.substring 0 (n - 6) pre in
    let sepc := String.substring (n - 6) 1 pre in
    let digits := String.substring (n - 5) 4 pre in
    if Str.all_chars (fun c => negb (Ascii.eqb c newline)) base
       && Str.all_chars (fun c => Str.has_char c (separators p)) sepc
       && Str.all_chars Str.is_digit digits
       && ext_matches (extensions p) ext
    then Some (base, Str.int_of_digits 0 digits, ext)
    else None.

End Re.

(** ** constants.py: [is_udim_filename] and [extract_udim_info] *)

Module Constants.

Fixpoint first_match (ps : list UdimPattern) (filename : string)
    : option (string * Z * string) :=
  match ps with
  | [] => None
  | p :: ps' =>
      match Re.udim_match p filename with
      | Some m => Some m
      | None => first_match ps' filename
      end
  end.

(** [extract_udim_info(filename)]: the main pattern, then every
    alternative pattern in order ([None] for an empty name). *)
Definition extract_udim_info (cfg : UdimConfig) (filename : string)
    : option (string * Z * string) :=
  if negb (Str.truthy filename) then None
  else first_match (pattern cfg :: alternative_patterns cfg) filename.

(** [is_udim_filename(filename)] *)
Definition is_udim_filename (cfg : UdimConfig) (filename : string) : bool :=
  if negb (Str.truthy filename) then false
  else existsb (fun p => bool_decide (is_Some (Re.udim_match p filename)))
               (pattern cfg :: alternative_patterns cfg).

End Constants.

(** ** udim_utils.py: [detect_udim_sequences] *)

Module UdimUtils.

(** The tile dictionaries [{'file': .., 'udim': .., 'extension': ..}]. *)
Record Tile := {
  file : string;
  udim : Z;
  extension : string
}.

(** The values of [udim_sequences]. *)
Record UdimInfo := {
  info_pattern : string;
  info_tiles : list Z;
  info_files : list string;
  tile_count : Z
}.

(** The returned dictionary. *)
Record UdimAnalysis := {
  udim_sequences : Dict.t UdimInfo;
  single_textures : list string
}.

(** [tiles.sort(key=lambda x: x['udim'])]: a stable sort. *)
Fixpoint insert_tile (t : Tile) (l : list Tile) : list Tile :=
  match l with
  | [] => [t]
  | x :: l' => if udim t <=? udim x then t :: l else x :: insert_tile t l'
  end.

Definition sort_tiles (l : list Tile) : list Tile := foldr insert_tile [] l.

Section WithConfig.

Variable cfg : UdimConfig.

(** [range_start <= udim_number <= range_end] *)
Definition in_range (udim_number : Z) : bool :=
  (range_start cfg <=? udim_number) && (udim_number <=? range_end cfg).

(** Body of the first loop: classify one file into its group or into
    the single textures. *)
Definition group_step (st : Dict.t (list Tile) * list string)
    (texture_file : string) : Dict.t (list Tile) * list string :=
  let '(udim_groups, singles) := st in
  let filename := PosixPath.basename texture_file in
  match Re.udim_match (pattern cfg) filename with
  | Some (base_name, udim_number, ext) =>
      if in_range udim_number
      then (Dict.append udim_groups base_name
              {| file := texture_file; udim := udim_number; extension := ext |},
            singles)
      else (udim_groups, singles ++ [texture_file])
  | None => (udim_groups, singles ++ [texture_file])
  end.

Definition group_files (texture_files : list string)
    : Dict.t (list Tile) * list string :=
  fold_left group_step texture_files ([], []).

(** The path with the placeholder, built from the first sorted tile. *)
Definition udim_pattern_path (base_name : string) (first_tile : Tile) : string :=
  let directory := PosixPath.dirname (file first_tile) in
  Str.replace_char PosixPath.sep "/"
    (PosixPath.normpath
       (PosixPath.join directory
          (base_name +:+ "." +:+ placeholder cfg +:+ "." +:+ extension first_tile))).

(** Body of the second loop: promote a group or degrade it to single
    textures. A group is never empty (see [group_files_nonempty]), so
    the branch without a first tile is not taken. *)
Definition promote_step (st : Dict.t UdimInfo * list string)
    (group : string * list Tile) : Dict.t UdimInfo * list string :=
  let '(seqs, singles) := st in
  let '(base_name, tiles) := group in
  if min_tiles cfg <=? Z.of_nat (length tiles) then
    let sorted := sort_tiles tiles in
    match sorted with
    | first_tile :: _ =>
        (Dict.set seqs base_name
           {| info_pattern := udim_pattern_path base_name first_tile;
              info_tiles := udim <$> sorted;
              info_files := file <$> sorted;
              tile_count := Z.of_nat (length sorted) |},
         singles)
    | [] => (seqs, singles)
    end
  else (seqs, singles ++ (file <$> tiles)).

Definition detect_udim_sequences_with (texture_files : list string) : UdimAnalysis :=
  let '(udim_groups, singles) := group_files texture_files in
  let '(seqs, singles') := fold_left promote_step udim_groups ([], singles) in
  {| udim_sequences := seqs; single_textures := singles' |}.

End WithConfig.

(** [detect_udim_sequences(texture_files)] under the module's
    [UDIM_CONFIG]. *)
Definition detect_udim_sequences : list string -> UdimAnalysis :=
  detect_udim_sequences_with UDIM_CONFIG.

End UdimUtils.

(** ** Code shared by the two classifiers *)

(** The result of a call: a returned value or a raised exception.
    [InvalidArgument] is the error category the specification names; the
    functions embedded below contain no [raise]. *)
Inductive PyError := InvalidArgument.

Inductive PyResult (A : Type) :=
  | Returned (a : A)
  | Raised (e : PyError).
Arguments Returned {A} a.
Arguments Raised {A} e.

Module Search.

(** [found_textures] after every iteration of a loop with body [f],
    started in [a]: the states a caller could observe between two
    iterations. *)
Fixpoint scan_left {A B} (f : A -> B -> A) (l : list B) (a : A) : list A :=
  match l with
  | [] => [a]
  | x :: l' => a :: scan_left f l' (f a x)
  end.

(** The statements that build [search_bases], the same in both
    classifiers. *)
Definition name_parts (name_lower : string) : list string :=
  if Str.truthy name_lower then
    name_lower ::
      List.filter (fun part => 2 <? Str.len part) (Str.re_split_name name_lower)
  else [].

Definition search_bases_of (material_name model_basename : string) : list string :=
  let material_name_lower := Str.replace_char " " "_" (Str.lower material_name) in
  let model_name_lower :=
    if Str.truthy model_basename
    then Str.lower (PosixPath.splitext_root model_basename) else "" in
  name_parts material_name_lower ++ name_parts model_name_lower.

(** [for base in search_bases: if base in name: matches_base = True; break] *)
Definition matches_base (search_bases : list string) (name_lower : string) : bool :=
  existsb (fun base => Str.contains base name_lower) search_bases.

Definition assigned (found_textures : gmap string string) (texture_type : string) : bool :=
  bool_decide (is_Some (found_textures !! texture_type)).

Definition any_keyword_in (keywords : list string) (name_lower : string) : bool :=
  existsb (fun keyword => Str.contains keyword name_lower) keywords.

(** The aggressive pass for one candidate: the first unassigned type
    with a keyword in the name receives the path, and the type loop
    stops. *)
Fixpoint aggressive_assign (texture_keywords : Dict.t (list string))
    (name_lower path : string) (found_textures : gmap string string)
    : gmap string string :=
  match texture_keywords with
  | [] => found_textures
  | (texture_type, keywords) :: rest =>
      if assigned found_textures texture_type
      then aggressive_assign rest name_lower path found_textures
      else if any_keyword_in keywords name_lower
           then <[texture_type := path]> found_textures
           else aggressive_assign rest name_lower path found_textures
  end.

(** The assignment guarded by [if texture_type_found and
    texture_type_found not in found_textures] and by the base-name
    gate. *)
Definition assign_found (search_bases : list string) (matches : bool)
    (texture_type_found : option string) (path : string)
    (found_textures : gmap string string) : gmap string string :=
  match texture_type_found with
  | Some texture_type =>
      if Str.truthy texture_type && negb (assigned found_textures texture_type)
      then if matches || (Z.of_nat (length search_bases) =? 0)
           then <[texture_type := path]> found_textures
           else found_textures
      else found_textures
  | None => found_textures
  end.

End Search.

(** ** udim_utils.py: [find_matching_textures_with_udim] *)

Module UdimSearch.

Import UdimUtils Search.

Inductive CandidateType := udim_candidate | single_candidate.

(** The candidate dictionaries. *)
Record Candidate := {
  path : string;
  name : string;
  type : CandidateType;
  cand_tile_count : option Z
}.

Definition udim_candidate_of (entry : string * UdimInfo) : Candidate :=
  let '(base_name, udim_info) := entry in
  {| path := info_pattern udim_info; name := base_name;
     type := udim_candidate; cand_tile_count := Some (tile_count udim_info) |}.

Definition single_candidate_of (texture_file : string) : Candidate :=
  {| path := texture_file;
     name := PosixPath.splitext_root (PosixPath.basename texture_file);
     type := single_candidate; cand_tile_count := None |}.

Definition all_texture_candidates (analysis : UdimAnalysis) : list Candidate :=
  (udim_candidate_of <$> udim_sequences analysis)
  ++ (single_candidate_of <$> single_textures analysis).

(** The keyword loops of the main search: the first type, in table
    order, that is unassigned and has a keyword in the name. A type
    whose name is the empty string is falsy and does not stop the loop. *)
Fixpoint first_keyword_type (texture_keywords : Dict.t (list string))
    (found_textures : gmap string string) (name_lower : string) : option string :=
  match texture_keywords with
  | [] => None
  | (texture_type, keywords) :: rest =>
      if assigned found_textures texture_type
      then first_keyword_type rest found_textures name_lower
      else if any_keyword_in keywords name_lower
           then if Str.truthy texture_type then Some texture_type
                else match first_keyword_type rest found_textures name_lower with
                     | Some t => Some t
                     | None => Some texture_type
                     end
           else first_keyword_type rest found_textures name_lower
  end.

Section Passes.

Variable texture_keywords : Dict.t (list string).
Variable search_bases : list string.

(** Body of the main loop. *)
Definition primary_step (found_textures : gmap string string)
    (candidate : Candidate) : gmap string string :=
  let candidate_name_lower := Str.lower (name candidate) in
  let matches := matches_base search_bases candidate_name_lower in
  let texture_type_found :=
    first_keyword_type texture_keywords found_textures candidate_name_lower in
  assign_found search_bases matches texture_type_found (path candidate) found_textures.

(** Body of the aggressive loop. *)
Definition aggressive_step (found_textures : gmap string string)
    (candidate : Candidate) : gmap string string :=
  aggressive_assign texture_keywords (Str.lower (name candidate))
    (path candidate) found_textures.

(** The fallback statement. *)
Definition fallback (candidates : list Candidate)
    (found_textures : gmap string string) : gmap string string :=
  match candidates with
  | first_candidate :: _ =>
      if bool_decide (found_textures = ∅)
      then <["BaseMap" := path first_candidate]> found_textures
      else found_textures
  | [] => found_textures
  end.

Definition aggressive_pass (candidates : list Candidate)
    (found_textures : gmap string string) : gmap string string :=
  if bool_decide (found_textures = ∅)
  then fold_left aggressive_step candidates found_textures
  else found_textures.

Definition search (candidates : list Candidate) : gmap string string :=
  fallback candidates
    (aggressive_pass candidates (fold_left primary_step candidates ∅)).

(** Every value [found_textures] takes during [search], in order. *)
Definition search_states (candidates : list Candidate) : list (gmap string string) :=
  let after_primary := fold_left primary_step candidates ∅ in
  scan_left primary_step candidates ∅
  ++ (if bool_decide (after_primary = ∅)
      then scan_left aggressive_step candidates after_primary else [])
  ++ [search candidates].

End Passes.

Definition find_matching_textures_with_udim (material_name : string)
    (texture_files : list string) (texture_keywords : Dict.t (list string))
    (model_basename : string) : gmap string string :=
  if negb (Str.truthy material_name) || bool_decide (texture_files = []) then ∅
  else
    search texture_keywords (search_bases_of material_name model_basename)
      (all_texture_candidates (detect_udim_sequences texture_files)).

Definition find_matching_textures_with_udim_states (material_name : string)
    (texture_files : list string) (texture_keywords : Dict.t (list string))
    (model_basename : string) : list (gmap string string) :=
  if negb (Str.truthy material_name) || bool_decide (texture_files = []) then [∅]
  else
    search_states texture_keywords (search_bases_of material_name model_basename)
      (all_texture_candidates (detect_udim_sequences texture_files)).

End UdimSearch.

(** ** material_utils.py: the keyword table and the classifier *)

Module MaterialUtils.

Import Search.

(** Set by the import of [udim_utils] at module load; the module is part
    of the repository, so the import succeeds. *)
Definition UDIM_SUPPORT : bool := true.

Definition ENHANCED_TEXTURE_KEYWORDS : Dict.t (list string) :=
  [ ("BaseMap",
     ["basemap"; "diff"; "dif"; "diffuse"; "albedo"; "basecolor"; "col"; "color";
      "base"; "alb"; "bc"; "_d"; "-d"; "_c"; "-c"; "diffmap"; "colormap"; "diffusemap";
      "_color"; "_base"; "_basecolor"; "_albedo"; "BaseColor"; "Albedo"; "Base_Color";
      "BaseMap"; "DiffuseMap"; "ColorMap"; "Diffuse"; "Color"]);
    ("Normal",
     ["normal"; "norm"; "nml"; "nrm"; "_n"; "-n"; "nor"; "normalmap"; "normalmaps";
      "bump"; "bumpmap"; "_bump"; "_b"; "-b"; "relief"; "bumpmaps";
      "Normal"; "NormalMap"; "Normal_Map"; "_normal"; "_norm"; "_nml"]);
    ("Roughness",
     ["rough"; "roughness"; "rgh"; "_r"; "-r"; "roughnessmap"; "roughmaps";
      "gloss"; "glossmap"; "glossiness"; "smoothness"; "smooth";
      "Roughness"; "RoughnessMap"; "Rough"; "_roughness"; "_rough"; "_rgh"]);
    ("Metallic",
     ["metal"; "metallic"; "met"; "metalness"; "_m"; "-m"; "metallicmap"; "metallicmaps";
      "spec"; "specular"; "_s"; "-s"; "specularmap"; "specularmaps";
      "Metallic"; "MetallicMap"; "Metal"; "_metallic"; "_metal"; "_met"]);
    ("AO",
     ["ao"; "ambient"; "occlusion"; "ambientocclusion"; "_ao"; "-ao";
      "occlusionmap"; "ambientocclusionmap"; "aomaps";
      "AO"; "AmbientOcclusion"; "Ambient_Occlusion"; "_ambientocclusion"]);
    ("Emissive",
     ["emissive"; "emission"; "emit"; "glow"; "_e"; "-e"; "emissionmap";
      "emissivemap"; "selfillum"; "emissivemaps";
      "Emissive"; "EmissiveMap"; "Emission"; "Emit"; "_emissive"; "_emission"]);
    ("Height",
     ["height"; "heightmap"; "displacement"; "disp"; "_h"; "-h";
      "displacementmap"; "parallax"; "heightmaps";
      "Height"; "HeightMap"; "Displacement"; "Disp"; "_height"; "_disp"; "_displacement"]);
    ("Opacity",
     ["opacity"; "alpha"; "transparent"; "transparency"; "_a"; "-a";
      "_o"; "-o"; "opacitymap"; "alphamap"; "mask"; "opacitymaps";
      "Opacity"; "OpacityMap"; "Alpha"; "AlphaMap"; "_opacity"; "_alpha"]);
    ("Specular",
     ["specular"; "spec"; "_s"; "-s"; "specularmap"; "reflection"; "refl"; "specularmaps";
      "Specular"; "SpecularMap"; "Reflection"; "_specular"; "_spec"]) ].

(** The running best match of the keyword loops:
    [(texture_type_found, matched_keyword, keyword_priority)]. *)
Definition Best : Type := option string * string * Z.

Definition no_best : Best := (None, "", 0).

(** Body of the inner keyword loop: a keyword found in the name replaces
    the running best when it is strictly longer. *)
Definition keyword_step (texture_type texture_basename : string)
    (best : Best) (keyword : string) : Best :=
  let '(_, _, keyword_priority) := best in
  if Str.contains keyword texture_basename then
    let current_priority := Str.len keyword in
    if keyword_priority <? current_priority
    then (Some texture_type, keyword, current_priority)
    else best
  else best.

(** Body of the outer type loop: assigned types are skipped. *)
Definition type_step (found_textures : gmap string string)
    (texture_basename : string) (best : Best)
    (entry : string * list string) : Best :=
  let '(texture_type, keywords) := entry in
  if assigned found_textures texture_type then best
  else fold_left (keyword_step texture_type texture_basename) keywords best.

Definition best_keyword (texture_keywords : Dict.t (list string))
    (found_textures : gmap string string) (texture_basename : string) : Best :=
  fold_left (type_step found_textures texture_basename) texture_keywords no_best.

Section Passes.

Variable texture_keywords : Dict.t (list string).
Variable search_bases : list string.

(** Body of the main loop. *)
Definition primary_step (found_textures : gmap string string)
    (texture_file : string) : gmap string string :=
  let texture_basename := Str.lower (PosixPath.basename texture_file) in
  let texture_name_no_ext := Str.lower (PosixPath.splitext_root texture_basename) in
  let matches := matches_base search_bases texture_name_no_ext in
  let '(texture_type_found, _, _) :=
    best_keyword texture_keywords found_textures texture_basename in
  assign_found search_bases matches texture_type_found texture_file found_textures.

(** Body of the aggressive loop. *)
Definition aggressive_step (found_textures : gmap string string)
    (texture_file : string) : gmap string string :=
  aggressive_assign texture_keywords
    (Str.lower (PosixPath.basename texture_file)) texture_file found_textures.

Definition aggressive_pass (texture_files : list string)
    (found_textures : gmap string string) : gmap string string :=
  if bool_decide (found_textures = ∅)
  then fold_left aggressive_step texture_files found_textures
  else found_textures.

(** The fallback statement. *)
Definition fallback (texture_files : list string)
    (found_textures : gmap string string) : gmap string string :=
  match texture_files with
  | first :: _ =>
      if bool_decide (found_textures = ∅)
      then <["BaseMap" := first]> found_textures
      else found_textures
  | [] => found_textures
  end.

Definition search (texture_files : list string) : gmap string string :=
  fallback texture_files
    (aggressive_pass texture_files (fold_left primary_step texture_files ∅)).

(** Every value [found_textures] takes during [search], in order. *)
Definition search_states (texture_files : list string) : list (gmap string string) :=
  let after_primary := fold_left primary_step texture_files ∅ in
  scan_left primary_step texture_files ∅
  ++ (if bool_decide (after_primary = ∅)
      then scan_left aggressive_step texture_files after_primary else [])
  ++ [search texture_files].

End Passes.

(** [search_bases = list(set(search_bases))]; the order of a set is not
    specified, and the list is only tested for membership. *)
Definition standard_search_bases (material_name model_basename : string) : list string :=
  remove_dups (search_bases_of material_name model_basename).

Definition _find_matching_textures_standard (material_name : string)
    (texture_files : list string) (texture_keywords : Dict.t (list string))
    (model_basename : string) : gmap string string :=
  match texture_files with
  | [only] => {["BaseMap" := only]}
  | [] => ∅
  | _ =>
      search texture_keywords
        (standard_search_bases material_name model_basename) texture_files
  end.

Definition _find_matching_textures_standard_states (material_name : string)
    (texture_files : list string) (texture_keywords : Dict.t (list string))
    (model_basename : string) : list (gmap string string) :=
  match texture_files with
  | [only] => [∅; {["BaseMap" := only]}]
  | [] => [∅]
  | _ =>
      search_states texture_keywords
        (standard_search_bases material_name model_basename) texture_files
  end.

(** The quick check of the entry point: how many of the first fifty
    files look like UDIM tiles. *)
Definition quick_pattern : UdimPattern :=
  {| separators := "._"; extensions := texture_exts |}.

Definition potential_udim_count (texture_files : list string) : Z :=
  Z.of_nat (length (List.filter
    (fun f => bool_decide (is_Some (Re.udim_match quick_pattern (PosixPath.basename f))))
    (take 50 texture_files))).

(** Which classifier the entry point runs. The UDIM branch sits in a
    [try] whose handler falls back to the standard search; no statement
    of the branch raises on strings and lists of strings. *)
Definition uses_udim_search (texture_files : list string) : bool :=
  UDIM_SUPPORT && (2 <=? potential_udim_count texture_files).

(** [find_matching_textures(material_name, texture_files,
    texture_keywords=None, model_basename="")]; [None] for the keyword
    table is the Python [None]. *)
Definition find_matching_textures (material_name : string)
    (texture_files : list string) (texture_keywords : option (Dict.t (list string)))
    (model_basename : string) : PyResult (gmap string string) :=
  let texture_keywords :=
    match texture_keywords with
    | None => ENHANCED_TEXTURE_KEYWORDS
    | Some table => table
    end in
  if negb (Str.truthy material_name) || bool_decide (texture_files = [])
  then Returned ∅
  else if uses_udim_search texture_files
  then Returned (UdimSearch.find_matching_textures_with_udim
                   material_name texture_files texture_keywords model_basename)
  else Returned (_find_matching_textures_standard
                   material_name texture_files texture_keywords model_basename).

(** The values [found_textures] takes during a call of the entry point. *)
Definition find_matching_textures_states (material_name : string)
    (texture_files : list string) (texture_keywords : option (Dict.t (list string)))
    (model_basename : string) : list (gmap string string) :=
  let texture_keywords :=
    match texture_keywords with
    | None => ENHANCED_TEXTURE_KEYWORDS
    | Some table => table
    end in
  if negb (Str.truthy material_name) || bool_decide (texture_files = [])
  then [∅]
  else if uses_udim_search texture_files
  then UdimSearch.find_matching_textures_with_udim_states
         material_name texture_files texture_keywords model_basename
  else _find_matching_textures_standard_states
         material_name texture_files texture_keywords model_basename.

End MaterialUtils.

(** ** Definitions used to state the properties *)

Module DetectorSpec.
Import UdimUtils.

(** The tile a file contributes to its group: the pattern matches its
    base name and the tile number is in range. *)
Definition accept (cfg : UdimConfig) (texture_file : string) : option (string * Tile) :=
  match Re.udim_match (pattern cfg) (PosixPath.basename texture_file) with
  | Some (base_name, udim_number, ext) =>
      if in_range cfg udim_number
      then Some (base_name,
                 {| file := texture_file; udim := udim_number; extension := ext |})
      else None
  | None => None
  end.

Definition rejected (cfg : UdimConfig) (texture_file : string) : bool :=
  match accept cfg texture_file with Some _ => false | None => true end.

(** A group below the tile threshold. *)
Definition degraded (cfg : UdimConfig) (group : string * list Tile) : bool :=
  negb (min_tiles cfg <=? Z.of_nat (length (snd group))).

Definition group_paths (group : string * list Tile) : list string :=
  file <$> snd group.

Definition sequence_paths (entry : string * UdimInfo) : list string :=
  info_files (snd entry).

(** The tiles the files of a list contribute to the group [base_name],
    in list order. *)
Definition tile_for (cfg : UdimConfig) (base_name texture_file : string) : option Tile :=
  match accept cfg texture_file with
  | Some (b, t) => if String.eqb b base_name then Some t else None
  | None => None
  end.

Definition tiles_of (cfg : UdimConfig) (base_name : string)
    (texture_files : list string) : list Tile :=
  omap (tile_for cfg base_name) texture_files.

(** The base name under which the detector groups a file, for a file
    that is an accepted tile. *)
Definition base_of (cfg : UdimConfig) (texture_file : string) : option string :=
  fst <$> accept cfg texture_file.

(** The distinct elements of a list in order of first appearance
    ([list(dict.fromkeys(l))]): each element stays where it first occurs
    and its later occurrences are dropped. *)
Fixpoint first_appearance (l : list string) : list string :=
  match l with
  | [] => []
  | x :: l' => x :: filter (λ y, y ≠ x) (first_appearance l')
  end.

(** The files of a list that are grouped under [base_name], in list
    order. *)
Definition files_with_base (cfg : UdimConfig) (texture_files : list string)
    (base_name : string) : list string :=
  filter (λ f, base_of cfg f = Some base_name) texture_files.

(** Fewer than [min_tiles] files of the list are grouped under
    [base_name]. *)
Definition below_threshold (cfg : UdimConfig) (texture_files : list string)
    (base_name : string) : bool :=
  negb (min_tiles cfg
        <=? Z.of_nat (length (files_with_base cfg texture_files base_name))).

(** The entry of [udim_sequences] built from the tiles of a group. *)
Definition info_of (cfg : UdimConfig) (base_name : string) (tiles : list Tile)
    (first_tile : Tile) : UdimInfo :=
  let sorted := sort_tiles tiles in
  {| info_pattern := udim_pattern_path cfg base_name first_tile;
     info_tiles := udim <$> sorted;
     info_files := file <$> sorted;
     tile_count := Z.of_nat (length sorted) |}.

End DetectorSpec.

Module PathSpec.

(** What may precede the last component of a path: nothing, or text
    ending in a slash. *)
Definition dir_prefix (p : string) : Prop := p = "" ∨ ∃ q, p = q +:+ "/".

End PathSpec.

Module ClassifierSpec.

Import Search MaterialUtils.

(** The table of the longest-keyword example. *)
Definition metal_specular_table : Dict.t (list string) :=
  [("Metallic", ["metal"]); ("Specular", ["specular"])].

(** The (type, keyword) pairs the keyword loops of the standard search
    visit, in order: the keywords of the unassigned types. *)
Definition visited_pairs (texture_keywords : Dict.t (list string))
    (found_textures : gmap string string) : list (string * string) :=
  texture_keywords ≫= λ entry,
    if assigned found_textures entry.1 then []
    else (λ keyword, (entry.1, keyword)) <$> entry.2.

Definition pair_step (texture_basename : string) (best : Best)
    (pair : string * string) : Best :=
  keyword_step pair.1 texture_basename best pair.2.

(** What the running best match records about the pairs seen so far. *)
Definition best_of (texture_basename : string) (seen : list (string * string))
    (best : Best) : Prop :=
  let '(type_found, keyword, priority) := best in
  (∀ pair, pair ∈ seen → Str.contains pair.2 texture_basename = true →
     Str.len pair.2 ≤ priority)
  ∧ match type_found with
    | Some texture_type =>
        (texture_type, keyword) ∈ seen
        ∧ Str.contains keyword texture_basename = true
        ∧ priority = Str.len keyword
    | None => priority = 0
    end.

End ClassifierSpec.

(** * Further functions of the repository *)

(** ** More [str] methods *)

Module StrMore.

(** [s.endswith(suffix)] *)
Fixpoint endswith (suffix s : string) : bool :=
  String.eqb suffix s ||
  match s with
  | EmptyString => false
  | String _ s' => endswith suffix s'
  end.

(** [s.lstrip(chars)] and [s.rstrip(chars)], the characters given by a
    predicate. *)
Fixpoint lstrip_chars (p : ascii -> bool) (s : string) : string :=
  match s with
  | EmptyString => EmptyString
  | String c s' => if p c then lstrip_chars p s' else s
  end.

Fixpoint rstrip_chars (p : ascii -> bool) (s : string) : string :=
  match s with
  | EmptyString => EmptyString
  | String c s' =>
      match rstrip_chars p s' with
      | EmptyString => if p c then EmptyString else String c EmptyString
      | r => String c r
      end
  end.

Definition strip_chars (p : ascii -> bool) (s : string) : string :=
  rstrip_chars p (lstrip_chars p s).

(** [s.strip()] *)
Definition strip (s : string) : string := strip_chars Str.is_space s.

(** [s.isdigit()] on ASCII text: not empty and digits only. *)
Definition isdigit (s : string) : bool :=
  Str.truthy s && Str.all_chars Str.is_digit s.

(** [s.isascii()] *)
Definition isascii (s : string) : bool :=
  Str.all_chars (fun c => Nat.ltb (Str.code c) 128) s.

(** [s[:n]] *)
Definition take (n : nat) (s : string) : string := String.substring 0 n s.

(** [s.replace('__', '_')]: the occurrences are replaced from the left
    and do not overlap. *)
Fixpoint replace_double_underscore (s : string) : string :=
  match s with
  | String "_" (String "_" rest) => String "_" (replace_double_underscore rest)
  | String c rest => String c (replace_double_underscore rest)
  | EmptyString => EmptyString
  end.

End StrMore.

(** ** utils.py: [clean_node_name] *)

Module Utils.

(** The class [[a-zA-Z0-9_]] of the substitution. *)
Definition is_name_char (c : ascii) : bool :=
  Str.between 97 122 c || Str.between 65 90 c || Str.is_digit c || Ascii.eqb c "_".

(** [re.sub(r'[^a-zA-Z0-9_]', '_', name)] *)
Fixpoint sub_non_name_chars (s : string) : string :=
  match s with
  | EmptyString => EmptyString
  | String c s' =>
      String (if is_name_char c then c else "_"%char) (sub_non_name_chars s')
  end.

(** The loop [while '__' in cleaned_name: cleaned_name =
    cleaned_name.replace('__', '_')], run for at most [fuel] rounds. *)
Fixpoint collapse_underscores (fuel : nat) (cleaned_name : string) : string :=
  match fuel with
  | O => cleaned_name
  | S fuel' =>
      if Str.contains "__" cleaned_name
      then collapse_underscores fuel' (StrMore.replace_double_underscore cleaned_name)
      else cleaned_name
  end.

(** [clean_node_name(name)]; every round of the loop shortens the name,
    so its length bounds the number of rounds. *)
Definition clean_node_name (name : string) : string :=
  if negb (Str.truthy name) then "default_node"
  else
    let name := StrMore.strip name in
    if negb (Str.truthy name) then "default_node"
    else
      let cleaned_name := sub_non_name_chars name in
      let cleaned_name :=
        match cleaned_name with
        | String c _ => if Str.is_digit c then "n_" +:+ cleaned_name else cleaned_name
        | EmptyString => cleaned_name
        end in
      let cleaned_name :=
        if 30 <? Str.len cleaned_name then StrMore.take 30 cleaned_name
        else cleaned_name in
      let cleaned_name :=
        collapse_underscores (String.length cleaned_name) cleaned_name in
      let cleaned_name := StrMore.strip_chars (Ascii.eqb "_") cleaned_name in
      let cleaned_name :=
        if negb (Str.truthy cleaned_name) || (Str.len cleaned_name <? 2)
        then "default_node" else cleaned_name in
      if StrMore.isdigit cleaned_name then "node_" +:+ cleaned_name
      else cleaned_name.

End Utils.

Module NodeNameSpec.

Definition is_letter (c : ascii) : bool :=
  Str.between 97 122 c || Str.between 65 90 c.

Definition starts_with_letter (s : string) : bool :=
  match s with
  | String c _ => is_letter c
  | EmptyString => false
  end.

(** Letters, digits and underscores only, and no underscore doubled, at
    the start or at the end. *)
Definition tidy (s : string) : Prop :=
  Str.all_chars Utils.is_name_char s = true
  ∧ Str.contains "__" s = false
  ∧ String.prefix "_" s = false
  ∧ StrMore.endswith "_" s = false.

End NodeNameSpec.

(** ** constants.py: file formats and the type of a file name *)

Module ConstantsMore.

Definition SUPPORTED_TEXTURE_FORMATS : list string :=
  [".png"; ".jpg"; ".jpeg"; ".tga"; ".tif"; ".tiff"; ".exr"; ".hdr"; ".pic"; ".rat"].

Definition has_format (formats : list string) (file_path : string) : bool :=
  if negb (Str.truthy file_path) then false
  else existsb (fun ext => StrMore.endswith ext (Str.lower file_path)) formats.

(** [is_supported_texture_format(file_path)] *)
Definition is_supported_texture_format : string -> bool :=
  has_format SUPPORTED_TEXTURE_FORMATS.

(** [extract_udim_info(filename)["pattern_type"]]: [None] for the main
    pattern, the index for an alternative one. *)
Fixpoint first_match_index (i : nat) (ps : list UdimPattern) (filename : string)
    : option (nat * (string * Z * string)) :=
  match ps with
  | [] => None
  | p :: ps' =>
      match Re.udim_match p filename with
      | Some m => Some (i, m)
      | None => first_match_index (S i) ps' filename
      end
  end.

Inductive PatternType := main_pattern | alternative (i : nat).

(** [extract_udim_info(filename)] with its four fields. *)
Definition extract_udim_info_full (cfg : UdimConfig) (filename : string)
    : option (string * Z * string * PatternType) :=
  if negb (Str.truthy filename) then None
  else match Re.udim_match (pattern cfg) filename with
       | Some m => Some (m, main_pattern)
       | None =>
           match first_match_index 0 (alternative_patterns cfg) filename with
           | Some (i, m) => Some (m, alternative i)
           | None => None
           end
       end.

End ConstantsMore.

(** ** udim_utils.py: the helpers around the detector *)

Module UdimHelpers.

Import UdimUtils.

Section WithConfig.

Variable cfg : UdimConfig.

(** The loop of [validate_udim_sequence]: the tile numbers of the
    files, or [None] where the function returns [False] from inside
    the loop. *)
Fixpoint udim_numbers_of (files : list string) : option (list Z) :=
  match files with
  | [] => Some []
  | file_path :: rest =>
      match Re.udim_match (pattern cfg) (PosixPath.basename file_path) with
      | None => None
      | Some (_, udim_number, _) =>
          if negb (in_range cfg udim_number) then None
          else match udim_numbers_of rest with
               | Some numbers => Some (udim_number :: numbers)
               | None => None
               end
      end
  end.

(** [validate_udim_sequence(files)] *)
Definition validate_udim_sequence_with (files : list string) : bool :=
  if Z.of_nat (length files) <? min_tiles cfg then false
  else match udim_numbers_of files with
       | None => false
       | Some udim_numbers =>
           Z.of_nat (length udim_numbers)
           =? Z.of_nat (length (remove_dups udim_numbers))
       end.

(** [create_udim_pattern_path(first_file)] *)
Definition create_udim_pattern_path_with (first_file : string) : string :=
  match Re.udim_match (pattern cfg) (PosixPath.basename first_file) with
  | None => first_file
  | Some (base_name, _, ext) =>
      let directory := PosixPath.dirname first_file in
      let udim_path :=
        PosixPath.join directory
          (base_name +:+ "." +:+ placeholder cfg +:+ "." +:+ ext) in
      Str.replace_char PosixPath.sep "/" (PosixPath.normpath udim_path)
  end.

(** [is_udim_texture(texture_path)] *)
Definition is_udim_texture_with (texture_path : string) : bool :=
  Str.contains (placeholder cfg) texture_path.

(** The integer fields of the dictionary of [get_udim_statistics]; the
    floating-point field [udim_percentage] is not part of the record. *)
Record UdimStatistics := {
  stat_udim_sequences : Z;
  stat_udim_tiles : Z;
  stat_single_textures : Z;
  stat_total_files : Z
}.

Definition sum_list (l : list Z) : Z := foldr Z.add 0 l.

(** [get_udim_statistics(texture_files)] *)
Definition get_udim_statistics_with (texture_files : list string) : UdimStatistics :=
  let udim_analysis := detect_udim_sequences_with cfg texture_files in
  {| stat_udim_sequences := Z.of_nat (length (udim_sequences udim_analysis));
     stat_udim_tiles :=
       sum_list ((fun seq => Z.of_nat (length (info_tiles seq.2)))
                   <$> udim_sequences udim_analysis);
     stat_single_textures := Z.of_nat (length (single_textures udim_analysis));
     stat_total_files := Z.of_nat (length texture_files) |}.

End WithConfig.

Definition validate_udim_sequence : list string -> bool :=
  validate_udim_sequence_with UDIM_CONFIG.
Definition create_udim_pattern_path : string -> string :=
  create_udim_pattern_path_with UDIM_CONFIG.
Definition is_udim_texture : string -> bool :=
  is_udim_texture_with UDIM_CONFIG.
Definition get_udim_statistics : list string -> UdimStatistics :=
  get_udim_statistics_with UDIM_CONFIG.

(** [enhanced_find_matching_textures(material_name, texture_files,
    texture_keywords, model_basename)] *)
Definition enhanced_find_matching_textures (material_name : string)
    (texture_files : list string) (texture_keywords : Dict.t (list string))
    (model_basename : string) : PyResult (gmap string string) :=
  let has_potential_udim :=
    existsb (fun f => bool_decide (is_Some
               (Re.udim_match (pattern UDIM_CONFIG) (PosixPath.basename f))))
            (take 10 texture_files) in
  if has_potential_udim
  then Returned (UdimSearch.find_matching_textures_with_udim
                   material_name texture_files texture_keywords model_basename)
  else MaterialUtils.find_matching_textures
         material_name texture_files (Some texture_keywords) model_basename.

End UdimHelpers.

Module HelperSpec.

(** The number a file contributes to [udim_numbers] in
    [validate_udim_sequence], when it passes the checks of the loop. *)
Definition checked_number (cfg : UdimConfig) (f : string) : option Z :=
  match Re.udim_match (pattern cfg) (PosixPath.basename f) with
  | Some (_, n, _) => if UdimUtils.in_range cfg n then Some n else None
  | None => None
  end.

End HelperSpec.

(** ** material_utils.py: [get_material_stats] *)

Module MaterialStats.

Record Stats := { total : Z; udim : Z; regular : Z }.

(** [get_material_stats(texture_maps)] *)
Definition get_material_stats (texture_maps : gmap string string) : Stats :=
  if bool_decide (texture_maps = ∅) then {| total := 0; udim := 0; regular := 0 |}
  else
    let udim_count :=
      if MaterialUtils.UDIM_SUPPORT
      then Z.of_nat (length (List.filter
             (fun entry => UdimHelpers.is_udim_texture entry.2)
             (map_to_list texture_maps)))
      else 0 in
    {| total := Z.of_nat (size texture_maps);
       udim := udim_count;
       regular := Z.of_nat (size texture_maps) - udim_count |}.

End MaterialStats.

(** ** material_builders.py: [_needs_texture_nodes] *)

Module MaterialBuilders.

(** [PrincipledBuilder._needs_texture_nodes(texture_maps)];
    [MaterialXBuilder._needs_image_nodes] has the same body. *)
Definition _needs_texture_nodes (texture_maps : gmap string string) : bool :=
  if negb MaterialUtils.UDIM_SUPPORT then false
  else existsb (fun entry => UdimHelpers.is_udim_texture entry.2)
         (map_to_list texture_maps).

End MaterialBuilders.

(** ** Definitions used to state the properties of the classifiers *)

Module SearchSpec.

(** The keyword table a call works with. *)
Definition table_of (texture_keywords : option (Dict.t (list string)))
    : Dict.t (list string) :=
  match texture_keywords with
  | None => MaterialUtils.ENHANCED_TEXTURE_KEYWORDS
  | Some table => table
  end.

(** A loop body that leaves the dictionary alone or gives one
    unassigned type of [types] the path of the current candidate. *)
Definition assigns {C} (types : list string) (path_of : C -> string)
    (step : gmap string string -> C -> gmap string string) : Prop :=
  ∀ found x,
    step found x = found
    ∨ ∃ texture_type,
        texture_type ∈ types ∧ found !! texture_type = None
        ∧ step found x = <[texture_type := path_of x]> found.

(** Types among [types] and paths among [paths] only. *)
Definition within (types paths : list string) (found : gmap string string) : Prop :=
  ∀ texture_type path,
    found !! texture_type = Some path → texture_type ∈ types ∧ path ∈ paths.

(** No path under two types. *)
Definition one_type_per_path (found : gmap string string) : Prop :=
  ∀ type1 type2 path,
    found !! type1 = Some path → found !! type2 = Some path → type1 = type2.

Definition is_upper (c : ascii) : bool := Str.between 65 90 c.

Definition has_upper (s : string) : bool :=
  negb (Str.all_chars (fun c => negb (is_upper c)) s).

(** Text without a capital letter, as [str.lower] returns it. *)
Definition lowercase (name : string) : Prop :=
  Str.all_chars (fun c => negb (is_upper c)) name = true.

(** The table without the keywords that contain a capital letter. *)
Definition drop_upper (table : Dict.t (list string)) : Dict.t (list string) :=
  (fun entry => (entry.1, List.filter (fun k => negb (has_upper k)) entry.2))
    <$> table.

(** The paths the UDIM search chooses from. *)
Definition candidate_paths (texture_files : list string) : list string :=
  UdimSearch.path <$>
    UdimSearch.all_texture_candidates (UdimUtils.detect_udim_sequences texture_files).

End SearchSpec.

(** * Properties *)

(** ** The embedding on concrete inputs *)

Example basename_ex : PosixPath.basename "tex/wall.1001.jpg" = "wall.1001.jpg".
Proof. reflexivity. Qed.

Example dirname_root_ex : PosixPath.dirname "//b.jpg" = "//".
Proof. reflexivity. Qed.

Example splitext_hidden_ex : PosixPath.splitext_root "a/..bashrc" = "a/..bashrc".
Proof. reflexivity. Qed.

Example normpath_root_ex : PosixPath.normpath "//x/../.." = "//".
Proof. reflexivity. Qed.

Example join_ex : PosixPath.join "tex" "a.jpg" = "tex/a.jpg" /\ PosixPath.join "" "a.jpg" = "a.jpg"
  /\ PosixPath.join "/" "a.jpg" = "/a.jpg".
Proof. repeat split. Qed.

Example udim_match_ex :
  Re.udim_match (pattern UDIM_CONFIG) "wall_basecolor.1001.JPG" = Some ("wall_basecolor", 1001, "JPG").
Proof. reflexivity. Qed.

Example udim_match_short_ex : Re.udim_match (pattern UDIM_CONFIG) ".1001.jpg" = None.
Proof. reflexivity. Qed.

Example udim_match_5digits_ex :
  Re.udim_match (pattern UDIM_CONFIG) "w.10001.jpg" = None.
Proof. reflexivity. Qed.

Example detect_ex :
  UdimUtils.detect_udim_sequences
    ["t/wall.1002.jpg"; "t/crate_diff.jpg"; "t/wall.1001.jpg"; "t/lone.1001.png"]
  = {| UdimUtils.udim_sequences :=
         [("wall", {| UdimUtils.info_pattern := "t/wall.<UDIM>.jpg";
                      UdimUtils.info_tiles := [1001; 1002];
                      UdimUtils.info_files := ["t/wall.1001.jpg"; "t/wall.1002.jpg"];
                      UdimUtils.tile_count := 2 |})];
       UdimUtils.single_textures := ["t/crate_diff.jpg"; "t/lone.1001.png"] |}.
Proof. reflexivity. Qed.

Example crate_ex :
  MaterialUtils.find_matching_textures "crate"
    ["crate_diff.jpg"; "crate_normal.jpg"; "crate_rough.jpg"] None ""
  = Returned (<["BaseMap" := "crate_diff.jpg"]>
               (<["Normal" := "crate_normal.jpg"]>
                 (<["Roughness" := "crate_rough.jpg"]> ∅))).
Proof. vm_compute. reflexivity. Qed.
Example dirname_ex : PosixPath.dirname "/a//b.jpg" = "/a".
Proof. reflexivity. Qed.
Example splitext_ex : PosixPath.splitext_root "a/.b.c" = "a/.b".
Proof. reflexivity. Qed.
Example normpath_ex : PosixPath.normpath "a/./b/../c//d.<UDIM>.jpg" = "a/c/d.<UDIM>.jpg".
Proof. reflexivity. Qed.
Example re_split_ex : Str.re_split_name "my  wood_01.v2-" = ["my"; "wood"; "01"; "v2"; ""].
Proof. reflexivity. Qed.
Example udim_match_us_ex :
  Re.udim_match (pattern UDIM_CONFIG) "a.b_0007.tiff" = Some ("a.b", 7, "tiff").
Proof. reflexivity. Qed.
Example udim_match_dash_ex : Re.udim_match (pattern UDIM_CONFIG) "wall-1001.jpg" = None.
Proof. reflexivity. Qed.

(** ** Insertion-ordered dictionaries *)

Section dict_facts.
Context {V : Type}.
Implicit Types (d : Dict.t V) (k : string) (v : V).

Lemma dict_get_set_eq d k v : Dict.get (Dict.set d k v) k = Some v.
Proof.
  induction d as [|[k' v'] d IH]; simpl.
  - by rewrite String.eqb_refl.
  - destruct (String.eqb k' k) eqn:E; simpl; rewrite E; done.
Qed.

Lemma dict_get_set_ne d k k' v :
  k ≠ k' → Dict.get (Dict.set d k v) k' = Dict.get d k'.
Proof.
  intros Hne. induction d as [|[k0 v0] d IH]; simpl.
  - destruct (String.eqb_spec k k'); done.
  - destruct (String.eqb_spec k0 k) as [->|]; simpl.
    + destruct (String.eqb_spec k k'); done.
    + by rewrite IH.
Qed.

Lemma dict_get_None d k : Dict.get d k = None ↔ k ∉ Dict.keys d.
Proof.
  induction d as [|[k' v'] d IH]; simpl.
  - split; [intros _; apply not_elem_of_nil | done].
  - rewrite not_elem_of_cons. destruct (String.eqb_spec k' k) as [->|Hne].
    + split; [done | intros [? _]; done].
    + rewrite IH. split; [intros H; split; [congruence | exact H] | intros [_ H]; exact H].
Qed.

Lemma dict_set_fresh d k v :
  Dict.get d k = None → Dict.set d k v = d ++ [(k, v)].
Proof.
  induction d as [|[k' v'] d IH]; simpl; [done|].
  destruct (String.eqb k' k); [done|]. intros H. by rewrite IH.
Qed.

Lemma dict_get_elem_of d k v : Dict.get d k = Some v → (k, v) ∈ d.
Proof.
  induction d as [|[k' v'] d IH]; simpl; [done|].
  destruct (String.eqb_spec k' k) as [->|].
  - intros [= ->]. left.
  - intros. right. auto.
Qed.

Lemma dict_elem_of_get d k v :
  NoDup (Dict.keys d) → (k, v) ∈ d → Dict.get d k = Some v.
Proof.
  induction d as [|[k' v'] d IH]; simpl.
  - intros _ H. by apply elem_of_nil in H.
  - rewrite NoDup_cons. intros [Hk Hd] [[= -> ->]|H]%elem_of_cons.
    + by rewrite String.eqb_refl.
    + destruct (String.eqb_spec k' k) as [->|]; [|auto].
      exfalso. apply Hk. unfold Dict.keys.
      apply (list_elem_of_fmap_2 fst) in H. done.
Qed.

Lemma dict_get_append_eq (d : Dict.t (list V)) k x :
  Dict.get (Dict.append d k x) k = Some (default [] (Dict.get d k) ++ [x]).
Proof.
  induction d as [|[k' xs] d IH]; simpl.
  - by rewrite String.eqb_refl.
  - destruct (String.eqb k' k) eqn:E; simpl; rewrite E; done.
Qed.

Lemma dict_get_append_ne (d : Dict.t (list V)) k k' x :
  k ≠ k' → Dict.get (Dict.append d k x) k' = Dict.get d k'.
Proof.
  intros Hne. induction d as [|[k0 xs] d IH]; simpl.
  - destruct (String.eqb_spec k k'); done.
  - destruct (String.eqb_spec k0 k) as [->|]; simpl.
    + destruct (String.eqb_spec k k'); done.
    + by rewrite IH.
Qed.

Lemma dict_keys_append (d : Dict.t (list V)) k x :
  Dict.keys (Dict.append d k x)
  = if bool_decide (k ∈ Dict.keys d) then Dict.keys d else Dict.keys d ++ [k].
Proof.
  induction d as [|[k' xs] d IH]; simpl; [done|].
  destruct (String.eqb_spec k' k) as [->|Hne]; simpl.
  - rewrite bool_decide_eq_true_2 by (apply elem_of_cons; by left). done.
  - rewrite IH. destruct (decide (k ∈ Dict.keys d)) as [Hin|Hin].
    + rewrite !bool_decide_eq_true_2 by (rewrite ?elem_of_cons; auto). done.
    + rewrite !bool_decide_eq_false_2 by (rewrite ?not_elem_of_cons; auto). done.
Qed.

Lemma dict_keys_append_NoDup (d : Dict.t (list V)) k x :
  NoDup (Dict.keys d) → NoDup (Dict.keys (Dict.append d k x)).
Proof.
  intros H. rewrite dict_keys_append. case_bool_decide; [done|].
  apply NoDup_app. split_and!; [done | | apply NoDup_singleton].
  intros y Hy ->%list_elem_of_singleton. done.
Qed.

End dict_facts.

(** ** The grouping loop of the detector *)

Section detector_facts.
Import UdimUtils DetectorSpec.

Variable cfg : UdimConfig.

Lemma insert_tile_perm t l : insert_tile t l ≡ₚ t :: l.
Proof.
  induction l as [|x l IH]; simpl; [done|].
  destruct (udim t <=? udim x); [done|].
  rewrite IH. apply Permutation_swap.
Qed.

Lemma sort_tiles_perm l : sort_tiles l ≡ₚ l.
Proof.
  induction l as [|x l IH]; simpl; [done|].
  rewrite insert_tile_perm. by rewrite IH.
Qed.

Lemma sort_tiles_length l : length (sort_tiles l) = length l.
Proof. by rewrite sort_tiles_perm. Qed.

Lemma sort_tiles_cons_inv l : l ≠ [] → ∃ t ts, sort_tiles l = t :: ts.
Proof.
  intros Hl. destruct (sort_tiles l) as [|t ts] eqn:E; [|eauto].
  exfalso. apply Hl. apply length_zero_iff_nil.
  by rewrite <- sort_tiles_length, E.
Qed.

Local Arguments group_step : simpl never.
Local Arguments promote_step : simpl never.

Lemma group_step_accept g s f :
  group_step cfg (g, s) f
  = match accept cfg f with
    | Some (b, t) => (Dict.append g b t, s)
    | None => (g, s ++ [f])
    end.
Proof.
  unfold group_step, accept.
  destruct (Re.udim_match _ _) as [[[b n] e]|]; [|done].
  by destruct (in_range cfg n).
Qed.

Lemma group_fold_singles files g s :
  (fold_left (group_step cfg) files (g, s)).2
  = s ++ filter (λ f, rejected cfg f = true) files.
Proof.
  revert g s. induction files as [|f files IH]; intros g s; simpl.
  - by rewrite app_nil_r.
  - rewrite group_step_accept. unfold rejected at 1.
    destruct (accept cfg f) as [[b t]|] eqn:E.
    + rewrite IH. rewrite filter_cons_False; [done|].
      unfold rejected. by rewrite E.
    + rewrite IH. rewrite filter_cons_True by (unfold rejected; by rewrite E).
      by rewrite <- app_assoc.
Qed.

Lemma tiles_of_cons base f files :
  tiles_of cfg base (f :: files)
  = match tile_for cfg base f with
    | Some t => t :: tiles_of cfg base files
    | None => tiles_of cfg base files
    end.
Proof. reflexivity. Qed.

Lemma group_fold_get files g s base :
  Dict.get (fold_left (group_step cfg) files (g, s)).1 base
  = match Dict.get g base, tiles_of cfg base files with
    | None, [] => None
    | o, ts => Some (default [] o ++ ts)
    end.
Proof.
  revert g s. induction files as [|f files IH]; intros g s.
  - simpl. destruct (Dict.get g base); simpl; by rewrite ?app_nil_r.
  - cbn [fold_left]. rewrite group_step_accept, tiles_of_cons. unfold tile_for.
    destruct (accept cfg f) as [[b t]|] eqn:E; [|apply IH].
    rewrite IH. destruct (String.eqb_spec b base) as [->|Hne].
    + rewrite dict_get_append_eq.
      destruct (Dict.get g base); simpl;
        destruct (tiles_of cfg base files); simpl; by rewrite <- ?app_assoc.
    + by rewrite dict_get_append_ne.
Qed.

Lemma group_fold_NoDup files g s :
  NoDup (Dict.keys g) →
  NoDup (Dict.keys (fold_left (group_step cfg) files (g, s)).1).
Proof.
  revert g s. induction files as [|f files IH]; intros g s Hg; simpl; [done|].
  rewrite group_step_accept. destruct (accept cfg f) as [[b t]|]; [|by apply IH].
  apply IH. by apply dict_keys_append_NoDup.
Qed.

Lemma append_paths_perm (g : Dict.t (list Tile)) b t :
  Dict.append g b t ≫= group_paths ≡ₚ (g ≫= group_paths) ++ [file t].
Proof.
  induction g as [|[k ts] g IH]; simpl; [done|].
  destruct (String.eqb k b); simpl.
  - unfold group_paths at 1 3. simpl. rewrite fmap_app. simpl.
    rewrite <- !app_assoc. f_equiv. apply Permutation_app_comm.
  - rewrite IH. by rewrite app_assoc.
Qed.

Lemma group_fold_perm files g s :
  let st := fold_left (group_step cfg) files (g, s) in
  (st.1 ≫= group_paths) ++ st.2 ≡ₚ (g ≫= group_paths) ++ s ++ files.
Proof.
  revert g s. induction files as [|f files IH]; intros g s; simpl.
  - by rewrite app_nil_r.
  - rewrite group_step_accept. destruct (accept cfg f) as [[b t]|] eqn:E.
    + rewrite IH. rewrite append_paths_perm.
      assert (file t = f) as ->.
      { unfold accept in E. destruct (Re.udim_match _ _) as [[[b' n] e]|]; [|done].
        destruct (in_range cfg n); [|done]. by injection E as <- <-. }
      rewrite <- !app_assoc. f_equiv. rewrite (app_assoc [f]).
      rewrite (Permutation_app_comm [f] s). by rewrite <- app_assoc.
    + rewrite IH. by rewrite <- !app_assoc.
Qed.

Lemma group_fold_nonempty files g s :
  Forall (λ e, e.2 ≠ []) g →
  Forall (λ e, e.2 ≠ []) (fold_left (group_step cfg) files (g, s)).1.
Proof.
  revert g s. induction files as [|f files IH]; intros g s Hg; simpl; [done|].
  rewrite group_step_accept. destruct (accept cfg f) as [[b t]|]; [|by apply IH].
  apply IH. clear IH. induction g as [|[k ts] g IHg]; simpl.
  - repeat constructor. done.
  - apply Forall_cons in Hg as [H1 H2].
    destruct (String.eqb k b); constructor; simpl; auto.
    by destruct ts.
Qed.

End detector_facts.

(** ** The promotion loop of the detector *)

Section promote_facts.
Import UdimUtils DetectorSpec.

Variable cfg : UdimConfig.

Local Arguments group_step : simpl never.
Local Arguments promote_step : simpl never.

Lemma promote_step_eq seqs s base tiles :
  promote_step cfg (seqs, s) (base, tiles)
  = if degraded cfg (base, tiles) then (seqs, s ++ (file <$> tiles))
    else match sort_tiles tiles with
         | first_tile :: _ =>
             (Dict.set seqs base (info_of cfg base tiles first_tile), s)
         | [] => (seqs, s)
         end.
Proof.
  unfold promote_step, degraded. simpl.
  destruct (min_tiles cfg <=? Z.of_nat (length tiles)); simpl; [|done].
  unfold info_of. by destruct (sort_tiles tiles).
Qed.

Lemma promote_fold_singles groups seqs s :
  (fold_left (promote_step cfg) groups (seqs, s)).2
  = s ++ (filter (λ g, degraded cfg g = true) groups ≫= group_paths).
Proof.
  revert seqs s. induction groups as [|[k ts] groups IH]; intros seqs s.
  - simpl. by rewrite app_nil_r.
  - cbn [fold_left]. rewrite promote_step_eq.
    destruct (degraded cfg (k, ts)) eqn:E.
    + rewrite IH, filter_cons_True by done. simpl.
      by rewrite <- app_assoc.
    + rewrite filter_cons_False by (by rewrite E).
      destruct (sort_tiles ts); apply IH.
Qed.

Lemma promote_fold_get groups seqs s base :
  NoDup (Dict.keys groups) →
  Dict.get (fold_left (promote_step cfg) groups (seqs, s)).1 base
  = match Dict.get groups base with
    | Some tiles =>
        if degraded cfg (base, tiles) then Dict.get seqs base
        else match sort_tiles tiles with
             | first_tile :: _ => Some (info_of cfg base tiles first_tile)
             | [] => Dict.get seqs base
             end
    | None => Dict.get seqs base
    end.
Proof.
  revert seqs s. induction groups as [|[k ts] groups IH]; intros seqs s Hnd.
  - done.
  - cbn [fold_left]. simpl in Hnd. apply NoDup_cons in Hnd as [Hk Hnd].
    rewrite promote_step_eq. simpl.
    destruct (String.eqb_spec k base) as [->|Hne].
    + assert (Dict.get groups base = None) as Hnone by by apply dict_get_None.
      unfold degraded. simpl.
      destruct (negb _).
      * by rewrite IH, Hnone.
      * destruct (sort_tiles ts); rewrite IH, Hnone by done; [done|].
        apply dict_get_set_eq.
    + destruct (degraded cfg (k, ts)); [by rewrite IH|].
      destruct (sort_tiles ts); rewrite IH by done; [done|].
      rewrite dict_get_set_ne by done. done.
Qed.

Lemma set_paths_fresh (seqs : Dict.t UdimInfo) k info :
  Dict.get seqs k = None →
  Dict.set seqs k info ≫= sequence_paths
  = (seqs ≫= sequence_paths) ++ info_files info.
Proof.
  intros H. rewrite dict_set_fresh by done. rewrite bind_app. simpl.
  by rewrite app_nil_r.
Qed.

Lemma promote_fold_perm groups seqs s :
  NoDup (Dict.keys groups) →
  (∀ k, k ∈ Dict.keys groups → Dict.get seqs k = None) →
  let st := fold_left (promote_step cfg) groups (seqs, s) in
  (st.1 ≫= sequence_paths) ++ st.2
  ≡ₚ (seqs ≫= sequence_paths) ++ s ++ (groups ≫= group_paths).
Proof.
  revert seqs s. induction groups as [|[k ts] groups IH]; intros seqs s Hnd Hfresh.
  - simpl. by rewrite app_nil_r.
  - cbn [fold_left]. simpl in Hnd. apply NoDup_cons in Hnd as [Hk Hnd].
    rewrite promote_step_eq. cbn [mbind list_bind]. fold (mbind (M:=list) group_paths groups).
    destruct (degraded cfg (k, ts)).
    + rewrite IH; [|done|].
      * unfold group_paths at 2. simpl. by rewrite <- !app_assoc.
      * intros k' Hk'. apply Hfresh. simpl. apply elem_of_cons. by right.
    + destruct (sort_tiles ts) as [|t0 sorted] eqn:Es.
      * assert (ts = []) as ->.
        { apply length_zero_iff_nil. by rewrite <- sort_tiles_length, Es. }
        rewrite IH; [done|done|]. intros k' Hk'. apply Hfresh. simpl. apply elem_of_cons. by right.
      * rewrite IH; [|done|].
        -- rewrite set_paths_fresh by (apply Hfresh; simpl; apply elem_of_cons; by left).
           unfold info_of. cbn [info_files].
           unfold group_paths at 2. cbn [snd].
           rewrite sort_tiles_perm.
           rewrite <- !app_assoc. f_equiv.
           rewrite !app_assoc. f_equiv. apply Permutation_app_comm.
        -- intros k' Hk'. rewrite dict_get_set_ne.
           ++ apply Hfresh. simpl. apply elem_of_cons. by right.
           ++ intros ->. done.
Qed.

End promote_facts.

Section detector_theorems.
Import UdimUtils DetectorSpec.

Variable cfg : UdimConfig.

Lemma detect_with_eq files :
  detect_udim_sequences_with cfg files
  = let st := fold_left (promote_step cfg) (group_files cfg files).1
                ([], (group_files cfg files).2) in
    {| udim_sequences := st.1; single_textures := st.2 |}.
Proof.
  unfold detect_udim_sequences_with.
  destruct (group_files cfg files) as [g s]. simpl.
  by destruct (fold_left _ _ _).
Qed.

Lemma group_files_NoDup files : NoDup (Dict.keys (group_files cfg files).1).
Proof. apply group_fold_NoDup. constructor. Qed.

Lemma group_files_nonempty files base tiles :
  Dict.get (group_files cfg files).1 base = Some tiles → tiles ≠ [].
Proof.
  intros H%dict_get_elem_of.
  pose proof (group_fold_nonempty cfg files [] [] (Forall_nil_2 _)) as Hall.
  rewrite Forall_forall in Hall. by apply Hall in H.
Qed.

Lemma group_files_get files base :
  Dict.get (group_files cfg files).1 base
  = match tiles_of cfg base files with
    | [] => None
    | ts => Some ts
    end.
Proof. unfold group_files. by rewrite group_fold_get. Qed.

Lemma detect_with_singles files :
  single_textures (detect_udim_sequences_with cfg files)
  = filter (λ f, rejected cfg f = true) files
    ++ (filter (λ g, degraded cfg g = true) (group_files cfg files).1 ≫= group_paths).
Proof.
  rewrite detect_with_eq. simpl. rewrite promote_fold_singles.
  unfold group_files. by rewrite group_fold_singles.
Qed.

Lemma detect_with_get files base :
  Dict.get (udim_sequences (detect_udim_sequences_with cfg files)) base
  = match Dict.get (group_files cfg files).1 base with
    | Some tiles =>
        if degraded cfg (base, tiles) then None
        else match sort_tiles tiles with
             | first_tile :: _ => Some (info_of cfg base tiles first_tile)
             | [] => None
             end
    | None => None
    end.
Proof.
  rewrite detect_with_eq. simpl.
  rewrite promote_fold_get by apply group_files_NoDup. done.
Qed.

Lemma detect_with_partition files :
  (udim_sequences (detect_udim_sequences_with cfg files) ≫= sequence_paths)
  ++ single_textures (detect_udim_sequences_with cfg files) ≡ₚ files.
Proof.
  rewrite detect_with_eq. cbn [udim_sequences single_textures].
  rewrite promote_fold_perm; [|apply group_files_NoDup|done]. simpl.
  rewrite (Permutation_app_comm (group_files cfg files).2).
  unfold group_files. by rewrite group_fold_perm.
Qed.

Lemma tile_for_file base f t : tile_for cfg base f = Some t → file t = f.
Proof.
  unfold tile_for, accept.
  destruct (Re.udim_match _ _) as [[[b n] e]|]; [|done].
  destruct (in_range cfg n); [|done].
  destruct (String.eqb b base); [|done]. by intros [= <-].
Qed.

Lemma tiles_of_sublist base files :
  file <$> tiles_of cfg base files `sublist_of` files.
Proof.
  induction files as [|f files IH]; [done|].
  rewrite tiles_of_cons. destruct (tile_for cfg base f) as [t|] eqn:E.
  - simpl. rewrite (tile_for_file _ _ _ E). by constructor.
  - by constructor.
Qed.

Lemma group_paths_sublist files group :
  group ∈ (group_files cfg files).1 → group_paths group `sublist_of` files.
Proof.
  destruct group as [base tiles]. intros Hin.
  apply dict_elem_of_get in Hin; [|apply group_files_NoDup].
  rewrite group_files_get in Hin. unfold group_paths. simpl.
  destruct (tiles_of cfg base files) eqn:E; [done|].
  injection Hin as <-. rewrite <- E. apply tiles_of_sublist.
Qed.

End detector_theorems.

(** ** The order of the groups *)

Section group_order.
Import UdimUtils DetectorSpec.

Variable cfg : UdimConfig.

Lemma filter_fresh_cons (seen l : list string) b :
  b ∉ seen →
  filter (λ y, y ∉ seen ++ [b]) l = filter (λ y, y ∉ seen) (filter (λ y, y ≠ b) l).
Proof.
  intros Hb. rewrite list_filter_filter. apply list_filter_iff.
  intros y. rewrite not_elem_of_app, not_elem_of_cons. split.
  - intros (? & ? & _). done.
  - intros [? ?]. split_and!; [done..|]. apply not_elem_of_nil.
Qed.

Lemma filter_seen_cons (seen l : list string) b :
  b ∈ seen →
  filter (λ y, y ∉ seen) l = filter (λ y, y ∉ seen) (filter (λ y, y ≠ b) l).
Proof.
  intros Hb. rewrite list_filter_filter. apply list_filter_iff.
  intros y. split; [|by intros [? _]].
  intros Hy. split; [done|]. by intros ->.
Qed.

(** The keys of the group dictionary during the first loop: the keys it
    had, then the new base names in order of first appearance. *)
Lemma group_fold_keys files g s :
  Dict.keys (fold_left (group_step cfg) files (g, s)).1
  = Dict.keys g
    ++ filter (λ b, b ∉ Dict.keys g) (first_appearance (omap (base_of cfg) files)).
Proof.
  revert g s. induction files as [|f files IH]; intros g s.
  - simpl. by rewrite app_nil_r.
  - cbn [fold_left omap list_omap]. rewrite group_step_accept. unfold base_of at 1.
    destruct (accept cfg f) as [[b t]|] eqn:E; [|apply IH].
    cbn [fmap option_fmap option_map fst first_appearance].
    rewrite IH, dict_keys_append. case_bool_decide as Hb.
    + rewrite filter_cons_False by (intros H; by apply H).
      by rewrite <- filter_seen_cons.
    + rewrite filter_cons_True by done.
      rewrite <- app_assoc. simpl. by rewrite filter_fresh_cons.
Qed.

Lemma group_files_keys files :
  Dict.keys (group_files cfg files).1 = first_appearance (omap (base_of cfg) files).
Proof.
  unfold group_files. rewrite group_fold_keys. simpl.
  induction (first_appearance (omap (base_of cfg) files)) as [|b bs IH]; [done|].
  rewrite filter_cons_True by apply not_elem_of_nil. by rewrite IH.
Qed.

Lemma dict_entries_of_keys {V} (d : Dict.t V) (F : string → V) :
  (∀ k v, (k, v) ∈ d → v = F k) → d = (λ k, (k, F k)) <$> Dict.keys d.
Proof.
  induction d as [|[k v] d IH]; intros H; [done|].
  unfold Dict.keys in *. rewrite !fmap_cons. simpl. f_equal.
  - f_equal. apply H. apply elem_of_cons. by left.
  - apply IH. intros k' v' Hin. apply H. apply elem_of_cons. by right.
Qed.

(** The group dictionary after the first loop, read off the input. *)
Lemma group_files_entries files :
  (group_files cfg files).1
  = (λ b, (b, tiles_of cfg b files)) <$> first_appearance (omap (base_of cfg) files).
Proof.
  rewrite <- group_files_keys. apply dict_entries_of_keys.
  intros k ts Hin. apply dict_elem_of_get in Hin; [|apply group_files_NoDup].
  rewrite group_files_get in Hin.
  destruct (tiles_of cfg k files); [done|]. by injection Hin.
Qed.

Lemma files_with_base_tiles files base :
  file <$> tiles_of cfg base files = files_with_base cfg files base.
Proof.
  unfold files_with_base. induction files as [|f files IH]; [done|].
  rewrite tiles_of_cons. unfold tile_for.
  destruct (accept cfg f) as [[b t]|] eqn:E.
  - assert (base_of cfg f = Some b) as Hb by (unfold base_of; by rewrite E).
    destruct (String.eqb_spec b base) as [->|Hne].
    + rewrite filter_cons_True by done. rewrite fmap_cons, IH. f_equal.
      apply (tile_for_file cfg base). unfold tile_for. by rewrite E, String.eqb_refl.
    + rewrite filter_cons_False by congruence. apply IH.
  - assert (base_of cfg f = None) as Hb by (unfold base_of; by rewrite E).
    rewrite filter_cons_False by congruence. apply IH.
Qed.

Lemma degraded_below files base :
  degraded cfg (base, tiles_of cfg base files) = below_threshold cfg files base.
Proof.
  unfold degraded, below_threshold. simpl.
  by rewrite <- files_with_base_tiles, length_fmap.
Qed.

(** The files of the groups below the threshold, read off the input:
    the base names in order of first appearance, and under each the
    files in input order. *)
Lemma degraded_groups_paths files :
  filter (λ g, degraded cfg g = true) (group_files cfg files).1 ≫= group_paths
  = filter (λ b, below_threshold cfg files b = true)
      (first_appearance (omap (base_of cfg) files))
    ≫= files_with_base cfg files.
Proof.
  rewrite group_files_entries.
  induction (first_appearance (omap (base_of cfg) files)) as [|b bs IH]; [done|].
  rewrite fmap_cons.
  destruct (below_threshold cfg files b) eqn:Hb.
  - rewrite (filter_cons_True (λ g, degraded cfg g = true))
      by (by rewrite degraded_below).
    rewrite filter_cons_True by done.
    rewrite !bind_cons. f_equal; [|exact IH].
    unfold group_paths. simpl. apply files_with_base_tiles.
  - rewrite (filter_cons_False (λ g, degraded cfg g = true))
      by (rewrite degraded_below; congruence).
    rewrite filter_cons_False by congruence. apply IH.
Qed.

End group_order.

(** ** The detector: range, threshold, order and partition *)

Section detector_claims.
Import UdimUtils DetectorSpec.

(** C10. [detect_udim_sequences] partitions its input: the files of the
    emitted sequences together with [single_textures] are the input
    list up to order, so every input path occurs in the output as often
    as in the input, in one place only, and nothing else occurs. *)
Theorem detect_udim_sequences_partition (texture_files : list string) :
  (udim_sequences (detect_udim_sequences texture_files) ≫= sequence_paths)
  ++ single_textures (detect_udim_sequences texture_files)
  ≡ₚ texture_files.
Proof. apply detect_with_partition. Qed.

(** C7. A group with at least [min_tiles] tiles, in particular with
    exactly [min_tiles], becomes a sequence holding its sorted tiles; a
    group with fewer tiles produces no sequence and each of its files is
    in [single_textures]. *)
Theorem min_tiles_threshold (cfg : UdimConfig) (texture_files : list string)
    (base_name : string) (tiles : list Tile) :
  Dict.get (group_files cfg texture_files).1 base_name = Some tiles →
  (min_tiles cfg ≤ Z.of_nat (length tiles) →
     ∃ info,
       Dict.get (udim_sequences (detect_udim_sequences_with cfg texture_files))
         base_name = Some info
       ∧ info_files info = file <$> sort_tiles tiles
       ∧ info_tiles info = udim <$> sort_tiles tiles
       ∧ tile_count info = Z.of_nat (length tiles))
  ∧ (Z.of_nat (length tiles) < min_tiles cfg →
       Dict.get (udim_sequences (detect_udim_sequences_with cfg texture_files))
         base_name = None
       ∧ ∀ t, t ∈ tiles →
           file t ∈ single_textures (detect_udim_sequences_with cfg texture_files)).
Proof.
  intros Hget. split.
  - intros Hmin. rewrite detect_with_get, Hget.
    unfold degraded. simpl.
    rewrite (proj2 (Z.leb_le _ _) Hmin). simpl.
    destruct (sort_tiles_cons_inv tiles) as (t0 & ts & Hs).
    { by eapply group_files_nonempty. }
    rewrite Hs. eexists. split; [done|].
    unfold info_of. simpl. by rewrite Hs, <- (sort_tiles_length tiles), Hs.
  - intros Hlt.
    assert (degraded cfg (base_name, tiles) = true) as Hdeg.
    { unfold degraded. simpl. apply negb_true_iff, Z.leb_gt. done. }
    split.
    + by rewrite detect_with_get, Hget, Hdeg.
    + intros t Ht. rewrite detect_with_singles. apply elem_of_app. right.
      apply list_elem_of_bind. exists (base_name, tiles). split.
      * unfold group_paths. simpl. by apply list_elem_of_fmap_2.
      * apply list_elem_of_filter. split; [done|].
        by apply dict_get_elem_of.
Qed.

Lemma min_tiles_threshold_witness :
  (∃ info,
     Dict.get (udim_sequences (detect_udim_sequences_with UDIM_CONFIG
                 ["t/w.1002.jpg"; "t/lone.1001.jpg"; "t/w.1001.jpg"])) "w" = Some info
     ∧ info_files info = ["t/w.1001.jpg"; "t/w.1002.jpg"]
     ∧ info_tiles info = [1001; 1002]
     ∧ tile_count info = 2)
  ∧ (Dict.get (udim_sequences (detect_udim_sequences_with UDIM_CONFIG
                 ["t/w.1002.jpg"; "t/lone.1001.jpg"; "t/w.1001.jpg"])) "lone" = None
     ∧ ∀ t, t ∈ [ {| file := "t/lone.1001.jpg"; udim := 1001; extension := "jpg" |} ] →
         file t ∈ single_textures (detect_udim_sequences_with UDIM_CONFIG
                 ["t/w.1002.jpg"; "t/lone.1001.jpg"; "t/w.1001.jpg"])).
Proof.
  split.
  - apply (min_tiles_threshold UDIM_CONFIG
             ["t/w.1002.jpg"; "t/lone.1001.jpg"; "t/w.1001.jpg"] "w"
             [ {| file := "t/w.1002.jpg"; udim := 1002; extension := "jpg" |};
               {| file := "t/w.1001.jpg"; udim := 1001; extension := "jpg" |} ]).
    + reflexivity.
    + simpl. lia.
  - apply (min_tiles_threshold UDIM_CONFIG
             ["t/w.1002.jpg"; "t/lone.1001.jpg"; "t/w.1001.jpg"] "lone"
             [ {| file := "t/lone.1001.jpg"; udim := 1001; extension := "jpg" |} ]).
    + reflexivity.
    + simpl. lia.
Defined.

(** C6, counterexample. A tile of a group below the threshold is
    appended after the files that never matched: the single tile
    [a.1001.jpg] comes first in the input and last in [single_textures],
    so the result is not a subsequence of the input. *)
Lemma singles_order_counterexample :
  single_textures (detect_udim_sequences ["a.1001.jpg"; "b.jpg"])
  = ["b.jpg"; "a.1001.jpg"]
  ∧ ¬ (single_textures (detect_udim_sequences ["a.1001.jpg"; "b.jpg"])
       `sublist_of` ["a.1001.jpg"; "b.jpg"]).
Proof.
  split; [reflexivity|].
  change (single_textures _) with ["b.jpg"; "a.1001.jpg"].
  intros H. apply sublist_cons_r in H as [H|(l' & Heq & H)].
  - apply sublist_cons_r in H as [H|(l' & Heq & H)].
    + by apply sublist_nil_r in H.
    + injection Heq as <-. by apply sublist_nil_r in H.
  - discriminate Heq.
Qed.

(** C6, amended. [single_textures] is the files that are not accepted
    tiles, in input order, followed by the files of the groups below the
    threshold: the base names of those groups in the order in which they
    first appear in the input, and under each base name its files in
    input order. The first block and the files of every group are
    subsequences of the input, and when no group is below the threshold
    the whole list is. *)
Theorem singles_order (cfg : UdimConfig) (texture_files : list string) :
  single_textures (detect_udim_sequences_with cfg texture_files)
  = filter (λ f, rejected cfg f = true) texture_files
    ++ (filter (λ b, below_threshold cfg texture_files b = true)
          (first_appearance (omap (base_of cfg) texture_files))
        ≫= files_with_base cfg texture_files)
  ∧ filter (λ f, rejected cfg f = true) texture_files `sublist_of` texture_files
  ∧ (∀ base_name,
       files_with_base cfg texture_files base_name `sublist_of` texture_files)
  ∧ (filter (λ b, below_threshold cfg texture_files b = true)
       (first_appearance (omap (base_of cfg) texture_files)) = [] →
       single_textures (detect_udim_sequences_with cfg texture_files)
       `sublist_of` texture_files).
Proof.
  split_and!.
  - rewrite detect_with_singles. f_equal. apply degraded_groups_paths.
  - apply sublist_filter.
  - intros base_name. apply sublist_filter.
  - intros Hnone.
    rewrite detect_with_singles, degraded_groups_paths, Hnone. simpl.
    rewrite app_nil_r. apply sublist_filter.
Qed.

Lemma singles_order_witness :
  single_textures (detect_udim_sequences_with UDIM_CONFIG
                     ["w.1002.jpg"; "x.png"; "w.1001.jpg"; "y.png"])
  `sublist_of` ["w.1002.jpg"; "x.png"; "w.1001.jpg"; "y.png"].
Proof.
  apply (singles_order UDIM_CONFIG ["w.1002.jpg"; "x.png"; "w.1001.jpg"; "y.png"]).
  reflexivity.
Defined.

(** Two groups below the threshold: [b] first appears before [a]. *)
Example singles_groups_order_ex :
  single_textures
    (detect_udim_sequences ["b.1001.jpg"; "x.png"; "a.1001.jpg"; "y.png"])
  = ["x.png"; "y.png"; "b.1001.jpg"; "a.1001.jpg"]
  ∧ first_appearance ["b"; "a"; "b"; "c"; "a"] = ["b"; "a"; "c"].
Proof. split; reflexivity. Qed.

(** C4, counterexample. Under the default configuration the tile number
    1500, although between 1001 and 1999, is out of range: the two tiles
    stay single textures. *)
Lemma default_range_counterexample :
  1001 ≤ 1500 ≤ 1999
  ∧ in_range UDIM_CONFIG 1500 = false
  ∧ detect_udim_sequences ["wall.1500.jpg"; "wall.1501.jpg"]
    = {| udim_sequences := [];
         single_textures := ["wall.1500.jpg"; "wall.1501.jpg"] |}.
Proof. split; [lia|]. split; reflexivity. Qed.

(** C4, amended. A file whose name matches the pattern with a tile
    number outside [range_start .. range_end] is in [single_textures];
    with a tile number inside, its tile is in the group of its base
    name. Under the default configuration the tile numbers in range are
    those from 1001 to 1100. *)
Theorem out_of_range_to_singles (cfg : UdimConfig) (texture_files : list string)
    (texture_file base_name : string) (udim_number : Z) (ext : string) :
  texture_file ∈ texture_files →
  Re.udim_match (pattern cfg) (PosixPath.basename texture_file)
    = Some (base_name, udim_number, ext) →
  (¬ (range_start cfg ≤ udim_number ≤ range_end cfg) →
     texture_file ∈ single_textures (detect_udim_sequences_with cfg texture_files))
  ∧ (range_start cfg ≤ udim_number ≤ range_end cfg →
       ∃ tiles,
         Dict.get (group_files cfg texture_files).1 base_name = Some tiles
         ∧ {| file := texture_file; udim := udim_number; extension := ext |} ∈ tiles)
  ∧ (∀ n, in_range UDIM_CONFIG n = true ↔ 1001 ≤ n ≤ 1100).
Proof.
  intros Hin Hm. split_and!; [| |intros n; unfold in_range; simpl; lia].
  - intros Hout. rewrite detect_with_singles. apply elem_of_app. left.
    apply list_elem_of_filter. split; [|done].
    unfold rejected, accept. rewrite Hm.
    assert (in_range cfg udim_number = false) as ->; [|done].
    unfold in_range. apply andb_false_iff.
    destruct (Z.leb_spec (range_start cfg) udim_number);
      destruct (Z.leb_spec udim_number (range_end cfg)); auto; lia.
  - intros [Hlo Hhi]. rewrite group_files_get.
    assert ({| file := texture_file; udim := udim_number; extension := ext |}
            ∈ tiles_of cfg base_name texture_files) as Ht.
    { apply list_elem_of_omap. exists texture_file. split; [done|].
      unfold tile_for, accept. rewrite Hm. unfold in_range.
      rewrite (proj2 (Z.leb_le _ _) Hlo), (proj2 (Z.leb_le _ _) Hhi). simpl.
      by rewrite String.eqb_refl. }
    destruct (tiles_of cfg base_name texture_files) eqn:E.
    + by apply elem_of_nil in Ht.
    + eauto.
Qed.

Lemma out_of_range_to_singles_witness :
  "t/wall.1101.jpg"
  ∈ single_textures (detect_udim_sequences_with UDIM_CONFIG
                       ["t/wall.1001.jpg"; "t/wall.1101.jpg"; "t/wall.1002.jpg"]).
Proof.
  apply (out_of_range_to_singles UDIM_CONFIG
           ["t/wall.1001.jpg"; "t/wall.1101.jpg"; "t/wall.1002.jpg"]
           "t/wall.1101.jpg" "wall" 1101 "jpg").
  - apply elem_of_cons. right. apply elem_of_cons. by left.
  - reflexivity.
  - simpl. lia.
Defined.

End detector_claims.

(** ** Strings *)

Section string_facts.

Implicit Types (s t : string) (c : ascii).

Lemma str_app_cons c s t : String c s +:+ t = String c (s +:+ t).
Proof. reflexivity. Qed.

Lemma str_app_nil_l t : "" +:+ t = t.
Proof. reflexivity. Qed.

Lemma str_app_assoc s1 s2 s3 : (s1 +:+ s2) +:+ s3 = s1 +:+ (s2 +:+ s3).
Proof. induction s1; rewrite ?str_app_cons, ?str_app_nil_l; congruence. Qed.

Lemma str_app_nil_r s : s +:+ "" = s.
Proof. induction s; rewrite ?str_app_cons, ?str_app_nil_l; congruence. Qed.

Lemma str_length_app s1 s2 :
  String.length (s1 +:+ s2) = (String.length s1 + String.length s2)%nat.
Proof.
  induction s1; rewrite ?str_app_cons, ?str_app_nil_l; simpl; congruence.
Qed.

Lemma has_char_app c s1 s2 :
  Str.has_char c (s1 +:+ s2) = Str.has_char c s1 || Str.has_char c s2.
Proof.
  induction s1 as [|d s1 IH]; rewrite ?str_app_cons, ?str_app_nil_l; simpl; [done|].
  by rewrite IH, orb_assoc.
Qed.

Lemma rsplit_after_concat c s :
  (Str.rsplit_after c s).1 +:+ (Str.rsplit_after c s).2 = s.
Proof.
  induction s as [|d s IH]; simpl; [done|].
  destruct (Str.rsplit_after c s) as [h t]. simpl in IH.
  destruct (Ascii.eqb d c); simpl; rewrite ?str_app_cons, ?str_app_nil_l;
    [by rewrite IH|].
  destruct h; simpl in *; rewrite ?str_app_cons, ?str_app_nil_l in *; by rewrite IH.
Qed.

Lemma rsplit_after_snd c s : Str.has_char c (Str.rsplit_after c s).2 = false.
Proof.
  induction s as [|d s IH]; simpl; [done|].
  destruct (Str.rsplit_after c s) as [h t] eqn:E. simpl in IH.
  destruct (Ascii.eqb d c) eqn:Ed; simpl; [done|].
  destruct h; simpl; [|done]. by rewrite Ed.
Qed.

Lemma rsplit_after_no_sep c s :
  Str.has_char c s = false → Str.rsplit_after c s = ("", s).
Proof.
  induction s as [|d s IH]; simpl; [done|].
  intros [Hd Hs]%orb_false_iff. by rewrite IH, Hd.
Qed.

Lemma rsplit_after_app c h t :
  Str.has_char c t = false →
  Str.rsplit_after c (h +:+ String c t) = (h +:+ String c "", t).
Proof.
  intros Ht. induction h as [|d h IH]; rewrite ?str_app_cons, ?str_app_nil_l; simpl.
  - rewrite rsplit_after_no_sep by done. by rewrite Ascii.eqb_refl.
  - rewrite IH. destruct (Ascii.eqb d c); [done|].
    by destruct h.
Qed.

Lemma has_char_substring c n m s :
  Str.has_char c s = false → Str.has_char c (String.substring n m s) = false.
Proof.
  revert n m. induction s as [|d s IH]; intros n m.
  - by destruct n, m.
  - simpl. intros [Hd Hs]%orb_false_iff.
    destruct n; [destruct m|]; simpl; auto.
    rewrite Hd. simpl. auto.
Qed.

Lemma has_char_drop_final_newline c s :
  Str.has_char c s = false → Str.has_char c (Re.drop_final_newline s) = false.
Proof.
  induction s as [|d s IH]; [done|].
  cbn [Re.drop_final_newline]. destruct s as [|e s].
  - destruct (Ascii.eqb d Re.newline); done.
  - cbn [Str.has_char] in *. intros [Hd Hs]%orb_false_iff.
    rewrite Hd. simpl. apply IH. done.
Qed.

Lemma basename_no_sep p : Str.has_char "/" (PosixPath.basename p) = false.
Proof. apply rsplit_after_snd. Qed.

Lemma udim_match_no_char c p filename base n ext :
  Str.has_char c filename = false →
  Re.udim_match p filename = Some (base, n, ext) →
  Str.has_char c base = false ∧ Str.has_char c ext = false.
Proof.
  intros Hc. unfold Re.udim_match.
  pose proof (has_char_drop_final_newline c _ Hc) as Hs.
  rewrite <- (rsplit_after_concat "." (Re.drop_final_newline filename)) in Hs.
  destruct (Str.rsplit_after "." _) as [pre e]. simpl in Hs.
  rewrite has_char_app in Hs. apply orb_false_iff in Hs as [Hpre He].
  destruct (Nat.ltb _ _); [done|].
  destruct (_ && _); [|done]. intros [= <- _ <-].
  split; [|done]. by apply has_char_substring.
Qed.

Lemma replace_char_same c s : Str.replace_char c c s = s.
Proof.
  induction s as [|d s IH]; simpl; [done|]. rewrite IH.
  by destruct (Ascii.eqb_spec d c) as [->|].
Qed.

Lemma prefix_app s t : String.prefix s (s +:+ t) = true.
Proof.
  induction s as [|c s IH]; rewrite ?str_app_cons, ?str_app_nil_l; simpl;
    [by destruct t|].
  destruct (ascii_dec c c); done.
Qed.

Lemma contains_prefix sub s : String.prefix sub s = true → Str.contains sub s = true.
Proof. intros H. destruct s; cbn [Str.contains]; rewrite H; done. Qed.

Lemma contains_app_r sub s1 s2 :
  Str.contains sub s2 = true → Str.contains sub (s1 +:+ s2) = true.
Proof.
  intros H. induction s1 as [|c s1 IH]; [done|].
  rewrite str_app_cons. cbn [Str.contains]. rewrite IH. apply orb_true_r.
Qed.

Lemma contains_middle sub s1 s2 : Str.contains sub (s1 +:+ sub +:+ s2) = true.
Proof. apply contains_app_r, contains_prefix, prefix_app. Qed.

End string_facts.

(** ** Substrings and the shape of a matching name *)

Section substring_facts.

Implicit Types (s t : string) (c : ascii).

Lemma substring_nil a n : String.substring a n "" = "".
Proof. by destruct a, n. Qed.

Lemma substring_split s a n m :
  String.substring a n s +:+ String.substring (a + n) m s
  = String.substring a (n + m) s.
Proof.
  revert a n. induction s as [|c s IH]; intros a n.
  - by rewrite !substring_nil.
  - destruct a as [|a]; simpl.
    + destruct n as [|n]; simpl; [by destruct m|].
      rewrite str_app_cons. f_equal. apply (IH 0%nat).
    + apply IH.
Qed.

Lemma substring_full s : String.substring 0 (String.length s) s = s.
Proof. induction s as [|c s IH]; simpl; congruence. Qed.

Lemma substring_length s a n :
  (a + n ≤ String.length s)%nat → String.length (String.substring a n s) = n.
Proof.
  revert a n. induction s as [|c s IH]; intros a n; simpl.
  - intros H. destruct a, n; simpl; lia.
  - intros H. destruct a as [|a]; simpl.
    + destruct n as [|n]; simpl; [done|]. f_equal. apply IH. simpl. lia.
    + apply IH. lia.
Qed.

Lemma substring_app_r s t m :
  String.substring (String.length s) m (s +:+ t) = String.substring 0 m t.
Proof. induction s as [|c s IH]; [done|]. rewrite str_app_cons. simpl. apply IH. Qed.

Lemma substring_one_char m : String.substring 0 (S m) "." = ".".
Proof. by destruct m. Qed.

Lemma rsplit_after_fst c s :
  (Str.rsplit_after c s).1 = "" ∨ ∃ q, (Str.rsplit_after c s).1 = q +:+ String c "".
Proof.
  induction s as [|d s IH]; simpl; [by left|].
  destruct (Str.rsplit_after c s) as [h t]. simpl in IH.
  destruct (Ascii.eqb_spec d c) as [->|Hne]; simpl.
  - right. destruct IH as [->|[q ->]]; [by exists ""|].
    exists (String c q). by rewrite str_app_cons.
  - destruct h as [|e h]; simpl; [by left|]. right.
    destruct IH as [IH|[q Hq]]; [done|].
    exists (String d q). by rewrite str_app_cons, <- Hq.
Qed.

Lemma string_length_one s :
  String.length s = 1%nat → ∃ c, s = String c "".
Proof. destruct s as [|c [|d s]]; [done| eauto | done]. Qed.

(** The shape of a matching file name: base, one separator, four
    digits, a dot and the extension, up to one final newline. *)
Lemma udim_match_shape p filename base n ext :
  Re.udim_match p filename = Some (base, n, ext) →
  ∃ sepc digits,
    Re.drop_final_newline filename = base +:+ String sepc digits +:+ "." +:+ ext
    ∧ String.length digits = 4%nat
    ∧ Str.all_chars Str.is_digit digits = true
    ∧ Str.has_char sepc (separators p) = true
    ∧ n = Str.int_of_digits 0 digits.
Proof.
  unfold Re.udim_match.
  pose proof (rsplit_after_concat "." (Re.drop_final_newline filename)) as Hcat.
  pose proof (rsplit_after_fst "." (Re.drop_final_newline filename)) as Hfst.
  destruct (Str.rsplit_after "." _) as [pre e]. simpl in Hcat, Hfst.
  destruct (Nat.ltb_spec (String.length pre) 7) as [|Hlen]; [done|].
  destruct (_ && _) eqn:Hchk; [|done]. intros [= <- <- <-].
  apply andb_true_iff in Hchk as [Hchk _].
  apply andb_true_iff in Hchk as [Hchk Hdigits].
  apply andb_true_iff in Hchk as [_ Hsep].
  set (k := String.length pre) in *.
  destruct (string_length_one (String.substring (k - 6) 1 pre)) as [sepc Hsepc].
  { apply substring_length. lia. }
  rewrite Hsepc in Hsep. simpl in Hsep. rewrite andb_true_r in Hsep.
  exists sepc, (String.substring (k - 5) 4 pre).
  split_and!; [|apply substring_length; lia|done|done|done].
  rewrite <- Hcat.
  destruct Hfst as [Hq|[q Hq]]; [unfold k in Hlen; rewrite Hq in Hlen; simpl in Hlen; lia|].
  assert (String.substring (k - 1) 1 pre = ".") as Hdot.
  { rewrite Hq. replace (k - 1)%nat with (String.length q).
    - by rewrite substring_app_r.
    - unfold k. rewrite Hq, str_length_app. simpl. lia. }
  rewrite <- (substring_full pre) at 1. fold k.
  replace k with ((k - 6) + (1 + (4 + 1)))%nat at 1 by lia.
  rewrite <- (substring_split pre 0), <- substring_split, <- substring_split.
  replace (0 + (k - 6) + 1)%nat with (k - 5)%nat by lia.
  replace (k - 5 + 4)%nat with (k - 1)%nat by lia.
  simpl (0 + _)%nat. rewrite Hsepc, Hdot.
  by rewrite !str_app_assoc.
Qed.

End substring_facts.

(** ** Paths *)

Section path_facts.
Import PathSpec.

Implicit Types (s t : string) (c : ascii).

Lemma endswith_char_inv c s :
  Str.endswith_char c s = true → ∃ q, s = q +:+ String c "".
Proof.
  induction s as [|d s IH]; [done|].
  cbn [Str.endswith_char]. destruct s as [|e s].
  - intros ->%Ascii.eqb_eq. by exists "".
  - intros [q Hq]%IH. exists (String d q). by rewrite str_app_cons, <- Hq.
Qed.

Lemma prefix_sep_no_sep s : Str.has_char "/" s = false → String.prefix "/" s = false.
Proof.
  destruct s as [|d s]; [done|]. cbn [String.prefix Str.has_char].
  intros [Hd _]%orb_false_iff. destruct (ascii_dec "/" d) as [<-|]; [|done].
  by rewrite Ascii.eqb_refl in Hd.
Qed.

Lemma dir_prefix_app p q : dir_prefix p → dir_prefix q → dir_prefix (p +:+ q).
Proof.
  intros Hp [->|[q' ->]].
  - by rewrite str_app_nil_r.
  - right. exists (p +:+ q'). by rewrite str_app_assoc.
Qed.

Lemma repeat_sep_prefix n : dir_prefix (PosixPath.repeat_sep n).
Proof.
  induction n as [|n IH]; [by left|]. right. simpl.
  destruct IH as [->|[q ->]].
  - by exists "".
  - exists (String PosixPath.sep q). by rewrite str_app_cons.
Qed.

Lemma join_shape a b :
  Str.has_char "/" b = false →
  ∃ p, PosixPath.join a b = p +:+ b ∧ dir_prefix p.
Proof.
  intros Hb. unfold PosixPath.join. rewrite prefix_sep_no_sep by done.
  destruct a as [|d a].
  - exists "". split; [done | by left].
  - cbn [Str.truthy negb orb].
    destruct (Str.endswith_char PosixPath.sep (String d a)) eqn:E.
    + exists (String d a). split; [done|]. right.
      by apply endswith_char_inv in E.
    + exists (String d a +:+ "/"). split.
      * by rewrite str_app_assoc.
      * right. by eexists.
Qed.

Lemma split_nonempty c s : Str.split c s ≠ [].
Proof.
  destruct s as [|d s]; simpl; [done|].
  destruct (Ascii.eqb d c); [done|]. by destruct (Str.split c s).
Qed.

Lemma split_app c a b :
  Str.split c (a +:+ String c b) = Str.split c a ++ Str.split c b.
Proof.
  induction a as [|d a IH]; rewrite ?str_app_cons, ?str_app_nil_l; simpl.
  - by rewrite Ascii.eqb_refl.
  - rewrite IH. destruct (Ascii.eqb d c); [done|].
    pose proof (split_nonempty c a). by destruct (Str.split c a).
Qed.

Lemma split_no_sep c s : Str.has_char c s = false → Str.split c s = [s].
Proof.
  induction s as [|d s IH]; simpl; [done|].
  intros [Hd Hs]%orb_false_iff. by rewrite Hd, IH.
Qed.

Lemma split_shape p b :
  dir_prefix p → Str.has_char "/" b = false →
  ∃ cs, Str.split "/" (p +:+ b) = cs ++ [b].
Proof.
  intros [->|[q ->]] Hb.
  - exists []. by apply split_no_sep.
  - exists (Str.split "/" q). rewrite str_app_assoc, str_app_cons, str_app_nil_l.
    by rewrite split_app, (split_no_sep _ b).
Qed.

Lemma join_snoc xs y :
  ∃ p, Str.join "/" (xs ++ [y]) = p +:+ y ∧ dir_prefix p.
Proof.
  induction xs as [|x xs IH]; simpl.
  - exists "". split; [done | by left].
  - destruct IH as (p & Hp & Hd). rewrite Hp.
    destruct (xs ++ [y]) eqn:E; [by destruct xs|].
    exists (x +:+ "/" +:+ p). split.
    + by rewrite !str_app_assoc.
    + rewrite <- str_app_assoc. apply dir_prefix_app; [|done].
      right. by eexists.
Qed.

Lemma norm_step_keep k acc comp :
  comp ≠ "" → comp ≠ "." → comp ≠ ".." →
  PosixPath.norm_step k acc comp = comp :: acc.
Proof.
  intros H1 H2 H3. unfold PosixPath.norm_step.
  apply String.eqb_neq in H1, H2, H3. by rewrite H1, H2, H3.
Qed.

Lemma normpath_shape p b :
  dir_prefix p → Str.has_char "/" b = false →
  b ≠ "" → b ≠ "." → b ≠ ".." →
  ∃ p', PosixPath.normpath (p +:+ b) = p' +:+ b ∧ dir_prefix p'.
Proof.
  intros Hp Hb H1 H2 H3. unfold PosixPath.normpath.
  destruct (p +:+ b) as [|d path] eqn:Epath.
  { destruct p; [|done]. by rewrite str_app_nil_l in Epath. }
  rewrite <- Epath.
  set (k := if String.prefix "/" (p +:+ b) then _ else _).
  change PosixPath.sep with "/"%char.
  destruct (split_shape p b Hp Hb) as [cs ->].
  rewrite fold_left_app. simpl. rewrite norm_step_keep by done.
  simpl.
  destruct (join_snoc (rev (fold_left (PosixPath.norm_step k) cs [])) b)
    as (q & -> & Hq).
  exists (PosixPath.repeat_sep k +:+ q). split.
  - rewrite <- str_app_assoc.
    destruct ((PosixPath.repeat_sep k +:+ q) +:+ b) eqn:E; [|done].
    destruct (PosixPath.repeat_sep k +:+ q); [|done].
    by rewrite str_app_nil_l in E.
  - apply dir_prefix_app; [apply repeat_sep_prefix | done].
Qed.

Lemma basename_shape p b :
  dir_prefix p → Str.has_char "/" b = false → PosixPath.basename (p +:+ b) = b.
Proof.
  intros [->|[q ->]] Hb; unfold PosixPath.basename.
  - by rewrite str_app_nil_l, rsplit_after_no_sep.
  - rewrite str_app_assoc, str_app_cons, str_app_nil_l.
    by rewrite rsplit_after_app.
Qed.

End path_facts.

(** ** The pattern path *)

Section pattern_claims.
Import UdimUtils DetectorSpec PathSpec.

Lemma tile_for_inv cfg base f t :
  tile_for cfg base f = Some t →
  ∃ n, Re.udim_match (pattern cfg) (PosixPath.basename f)
       = Some (base, n, extension t)
       ∧ file t = f ∧ udim t = n ∧ in_range cfg n = true.
Proof.
  unfold tile_for, accept.
  destruct (Re.udim_match _ _) as [[[b n] e]|]; [|done].
  destruct (in_range cfg n) eqn:Hr; [|done].
  destruct (String.eqb_spec b base) as [->|]; [|done].
  intros [= <-]. eauto.
Qed.

Lemma udim_pattern_path_shape cfg base first_tile :
  Str.has_char "/" base = false →
  Str.has_char "/" (extension first_tile) = false →
  Str.has_char "/" (placeholder cfg) = false →
  placeholder cfg ≠ "" →
  ∃ p, udim_pattern_path cfg base first_tile
       = p +:+ (base +:+ "." +:+ placeholder cfg +:+ "." +:+ extension first_tile)
       ∧ dir_prefix p.
Proof.
  intros Hb He Hp Hne. unfold udim_pattern_path.
  unfold PosixPath.sep at 1. rewrite replace_char_same.
  set (fname := base +:+ "." +:+ placeholder cfg +:+ "." +:+ extension first_tile).
  assert (Str.has_char "/" fname = false) as Hf.
  { unfold fname. rewrite !has_char_app, Hb, He, Hp. done. }
  assert (3 ≤ String.length fname)%nat as Hlen.
  { unfold fname. rewrite !str_length_app. simpl.
    destruct (placeholder cfg); [done|]. simpl. lia. }
  destruct (join_shape (PosixPath.dirname (file first_tile)) fname Hf)
    as (p & -> & Hd).
  apply normpath_shape; try done.
  all: intros E; rewrite E in Hlen; simpl in Hlen; lia.
Qed.

(** C8. The pattern path of every emitted sequence ends in the component
    [<base_name>.<UDIM>.<extension>], where a tile of the group is named
    [<base_name><separator><four digits>.<extension>]: the place of the
    tile number holds the placeholder, which has no digit, and the path
    contains the placeholder. *)
Theorem pattern_path_placeholder (texture_files : list string)
    (base_name : string) (info : UdimInfo) :
  Dict.get (udim_sequences (detect_udim_sequences texture_files)) base_name
    = Some info →
  ∃ tiles first_tile sepc digits,
    Dict.get (group_files UDIM_CONFIG texture_files).1 base_name = Some tiles
    ∧ first_tile ∈ tiles
    ∧ Re.drop_final_newline (PosixPath.basename (file first_tile))
      = base_name +:+ String sepc digits +:+ "." +:+ extension first_tile
    ∧ String.length digits = 4%nat
    ∧ Str.all_chars Str.is_digit digits = true
    ∧ PosixPath.basename (info_pattern info)
      = base_name +:+ "." +:+ "<UDIM>" +:+ "." +:+ extension first_tile
    ∧ Str.contains "<UDIM>" (info_pattern info) = true
    ∧ Str.all_chars (λ c, negb (Str.is_digit c)) "<UDIM>" = true.
Proof.
  unfold detect_udim_sequences. rewrite detect_with_get.
  destruct (Dict.get _ base_name) as [tiles|] eqn:Hget; [|done].
  destruct (degraded _ _); [done|].
  destruct (sort_tiles tiles) as [|t0 ts] eqn:Hs; [done|].
  intros [= <-].
  assert (t0 ∈ tiles) as Hin.
  { rewrite <- (sort_tiles_perm tiles), Hs. apply elem_of_cons. by left. }
  pose proof Hget as Hget'. rewrite group_files_get in Hget'.
  destruct (tiles_of UDIM_CONFIG base_name texture_files) eqn:E; [done|].
  injection Hget' as <-. pose proof Hin as Hin'. rewrite <- E in Hin'.
  apply list_elem_of_omap in Hin' as (f & _ & Hf).
  apply tile_for_inv in Hf as (n & Hm & Hfile & _).
  destruct (udim_match_shape _ _ _ _ _ Hm) as (sepc & digits & Hshape & Hlen & Hdig & _).
  apply (udim_match_no_char "/") in Hm as [Hb He]; [|apply basename_no_sep].
  destruct (udim_pattern_path_shape UDIM_CONFIG base_name t0 Hb He)
    as (p & Hp & Hd); [done|done|].
  exists (t :: l), t0, sepc, digits.
  split_and!; [done|done|by rewrite Hfile|done|done| | |done].
  all: unfold info_of; cbn [info_pattern]; rewrite Hp.
  - by apply basename_shape; [|rewrite !has_char_app, Hb, He].
  - cbn [placeholder UDIM_CONFIG].
    replace (p +:+ base_name +:+ "." +:+ "<UDIM>" +:+ "." +:+ extension t0)
      with ((p +:+ base_name +:+ ".") +:+ "<UDIM>" +:+ "." +:+ extension t0)
      by (by rewrite !str_app_assoc).
    apply contains_middle.
Qed.

Lemma pattern_path_placeholder_witness :
  ∃ tiles first_tile sepc digits,
    Dict.get (group_files UDIM_CONFIG
                ["/p/t/wall_d.1002.png"; "/p/t/wall_d.1001.png"]).1 "wall_d"
      = Some tiles
    ∧ first_tile ∈ tiles
    ∧ Re.drop_final_newline (PosixPath.basename (file first_tile))
      = "wall_d" +:+ String sepc digits +:+ "." +:+ extension first_tile
    ∧ String.length digits = 4%nat
    ∧ Str.all_chars Str.is_digit digits = true
    ∧ PosixPath.basename "/p/t/wall_d.<UDIM>.png"
      = "wall_d" +:+ "." +:+ "<UDIM>" +:+ "." +:+ extension first_tile
    ∧ Str.contains "<UDIM>" "/p/t/wall_d.<UDIM>.png" = true
    ∧ Str.all_chars (λ c, negb (Str.is_digit c)) "<UDIM>" = true.
Proof.
  apply (pattern_path_placeholder
           ["/p/t/wall_d.1002.png"; "/p/t/wall_d.1001.png"] "wall_d"
           {| info_pattern := "/p/t/wall_d.<UDIM>.png";
              info_tiles := [1001; 1002];
              info_files := ["/p/t/wall_d.1001.png"; "/p/t/wall_d.1002.png"];
              tile_count := 2 |}).
  reflexivity.
Defined.

End pattern_claims.

(** ** Growth of the result dictionary *)

Section scan_facts.
Context {A B : Type} (R : relation A) `{!PreOrder R}.
Variable f : A → B → A.
Hypothesis f_incr : ∀ a x, R a (f a x).

Lemma scan_left_last l a : last (Search.scan_left f l a) = Some (fold_left f l a).
Proof.
  revert a. induction l as [|x l IH]; intros a; [done|].
  cbn [Search.scan_left fold_left]. rewrite <- IH.
  by destruct l.
Qed.

Lemma fold_left_incr l a : R a (fold_left f l a).
Proof.
  revert a. induction l as [|x l IH]; intros a; simpl; [done|].
  by trans (f a x).
Qed.

Lemma scan_left_lower l a : Forall (R a) (Search.scan_left f l a).
Proof.
  revert a. induction l as [|x l IH]; intros a; simpl.
  - by repeat constructor.
  - constructor; [done|]. eapply Forall_impl; [apply IH|].
    intros s Hs. by trans (f a x).
Qed.

Lemma scan_left_upper l a :
  Forall (λ s, R s (fold_left f l a)) (Search.scan_left f l a).
Proof.
  revert a. induction l as [|x l IH]; intros a; simpl.
  - by repeat constructor.
  - constructor; [|apply IH]. trans (f a x); [done | apply fold_left_incr].
Qed.

Lemma scan_left_sorted l a : StronglySorted R (Search.scan_left f l a).
Proof.
  revert a. induction l as [|x l IH]; intros a; simpl.
  - by repeat constructor.
  - constructor; [apply IH|]. eapply Forall_impl; [apply scan_left_lower|].
    intros s Hs. by trans (f a x).
Qed.

End scan_facts.

Section search_facts.
Import Search.

Implicit Types (found : gmap string string).

Lemma assigned_false found texture_type :
  assigned found texture_type = false → found !! texture_type = None.
Proof.
  unfold assigned. intros H%bool_decide_eq_false.
  by apply eq_None_not_Some.
Qed.

Lemma assign_found_incr bases matches type_found path found :
  found ⊆ assign_found bases matches type_found path found.
Proof.
  unfold assign_found. destruct type_found as [ty|]; [|done].
  destruct (assigned found ty) eqn:E; simpl.
  - by rewrite andb_false_r.
  - destruct (Str.truthy ty); simpl; [|done].
    destruct (_ || _); [|done].
    by apply insert_subseteq, assigned_false.
Qed.

Lemma aggressive_assign_incr table name path found :
  found ⊆ aggressive_assign table name path found.
Proof.
  induction table as [|[ty kws] table IH]; simpl; [done|].
  destruct (assigned found ty) eqn:E; [done|].
  destruct (any_keyword_in kws name); [|done].
  by apply insert_subseteq, assigned_false.
Qed.

(** The shape shared by the state lists of both classifiers. *)
Lemma states_sorted {C} (primary aggressive : gmap string string → C → gmap string string)
    (candidates : list C) (final : gmap string string) :
  (∀ a x, a ⊆ primary a x) →
  (∀ a x, a ⊆ aggressive a x) →
  let after := fold_left primary candidates ∅ in
  (if bool_decide (after = ∅)
   then fold_left aggressive candidates after else after) ⊆ final →
  StronglySorted (⊆)
    (scan_left primary candidates ∅
     ++ (if bool_decide (after = ∅)
         then scan_left aggressive candidates after else [])
     ++ [final]).
Proof.
  intros Hp Ha after Hfinal.
  pose proof (scan_left_upper (⊆) primary Hp candidates ∅) as Hup.
  rewrite Forall_forall in Hup. fold after in Hup.
  apply StronglySorted_app. split_and!.
  - intros s1 s2 Hs1%Hup Hs2. trans after; [done|]. clear s1 Hs1.
    case_bool_decide as Hempty.
    + apply elem_of_app in Hs2 as [Hs2|Hs2].
      2: { apply list_elem_of_singleton in Hs2 as ->.
           etrans; [|exact Hfinal]. apply (fold_left_incr (⊆) aggressive Ha). }
      * pose proof (scan_left_lower (⊆) aggressive Ha candidates after) as Hlo.
        rewrite Forall_forall in Hlo. by apply Hlo.
    + by apply list_elem_of_singleton in Hs2 as ->.
  - apply (scan_left_sorted (⊆) primary Hp).
  - apply StronglySorted_app. split_and!.
    + intros s1 s2 Hs1 ->%list_elem_of_singleton.
      case_bool_decide as Hempty; [|by apply elem_of_nil in Hs1].
      pose proof (scan_left_upper (⊆) aggressive Ha candidates after) as Hup2.
      rewrite Forall_forall in Hup2. etrans; [by apply Hup2|done].
    + case_bool_decide; [apply (scan_left_sorted (⊆) aggressive Ha) | constructor].
    + repeat constructor.
Qed.

End search_facts.

(** ** The classifier: assigned types and the keyword table *)

Section classifier_claims.
Import Search MaterialUtils.

Implicit Types (found : gmap string string).

Lemma sorted_below_last {A} (R : relation A) `{!Reflexive R} (l : list A) (x : A) :
  StronglySorted R l → last l = Some x → ∀ s, s ∈ l → R s x.
Proof.
  induction 1 as [|a l Hl IH Hall]; intros Hlast s Hs.
  - by apply elem_of_nil in Hs.
  - destruct l as [|b l].
    + injection Hlast as <-. by apply list_elem_of_singleton in Hs as ->.
    + apply elem_of_cons in Hs as [->|Hs]; [|by apply IH].
      rewrite Forall_forall in Hall. apply Hall.
      change (last (b :: l) = Some x) in Hlast.
      rewrite last_lookup in Hlast. by eapply list_elem_of_lookup_2.
Qed.

Lemma udim_search_states_sorted table bases candidates :
  StronglySorted (⊆) (UdimSearch.search_states table bases candidates).
Proof.
  unfold UdimSearch.search_states. apply states_sorted.
  - intros a x. apply assign_found_incr.
  - intros a x. apply aggressive_assign_incr.
  - unfold UdimSearch.search, UdimSearch.aggressive_pass, UdimSearch.fallback.
    set (after := fold_left _ candidates ∅).
    set (agg := if bool_decide (after = ∅) then _ else _).
    destruct candidates; [done|]. case_bool_decide as E; [|done].
    rewrite E. apply map_empty_subseteq.
Qed.

Lemma standard_search_states_sorted table bases texture_files :
  StronglySorted (⊆) (search_states table bases texture_files).
Proof.
  unfold search_states. apply states_sorted.
  - intros a x. unfold primary_step.
    destruct (best_keyword _ _ _) as [[ty k] prio]. apply assign_found_incr.
  - intros a x. apply aggressive_assign_incr.
  - unfold search, aggressive_pass, fallback.
    set (after := fold_left _ texture_files ∅).
    set (agg := if bool_decide (after = ∅) then _ else _).
    destruct texture_files; [done|]. case_bool_decide as E; [|done].
    rewrite E. apply map_empty_subseteq.
Qed.

Lemma states_last {A} (l1 l2 : list A) (x : A) : last (l1 ++ l2 ++ [x]) = Some x.
Proof. by rewrite app_assoc, last_snoc. Qed.

Lemma find_matching_textures_states_spec material_name texture_files
    texture_keywords model_basename :
  ∃ found,
    find_matching_textures material_name texture_files texture_keywords model_basename
      = Returned found
    ∧ last (find_matching_textures_states material_name texture_files
              texture_keywords model_basename) = Some found
    ∧ StronglySorted (⊆)
        (find_matching_textures_states material_name texture_files
           texture_keywords model_basename).
Proof.
  unfold find_matching_textures, find_matching_textures_states.
  set (table := match texture_keywords with Some t => t | None => _ end).
  destruct (negb _ || _) eqn:Hguard.
  { exists ∅. split_and!; [done|done|]. repeat constructor. }
  destruct (uses_udim_search texture_files).
  - eexists. split; [done|].
    unfold UdimSearch.find_matching_textures_with_udim,
      UdimSearch.find_matching_textures_with_udim_states.
    rewrite Hguard. split.
    + apply states_last.
    + apply udim_search_states_sorted.
  - eexists. split; [done|].
    unfold _find_matching_textures_standard, _find_matching_textures_standard_states.
    destruct texture_files as [|f1 [|f2 fs]].
    + split; [done|]. repeat constructor.
    + split; [done|]. repeat constructor. apply map_empty_subseteq.
    + split; [apply states_last | apply standard_search_states_sorted].
Qed.

(** C9. The values [found_textures] takes during a call, one after each
    pass over a candidate, only grow: every binding of an earlier value
    is a binding of every later one, and the returned dictionary is the
    last value. A type that has received a path keeps that path in the
    result. *)
Theorem assigned_channels_kept (material_name : string) (texture_files : list string)
    (texture_keywords : option (Dict.t (list string))) (model_basename : string) :
  ∃ found,
    find_matching_textures material_name texture_files texture_keywords model_basename
      = Returned found
    ∧ last (find_matching_textures_states material_name texture_files
              texture_keywords model_basename) = Some found
    ∧ StronglySorted (⊆)
        (find_matching_textures_states material_name texture_files
           texture_keywords model_basename)
    ∧ ∀ state texture_type path,
        state ∈ find_matching_textures_states material_name texture_files
                  texture_keywords model_basename →
        state !! texture_type = Some path →
        found !! texture_type = Some path.
Proof.
  destruct (find_matching_textures_states_spec material_name texture_files
              texture_keywords model_basename) as (found & Hret & Hlast & Hsorted).
  exists found. split_and!; [done..|].
  intros state ty path Hin Hlook.
  eapply lookup_weaken; [exact Hlook|].
  by eapply (sorted_below_last (⊆)).
Qed.

Lemma assigned_channels_kept_witness :
  ∃ found,
    find_matching_textures "crate"
      ["crate_diff.jpg"; "crate_normal.jpg"; "crate_color.jpg"] None ""
      = Returned found
    ∧ found !! "BaseMap" = Some "crate_diff.jpg".
Proof.
  destruct (assigned_channels_kept "crate"
              ["crate_diff.jpg"; "crate_normal.jpg"; "crate_color.jpg"] None "")
    as (found & Hret & _ & _ & Hkeep).
  exists found. split; [exact Hret|].
  apply (Hkeep {["BaseMap" := "crate_diff.jpg"]}).
  - vm_compute. right. left.
  - reflexivity.
Defined.

(** C2, counterexample. A call without a keyword table returns a
    result; it does not raise. *)
Lemma none_table_counterexample :
  find_matching_textures "crate" ["crate_diff.jpg"; "crate_normal.jpg"] None ""
  = Returned (<["BaseMap" := "crate_diff.jpg"]>
                (<["Normal" := "crate_normal.jpg"]> ∅))
  ∧ find_matching_textures "crate" ["crate_diff.jpg"; "crate_normal.jpg"] None ""
    ≠ Raised InvalidArgument.
Proof. split; [vm_compute; reflexivity | discriminate]. Qed.

(** C2, amended. With [None] for the keyword table the call proceeds
    with [ENHANCED_TEXTURE_KEYWORDS]: it returns what it returns for
    that table, and never raises. *)
Theorem none_table_uses_default (material_name : string)
    (texture_files : list string) (model_basename : string) :
  find_matching_textures material_name texture_files None model_basename
  = find_matching_textures material_name texture_files
      (Some ENHANCED_TEXTURE_KEYWORDS) model_basename
  ∧ ∃ found,
      find_matching_textures material_name texture_files None model_basename
      = Returned found.
Proof.
  split; [reflexivity|].
  destruct (find_matching_textures_states_spec material_name texture_files
              None model_basename) as (found & Hret & _). eauto.
Qed.

End classifier_claims.

(** ** The longest keyword in the standard search *)

Section longest_keyword.
Import Search MaterialUtils ClassifierSpec.

Variable texture_basename : string.

Lemma type_step_pairs found best entry :
  type_step found texture_basename best entry
  = fold_left (pair_step texture_basename)
      (if assigned found entry.1 then []
       else (λ keyword, (entry.1, keyword)) <$> entry.2) best.
Proof.
  destruct entry as [ty kws]. unfold type_step. simpl.
  destruct (assigned found ty); [done|].
  revert best. induction kws as [|k kws IH]; intros best; [done|].
  simpl. by rewrite IH.
Qed.

Lemma best_keyword_pairs table found :
  best_keyword table found texture_basename
  = fold_left (pair_step texture_basename) (visited_pairs table found) no_best.
Proof.
  unfold best_keyword, visited_pairs. generalize no_best.
  induction table as [|entry table IH]; intros best; [done|].
  cbn [fold_left mbind list_bind]. rewrite fold_left_app, <- type_step_pairs.
  apply IH.
Qed.

Lemma pair_step_best seen best pair :
  best_of texture_basename seen best →
  best_of texture_basename (seen ++ [pair]) (pair_step texture_basename best pair).
Proof.
  destruct best as [[o k] prio]. destruct pair as [ty kw].
  unfold best_of, pair_step, keyword_step. simpl. intros [Hmax Hbest].
  destruct (Str.contains kw texture_basename) eqn:Hc.
  - destruct (Z.ltb_spec prio (Str.len kw)) as [Hlt|Hge].
    + split.
      * intros p [Hp|Hp]%elem_of_app Hpc.
        -- specialize (Hmax p Hp Hpc). lia.
        -- apply list_elem_of_singleton in Hp as ->. simpl. lia.
      * split_and!; [set_solver|done|done].
    + split.
      * intros p [Hp|Hp]%elem_of_app Hpc; [by apply Hmax|].
        apply list_elem_of_singleton in Hp as ->. done.
      * destruct o; [|done]. destruct Hbest as (?&?&?). split_and!; [set_solver|done..].
  - split.
    + intros p [Hp|Hp]%elem_of_app Hpc; [by apply Hmax|].
      apply list_elem_of_singleton in Hp as ->. simpl in Hpc. congruence.
    + destruct o; [|done]. destruct Hbest as (?&?&?). split_and!; [set_solver|done..].
Qed.

Lemma fold_pairs_best pairs seen best :
  best_of texture_basename seen best →
  best_of texture_basename (seen ++ pairs)
    (fold_left (pair_step texture_basename) pairs best).
Proof.
  revert seen best. induction pairs as [|p pairs IH]; intros seen best H.
  - by rewrite app_nil_r.
  - cbn [fold_left]. rewrite (cons_middle p seen pairs), app_assoc.
    apply IH. by apply pair_step_best.
Qed.

Lemma elem_of_visited_pairs table found ty kw :
  (ty, kw) ∈ visited_pairs table found
  ↔ ∃ kws, (ty, kws) ∈ table ∧ kw ∈ kws ∧ assigned found ty = false.
Proof.
  unfold visited_pairs. rewrite list_elem_of_bind. split.
  - intros ([ty' kws] & Hin & Ht). simpl in Hin.
    destruct (assigned found ty') eqn:E; [by apply elem_of_nil in Hin|].
    apply list_elem_of_fmap in Hin as (k & [= -> ->] & Hk). eauto.
  - intros (kws & Ht & Hk & Ha). exists (ty, kws). split; [|done].
    simpl. rewrite Ha. apply list_elem_of_fmap. eauto.
Qed.

(** The standard search classifies by the longest keyword: the keyword
    loops end with a keyword of an unassigned type that occurs in the
    name and is at least as long as every other such keyword. *)
Lemma best_keyword_longest table found texture_type keyword priority :
  best_keyword table found texture_basename = (Some texture_type, keyword, priority) →
  priority = Str.len keyword
  ∧ Str.contains keyword texture_basename = true
  ∧ (∃ keywords, (texture_type, keywords) ∈ table ∧ keyword ∈ keywords
                 ∧ assigned found texture_type = false)
  ∧ ∀ other_type keywords other,
      (other_type, keywords) ∈ table → assigned found other_type = false →
      other ∈ keywords → Str.contains other texture_basename = true →
      Str.len other ≤ Str.len keyword.
Proof.
  intros Hbest.
  pose proof (fold_pairs_best (visited_pairs table found) [] no_best) as H.
  rewrite <- best_keyword_pairs, Hbest in H. simpl in H.
  destruct H as (Hmax & Hin & Hc & Hp).
  { split; [|done]. intros p Hp. by apply elem_of_nil in Hp. }
  split_and!; [done|done|by apply elem_of_visited_pairs|].
  intros ty' kws' k' Ht Ha Hk Hck. rewrite <- Hp.
  apply (Hmax (ty', k')); [|done].
  apply elem_of_visited_pairs. eauto.
Qed.

End longest_keyword.

(** ** The classifier on concrete calls *)

Section classifier_cases.
Import Search MaterialUtils ClassifierSpec.

Lemma one_file_standard texture_file : uses_udim_search [texture_file] = false.
Proof.
  unfold uses_udim_search, potential_udim_count. simpl.
  destruct (bool_decide _); reflexivity.
Qed.

(** C3, counterexample. With an empty material name the single file is
    not assigned; and two tiles that collapse to one UDIM candidate are
    classified by keyword, here as [Normal], not as [BaseMap]. *)
Lemma single_candidate_counterexample :
  find_matching_textures "" ["tex/only_one.jpg"] None "" = Returned ∅
  ∧ length (UdimSearch.all_texture_candidates
              (UdimUtils.detect_udim_sequences
                 ["tex/wall_normal.1001.jpg"; "tex/wall_normal.1002.jpg"])) = 1%nat
  ∧ find_matching_textures "wall"
      ["tex/wall_normal.1001.jpg"; "tex/wall_normal.1002.jpg"] None ""
    = Returned {["Normal" := "tex/wall_normal.<UDIM>.jpg"]}.
Proof. split_and!; [reflexivity | reflexivity | vm_compute; reflexivity]. Qed.

(** C3, amended. The call returns the empty dictionary for an empty
    file list and for an empty material name; for a non-empty material
    name and a list of exactly one file it returns that file as
    [BaseMap], whatever the file is called. *)
Theorem single_file_is_basemap :
  (∀ material_name texture_keywords model_basename,
     find_matching_textures material_name [] texture_keywords model_basename
     = Returned ∅)
  ∧ (∀ texture_files texture_keywords model_basename,
       find_matching_textures "" texture_files texture_keywords model_basename
       = Returned ∅)
  ∧ (∀ material_name texture_file texture_keywords model_basename,
       material_name ≠ "" →
       find_matching_textures material_name [texture_file] texture_keywords
         model_basename
       = Returned {["BaseMap" := texture_file]}).
Proof.
  split_and!.
  - intros m kw mb. unfold find_matching_textures.
    by rewrite orb_true_r.
  - done.
  - intros m f kw mb Hm. unfold find_matching_textures.
    destruct m as [|c m]; [done|]. cbn [Str.truthy negb orb].
    rewrite bool_decide_eq_false_2 by done.
    by rewrite one_file_standard.
Qed.

Lemma single_file_is_basemap_witness :
  find_matching_textures "wood_01" ["tex/only_one.jpg"] None ""
  = Returned {["BaseMap" := "tex/only_one.jpg"]}.
Proof.
  apply (proj2 (proj2 single_file_is_basemap) "wood_01" "tex/only_one.jpg" None "").
  discriminate.
Defined.

(** C1. The file [metal_specular.jpg] next to two UDIM tiles is
    classified by the UDIM search, which takes the first type with a
    keyword in the name: [Metallic]. Without the tiles the standard
    search classifies the same file under the longer keyword:
    [Specular]. The same happens with the built-in keyword table. *)
Theorem udim_search_first_keyword_wins :
  uses_udim_search
    ["tex/metal_specular.jpg"; "tex/wall.1001.jpg"; "tex/wall.1002.jpg"] = true
  ∧ find_matching_textures "metal"
      ["tex/metal_specular.jpg"; "tex/wall.1001.jpg"; "tex/wall.1002.jpg"]
      (Some metal_specular_table) ""
    = Returned {["Metallic" := "tex/metal_specular.jpg"]}
  ∧ find_matching_textures "metal"
      ["tex/metal_specular.jpg"; "tex/wall.jpg"]
      (Some metal_specular_table) ""
    = Returned {["Specular" := "tex/metal_specular.jpg"]}
  ∧ find_matching_textures "metal"
      ["tex/metal_specular.jpg"; "tex/wall.1001.jpg"; "tex/wall.1002.jpg"] None ""
    = Returned {["Metallic" := "tex/metal_specular.jpg"]}
  ∧ find_matching_textures "metal"
      ["tex/metal_specular.jpg"; "tex/wall.jpg"] None ""
    = Returned {["Specular" := "tex/metal_specular.jpg"]}.
Proof. split_and!; [reflexivity | vm_compute; reflexivity..]. Qed.

(** C5. A dash before the tile number is not recognised by
    [detect_udim_sequences], which tries the main pattern only: the two
    tiles stay single textures, although [extract_udim_info] and
    [is_udim_filename] accept the same names through the third
    alternative pattern. *)
Theorem dash_separator_not_detected :
  UdimUtils.detect_udim_sequences ["tex/wall-1001.jpg"; "tex/wall-1002.jpg"]
  = {| UdimUtils.udim_sequences := [];
       UdimUtils.single_textures := ["tex/wall-1001.jpg"; "tex/wall-1002.jpg"] |}
  ∧ Re.udim_match (pattern UDIM_CONFIG) "wall-1001.jpg" = None
  ∧ Constants.extract_udim_info UDIM_CONFIG "wall-1001.jpg"
    = Some ("wall", 1001, "jpg")
  ∧ Constants.is_udim_filename UDIM_CONFIG "wall-1001.jpg" = true.
Proof. split_and!; reflexivity. Qed.

End classifier_cases.

(** ** The further functions on concrete inputs *)

Example clean_node_name_ex :
  Utils.clean_node_name "9lives model.fbx" = "n_9lives_model_fbx".
Proof. reflexivity. Qed.

(** The prefix for a leading digit is decided before the underscores are
    stripped: a name can still begin with a digit. *)
Example clean_node_name_digit_ex : Utils.clean_node_name "_1a" = "1a".
Proof. reflexivity. Qed.

Example clean_node_name_digits_ex : Utils.clean_node_name "_____12___" = "node_12".
Proof. reflexivity. Qed.

Example clean_node_name_short_ex : Utils.clean_node_name "a__" = "default_node".
Proof. reflexivity. Qed.

Example extract_udim_info_dash_ex :
  ConstantsMore.extract_udim_info_full UDIM_CONFIG "wall-1001.jpg"
  = Some ("wall", 1001, "jpg", ConstantsMore.alternative 2).
Proof. reflexivity. Qed.

(** A final newline passes the [$] of the pattern and not [endswith]. *)
Example newline_name_ex :
  Constants.is_udim_filename UDIM_CONFIG ("a.1001.JPG" +:+ String Re.newline "") = true
  ∧ ConstantsMore.is_supported_texture_format ("a.1001.JPG" +:+ String Re.newline "")
    = false.
Proof. by vm_compute. Qed.

Example validate_same_tile_ex :
  UdimHelpers.validate_udim_sequence ["a/w.1001.jpg"; "b/w.1001.jpg"] = false.
Proof. reflexivity. Qed.

Example create_udim_pattern_path_ex :
  UdimHelpers.create_udim_pattern_path "tex/wall_1001.png" = "tex/wall.<UDIM>.png".
Proof. reflexivity. Qed.

Example get_udim_statistics_ex :
  UdimHelpers.get_udim_statistics
    ["t/w.1001.jpg"; "t/w.1002.jpg"; "t/lone.1001.png"; "t/c.jpg"]
  = {| UdimHelpers.stat_udim_sequences := 1; UdimHelpers.stat_udim_tiles := 2;
       UdimHelpers.stat_single_textures := 2; UdimHelpers.stat_total_files := 4 |}.
Proof. reflexivity. Qed.

(** With exactly one tile name among the files the wrapper runs the UDIM
    search and the entry point the standard search. *)
Example wrapper_differs_ex :
  UdimHelpers.enhanced_find_matching_textures "wall"
    ["t/wall_metal_specular.1001.jpg"; "t/wall_normal.jpg"]
    MaterialUtils.ENHANCED_TEXTURE_KEYWORDS ""
  = Returned (<["Metallic" := "t/wall_metal_specular.1001.jpg"]>
               (<["Normal" := "t/wall_normal.jpg"]> ∅))
  ∧ MaterialUtils.find_matching_textures "wall"
      ["t/wall_metal_specular.1001.jpg"; "t/wall_normal.jpg"]
      (Some MaterialUtils.ENHANCED_TEXTURE_KEYWORDS) ""
    = Returned (<["Specular" := "t/wall_metal_specular.1001.jpg"]>
                 (<["Normal" := "t/wall_normal.jpg"]> ∅)).
Proof. by vm_compute. Qed.

(** ** The detector: well-formed sequences *)

Section detector_extras.
Import UdimUtils DetectorSpec.

Variable cfg : UdimConfig.

Local Arguments group_step : simpl never.
Local Arguments promote_step : simpl never.

Lemma insert_tile_sorted t l :
  StronglySorted (λ a b, udim a ≤ udim b) l →
  StronglySorted (λ a b, udim a ≤ udim b) (insert_tile t l).
Proof.
  induction 1 as [|x l Hl IH Hx]; simpl.
  - repeat constructor.
  - destruct (Z.leb_spec (udim t) (udim x)) as [Hle|Hgt].
    + constructor; [by constructor|]. constructor; [done|].
      eapply Forall_impl; [exact Hx|]. simpl. intros. lia.
    + constructor; [done|].
      rewrite insert_tile_perm. constructor; [lia | done].
Qed.

Lemma sort_tiles_sorted l :
  StronglySorted (λ a b, udim a ≤ udim b) (sort_tiles l).
Proof.
  induction l as [|x l IH]; simpl; [constructor|]. by apply insert_tile_sorted.
Qed.

Lemma sorted_fmap_udim l :
  StronglySorted (λ a b, udim a ≤ udim b) l → StronglySorted Z.le (udim <$> l).
Proof.
  induction 1 as [|x l Hl IH Hx]; simpl; constructor; [done|].
  rewrite Forall_fmap. done.
Qed.

(** Where an entry of [udim_sequences] comes from. *)
Lemma sequence_entry_origin texture_files base_name info :
  Dict.get (udim_sequences (detect_udim_sequences_with cfg texture_files)) base_name
    = Some info →
  ∃ tiles t0 ts,
    Dict.get (group_files cfg texture_files).1 base_name = Some tiles
    ∧ degraded cfg (base_name, tiles) = false
    ∧ sort_tiles tiles = t0 :: ts
    ∧ info = info_of cfg base_name tiles t0
    ∧ ∀ t, t ∈ sort_tiles tiles →
        file t ∈ texture_files
        ∧ in_range cfg (udim t) = true
        ∧ Re.udim_match (pattern cfg) (PosixPath.basename (file t))
          = Some (base_name, udim t, extension t).
Proof.
  rewrite detect_with_get.
  destruct (Dict.get _ base_name) as [tiles|] eqn:Hget; [|done].
  destruct (degraded cfg (base_name, tiles)) eqn:Hdeg; [done|].
  destruct (sort_tiles tiles) as [|t0 ts] eqn:Hs; [done|].
  intros [= <-]. exists tiles, t0, ts. split_and!; [done..|].
  intros t Ht. rewrite sort_tiles_perm in Ht.
  rewrite group_files_get in Hget.
  destruct (tiles_of cfg base_name texture_files) eqn:E; [done|].
  injection Hget as <-. rewrite <- E in Ht.
  apply list_elem_of_omap in Ht as (f & Hf & Ht).
  apply tile_for_inv in Ht as (n & Hm & <- & <- & Hr). done.
Qed.

(** X1. Every emitted sequence is well formed: the count is the number of
    its tiles and of its files and reaches [min_tiles], the tile numbers
    ascend and lie in the configured range, and the i-th tile number is
    the one in the name of the i-th file, whose base is the key. *)
Theorem sequence_well_formed (texture_files : list string) (base_name : string)
    (info : UdimInfo) :
  Dict.get (udim_sequences (detect_udim_sequences_with cfg texture_files)) base_name
    = Some info →
  tile_count info = Z.of_nat (length (info_tiles info))
  ∧ length (info_tiles info) = length (info_files info)
  ∧ min_tiles cfg ≤ tile_count info
  ∧ StronglySorted Z.le (info_tiles info)
  ∧ Forall (λ n, range_start cfg ≤ n ≤ range_end cfg) (info_tiles info)
  ∧ Forall2 (λ f n, f ∈ texture_files
                    ∧ ∃ ext, Re.udim_match (pattern cfg) (PosixPath.basename f)
                             = Some (base_name, n, ext))
      (info_files info) (info_tiles info).
Proof.
  intros (tiles & t0 & ts & Hget & Hdeg & Hs & -> & Htile)%sequence_entry_origin.
  unfold info_of. cbn [tile_count info_tiles info_files].
  split_and!.
  - by rewrite length_fmap.
  - by rewrite !length_fmap.
  - rewrite sort_tiles_length. unfold degraded in Hdeg. simpl in Hdeg.
    apply negb_false_iff, Z.leb_le in Hdeg. done.
  - apply sorted_fmap_udim, sort_tiles_sorted.
  - rewrite Forall_fmap. apply Forall_forall. intros t Ht. simpl.
    destruct (Htile t Ht) as (_ & Hr & _). unfold in_range in Hr. lia.
  - apply Forall2_fmap, Forall_Forall2_diag, Forall_forall.
    intros t Ht. destruct (Htile t Ht) as (? & _ & ?). eauto.
Qed.

End detector_extras.

Section detector_extras_witnesses.
Import UdimUtils DetectorSpec.

Lemma sequence_well_formed_witness :
  ∃ info,
    Dict.get (udim_sequences (detect_udim_sequences_with UDIM_CONFIG
                ["t/w_1003.jpg"; "t/w.1001.jpg"; "t/x.png"])) "w" = Some info
    ∧ tile_count info = Z.of_nat (length (info_tiles info))
    ∧ StronglySorted Z.le (info_tiles info).
Proof.
  eexists. split; [reflexivity|].
  split; eapply (sequence_well_formed UDIM_CONFIG
                   ["t/w_1003.jpg"; "t/w.1001.jpg"; "t/x.png"] "w"); reflexivity.
Defined.

End detector_extras_witnesses.

(** ** The detector run again on its single textures *)

Section detector_rerun.
Import UdimUtils DetectorSpec.

Variable cfg : UdimConfig.

Local Arguments group_step : simpl never.
Local Arguments promote_step : simpl never.

Lemma group_fold_rejected files g s :
  Forall (λ f, accept cfg f = None) files →
  fold_left (group_step cfg) files (g, s) = (g, s ++ files).
Proof.
  revert s. induction files as [|f files IH]; intros s Hall.
  - by rewrite app_nil_r.
  - apply Forall_cons in Hall as [Hf Hall]. cbn [fold_left].
    rewrite group_step_accept, Hf, IH by done.
    by rewrite <- app_assoc.
Qed.

Lemma accept_None_iff f :
  accept cfg f = None
  ↔ match Re.udim_match (pattern cfg) (PosixPath.basename f) with
    | Some (_, n, _) => ¬ (range_start cfg ≤ n ≤ range_end cfg)
    | None => True
    end.
Proof.
  unfold accept. destruct (Re.udim_match _ _) as [[[b n] e]|]; [|done].
  unfold in_range.
  destruct (Z.leb_spec (range_start cfg) n); destruct (Z.leb_spec n (range_end cfg));
    simpl; split; try done; intros; try lia; exfalso; lia.
Qed.

(** X2. When no file is an accepted tile (its name does not match the
    pattern, or its tile number is out of range), the detector returns
    no sequence and the input list itself as [single_textures]. *)
Theorem no_tile_all_singles (texture_files : list string) :
  Forall (λ f, match Re.udim_match (pattern cfg) (PosixPath.basename f) with
               | Some (_, n, _) => ¬ (range_start cfg ≤ n ≤ range_end cfg)
               | None => True
               end) texture_files →
  detect_udim_sequences_with cfg texture_files
  = {| udim_sequences := []; single_textures := texture_files |}.
Proof.
  intros Hall. unfold detect_udim_sequences_with, group_files.
  rewrite group_fold_rejected; [done|].
  eapply Forall_impl; [exact Hall|]. intros f. apply accept_None_iff.
Qed.

Lemma dict_append_fresh (g : Dict.t (list Tile)) k t :
  k ∉ Dict.keys g → Dict.append g k t = g ++ [(k, [t])].
Proof.
  induction g as [|[k' ts] g IH]; simpl; [done|].
  intros [Hne Hk]%not_elem_of_cons.
  destruct (String.eqb_spec k' k) as [->|]; [done|]. by rewrite IH.
Qed.

Lemma dict_append_last (g : Dict.t (list Tile)) k ts t :
  k ∉ Dict.keys g → Dict.append (g ++ [(k, ts)]) k t = g ++ [(k, ts ++ [t])].
Proof.
  induction g as [|[k' ts'] g IH]; simpl.
  - by rewrite String.eqb_refl.
  - intros [Hne Hk]%not_elem_of_cons.
    destruct (String.eqb_spec k' k) as [->|]; [done|]. by rewrite IH.
Qed.

Lemma group_fold_tiles_more g k acc ts s :
  k ∉ Dict.keys g →
  Forall (λ t, accept cfg (file t) = Some (k, t)) ts →
  fold_left (group_step cfg) (file <$> ts) (g ++ [(k, acc)], s)
  = (g ++ [(k, acc ++ ts)], s).
Proof.
  intros Hk. revert acc. induction ts as [|t ts IH]; intros acc Hall.
  - by rewrite app_nil_r.
  - apply Forall_cons in Hall as [Ht Hall]. rewrite fmap_cons. cbn [fold_left].
    rewrite group_step_accept, Ht, dict_append_last by done.
    rewrite IH by done. by rewrite <- app_assoc.
Qed.

Lemma group_fold_tiles g k ts s :
  k ∉ Dict.keys g → ts ≠ [] →
  Forall (λ t, accept cfg (file t) = Some (k, t)) ts →
  fold_left (group_step cfg) (file <$> ts) (g, s) = (g ++ [(k, ts)], s).
Proof.
  intros Hk Hne Hall. destruct ts as [|t ts]; [done|].
  apply Forall_cons in Hall as [Ht Hall]. rewrite fmap_cons. cbn [fold_left].
  rewrite group_step_accept, Ht, dict_append_fresh by done.
  exact (group_fold_tiles_more g k [t] ts s Hk Hall).
Qed.

Lemma group_fold_groups groups g s :
  NoDup (Dict.keys g ++ Dict.keys groups) →
  Forall (λ group, group.2 ≠ []
                   ∧ Forall (λ t, accept cfg (file t) = Some (group.1, t)) group.2)
    groups →
  fold_left (group_step cfg) (groups ≫= group_paths) (g, s) = (g ++ groups, s).
Proof.
  revert g. induction groups as [|[k ts] groups IH]; intros g Hnd Hall.
  - by rewrite app_nil_r.
  - apply Forall_cons in Hall as [[Hne Hts] Hall]. simpl in Hne, Hts.
    cbn [mbind list_bind]. rewrite fold_left_app.
    change (group_paths (k, ts)) with (file <$> ts).
    rewrite (group_fold_tiles g k ts s); [|
      apply NoDup_app in Hnd as (_ & Hdisj & _); intros Hin;
      apply (Hdisj k Hin); simpl; apply elem_of_cons; by left | done | done].
    rewrite IH; [by rewrite <- app_assoc| |done].
    unfold Dict.keys in *. rewrite fmap_app. simpl.
    rewrite <- app_assoc. exact Hnd.
Qed.

Lemma promote_fold_degraded groups seqs s :
  Forall (λ group, degraded cfg group = true) groups →
  fold_left (promote_step cfg) groups (seqs, s)
  = (seqs, s ++ (groups ≫= group_paths)).
Proof.
  revert s. induction groups as [|[k ts] groups IH]; intros s Hall.
  - simpl. by rewrite app_nil_r.
  - apply Forall_cons in Hall as [Hd Hall]. cbn [fold_left].
    rewrite promote_step_eq, Hd, IH by done. simpl.
    by rewrite <- app_assoc.
Qed.

Lemma tile_for_accept base f t :
  tile_for cfg base f = Some t → accept cfg f = Some (base, t) ∧ file t = f.
Proof.
  unfold tile_for. destruct (accept cfg f) as [[b t']|] eqn:E; [|done].
  destruct (String.eqb_spec b base) as [->|]; [|done]. intros [= ->].
  split; [done|]. unfold accept in E.
  destruct (Re.udim_match _ _) as [[[b n] e]|]; [|done].
  destruct (in_range cfg n); [|done]. by injection E as <- <-.
Qed.

Lemma group_files_tiles texture_files group :
  group ∈ (group_files cfg texture_files).1 →
  group.2 ≠ [] ∧ Forall (λ t, accept cfg (file t) = Some (group.1, t)) group.2.
Proof.
  destruct group as [k ts]. intros Hin. simpl.
  apply dict_elem_of_get in Hin; [|apply group_files_NoDup].
  split; [by eapply group_files_nonempty|].
  rewrite group_files_get in Hin.
  destruct (tiles_of cfg k texture_files) eqn:E; [done|].
  injection Hin as <-. rewrite <- E. apply Forall_forall. intros t' Ht.
  apply list_elem_of_omap in Ht as (f & _ & Hf).
  apply tile_for_accept in Hf as [Ha <-]. done.
Qed.

(** X3. Running the detector again on its own [single_textures] finds
    nothing more: no sequence, and the same list in the same order. *)
Theorem singles_have_no_sequence (texture_files : list string) :
  detect_udim_sequences_with cfg
    (single_textures (detect_udim_sequences_with cfg texture_files))
  = {| udim_sequences := [];
       single_textures :=
         single_textures (detect_udim_sequences_with cfg texture_files) |}.
Proof.
  rewrite detect_with_singles.
  set (R := filter (λ f, rejected cfg f = true) texture_files).
  set (D := filter (λ g, degraded cfg g = true) (group_files cfg texture_files).1).
  unfold detect_udim_sequences_with, group_files.
  rewrite fold_left_app, group_fold_rejected; cycle 1.
  { apply Forall_forall. intros f [Hf _]%list_elem_of_filter.
    unfold rejected in Hf. by destruct (accept cfg f). }
  simpl. rewrite group_fold_groups; cycle 1.
  { simpl. eapply sublist_NoDup; [apply (group_files_NoDup cfg texture_files)|].
    unfold Dict.keys. apply fmap_sublist, sublist_filter. }
  { apply Forall_forall. intros g [_ Hg]%list_elem_of_filter.
    by apply (group_files_tiles texture_files). }
  simpl. rewrite promote_fold_degraded; [done|].
  apply Forall_forall. by intros g [Hg _]%list_elem_of_filter.
Qed.

End detector_rerun.

Section detector_rerun_witnesses.
Import UdimUtils DetectorSpec.

Lemma no_tile_all_singles_witness :
  detect_udim_sequences_with UDIM_CONFIG ["b/x.png"; "a/w.2001.jpg"; "a/w-1001.jpg"]
  = {| udim_sequences := [];
       single_textures := ["b/x.png"; "a/w.2001.jpg"; "a/w-1001.jpg"] |}.
Proof.
  apply (no_tile_all_singles UDIM_CONFIG ["b/x.png"; "a/w.2001.jpg"; "a/w-1001.jpg"]).
  apply Forall_cons. split; [by vm_compute|].
  apply Forall_cons. split.
  { assert (Re.udim_match (pattern UDIM_CONFIG) (PosixPath.basename "a/w.2001.jpg")
            = Some ("w", 2001, "jpg")) as -> by reflexivity.
    simpl. lia. }
  apply Forall_cons. split; [by vm_compute|]. apply Forall_nil_2.
Defined.

End detector_rerun_witnesses.

(** ** The helpers around the detector *)

Section helper_facts.
Import UdimUtils DetectorSpec UdimHelpers.

Variable cfg : UdimConfig.

Local Arguments group_step : simpl never.
Local Arguments promote_step : simpl never.

Lemma length_remove_dups_le (l : list Z) : (length (remove_dups l) ≤ length l)%nat.
Proof.
  induction l as [|x l IH]; simpl; [done|].
  destruct (decide_rel _ x l); simpl; lia.
Qed.

Lemma length_remove_dups_NoDup (l : list Z) :
  length l = length (remove_dups l) ↔ NoDup l.
Proof.
  induction l as [|x l IH]; simpl.
  - split; [constructor | done].
  - pose proof (length_remove_dups_le l).
    destruct (decide_rel _ x l) as [Hin|Hin]; simpl.
    + split; [lia|]. intros [? _]%NoDup_cons. done.
    + rewrite NoDup_cons. split.
      * intros [= H']. split; [done|]. by apply IH.
      * intros [_ H']. f_equal. by apply IH.
Qed.

Lemma udim_numbers_of_mapM files :
  udim_numbers_of cfg files = mapM (HelperSpec.checked_number cfg) files.
Proof.
  induction files as [|f files IH]; [done|].
  cbn [udim_numbers_of mapM]. rewrite <- IH. unfold HelperSpec.checked_number.
  destruct (Re.udim_match _ _) as [[[b n] e]|]; [|done].
  destruct (in_range cfg n); simpl; [|done].
  by destruct (udim_numbers_of cfg files).
Qed.

Lemma udim_numbers_of_Some files numbers :
  udim_numbers_of cfg files = Some numbers
  ↔ Forall2 (λ f n, HelperSpec.checked_number cfg f = Some n) files numbers.
Proof. rewrite udim_numbers_of_mapM. apply mapM_Some. Qed.

Lemma udim_numbers_of_None files :
  udim_numbers_of cfg files = None ↔ 
    Exists (λ f, HelperSpec.checked_number cfg f = None) files.
Proof. rewrite udim_numbers_of_mapM. apply mapM_None. Qed.

Lemma distinct_check (l : list Z) :
  (Z.of_nat (length l) =? Z.of_nat (length (remove_dups l))) = bool_decide (NoDup l).
Proof.
  case_bool_decide as Hnd.
  - apply Z.eqb_eq. f_equal. by apply length_remove_dups_NoDup.
  - apply Z.eqb_neq. intros E. apply Hnd, length_remove_dups_NoDup. lia.
Qed.

(** X4. A sequence built by the detector passes [validate_udim_sequence]
    exactly when its tile numbers are pairwise different. *)
Theorem detected_sequence_validates (texture_files : list string)
    (base_name : string) (info : UdimInfo) :
  Dict.get (udim_sequences (detect_udim_sequences_with cfg texture_files)) base_name
    = Some info →
  validate_udim_sequence_with cfg (info_files info)
  = bool_decide (NoDup (info_tiles info)).
Proof.
  intros (tiles & t0 & ts & Hget & Hdeg & Hs & -> & Htile)%sequence_entry_origin.
  unfold validate_udim_sequence_with, info_of. cbn [info_files info_tiles].
  rewrite length_fmap, sort_tiles_length.
  unfold degraded in Hdeg. simpl in Hdeg.
  apply negb_false_iff, Z.leb_le in Hdeg.
  destruct (Z.ltb_spec (Z.of_nat (length tiles)) (min_tiles cfg)); [lia|].
  assert (udim_numbers_of cfg (file <$> sort_tiles tiles)
          = Some (udim <$> sort_tiles tiles)) as ->.
  { apply udim_numbers_of_Some, Forall2_fmap, Forall_Forall2_diag, Forall_forall.
    intros t Ht. destruct (Htile t Ht) as (_ & Hr & Hm).
    unfold HelperSpec.checked_number. by rewrite Hm, Hr. }
  apply distinct_check.
Qed.

Lemma udim_numbers_of_alt files :
  udim_numbers_of cfg files
  = if decide (Forall (λ f, is_Some (HelperSpec.checked_number cfg f)) files)
    then Some (omap (HelperSpec.checked_number cfg) files) else None.
Proof.
  induction files as [|f files IH].
  - rewrite decide_True by constructor. done.
  - rewrite udim_numbers_of_mapM in *. cbn [mapM]. rewrite IH.
    destruct (HelperSpec.checked_number cfg f) as [n|] eqn:E; simpl.
    + destruct (decide (Forall _ files)) as [H|H]; simpl.
      * rewrite decide_True by (constructor; [by rewrite E|done]).
        by rewrite E.
      * rewrite decide_False; [done|]. by intros [_ ?]%Forall_cons.
    + rewrite decide_False; [done|]. intros [[? Hf] _]%Forall_cons. congruence.
Qed.

(** X5. The order of the files does not matter to [validate_udim_sequence]. *)
Theorem validate_order_independent (files files' : list string) :
  files ≡ₚ files' →
  validate_udim_sequence_with cfg files = validate_udim_sequence_with cfg files'.
Proof.
  intros Hp. unfold validate_udim_sequence_with.
  rewrite !udim_numbers_of_alt, <- Hp.
  destruct (Z.ltb _ _); [done|].
  destruct (decide (Forall _ files)) as [H|H].
  - rewrite decide_True by (by rewrite <- Hp).
    rewrite !distinct_check. apply bool_decide_ext. by rewrite Hp.
  - rewrite decide_False; [done|]. by rewrite <- Hp.
Qed.

(** X6. [create_udim_pattern_path] applied to the first file of a sequence
    built by the detector gives the pattern path of that sequence. *)
Theorem create_pattern_path_agrees (texture_files : list string)
    (base_name : string) (info : UdimInfo) :
  Dict.get (udim_sequences (detect_udim_sequences_with cfg texture_files)) base_name
    = Some info →
  ∃ first_file rest,
    info_files info = first_file :: rest
    ∧ create_udim_pattern_path_with cfg first_file = info_pattern info.
Proof.
  intros (tiles & t0 & ts & Hget & Hdeg & Hs & -> & Htile)%sequence_entry_origin.
  unfold info_of. cbn [info_files info_pattern]. rewrite Hs.
  exists (file t0), (file <$> ts). split; [done|].
  destruct (Htile t0) as (_ & _ & Hm); [rewrite Hs; apply elem_of_cons; by left|].
  unfold create_udim_pattern_path_with. by rewrite Hm.
Qed.

Lemma promote_fold_Forall (P : string * UdimInfo → Prop) groups seqs s :
  Forall P seqs →
  (∀ k tiles t0 ts, (k, tiles) ∈ groups → degraded cfg (k, tiles) = false →
     sort_tiles tiles = t0 :: ts → P (k, info_of cfg k tiles t0)) →
  Forall P (fold_left (promote_step cfg) groups (seqs, s)).1.
Proof.
  revert seqs s. induction groups as [|[k tiles] groups IH]; intros seqs s Hs HP.
  - done.
  - cbn [fold_left]. rewrite promote_step_eq.
    assert (∀ k' tiles' t0 ts, (k', tiles') ∈ groups →
              degraded cfg (k', tiles') = false → sort_tiles tiles' = t0 :: ts →
              P (k', info_of cfg k' tiles' t0)) as HP'.
    { intros ???? Hin. apply HP. apply elem_of_cons. by right. }
    destruct (degraded cfg (k, tiles)) eqn:Hd; [by apply IH|].
    destruct (sort_tiles tiles) as [|t0 ts] eqn:Est; [by apply IH|].
    apply IH; [|done].
    assert (P (k, info_of cfg k tiles t0)) as Hnew.
    { eapply HP; [apply elem_of_cons; by left|done..]. }
    clear -Hs Hnew. induction seqs as [|[k' v'] seqs IHs]; simpl.
    + by constructor.
    + apply Forall_cons in Hs as [H1 H2].
      destruct (String.eqb_spec k' k) as [->|]; constructor; auto.
Qed.

Lemma sequences_sizes texture_files :
  Forall (λ e, length (info_tiles e.2) = length (info_files e.2)
               ∧ min_tiles cfg ≤ Z.of_nat (length (info_tiles e.2)))
    (udim_sequences (detect_udim_sequences_with cfg texture_files)).
Proof.
  rewrite detect_with_eq. cbn [udim_sequences].
  apply promote_fold_Forall; [constructor|].
  intros k tiles t0 ts _ Hd Hs. unfold info_of. simpl.
  rewrite !length_fmap, sort_tiles_length. split; [done|].
  unfold degraded in Hd. simpl in Hd. apply negb_false_iff, Z.leb_le in Hd. done.
Qed.

(** X7. The statistics add up: the tiles of the sequences and the single
    textures together are all the files, and every sequence accounts
    for at least [min_tiles] tiles. *)
Theorem statistics_add_up (texture_files : list string) :
  let stats := get_udim_statistics_with cfg texture_files in
  stat_udim_tiles stats + stat_single_textures stats = stat_total_files stats
  ∧ min_tiles cfg * stat_udim_sequences stats ≤ stat_udim_tiles stats
  ∧ 0 ≤ stat_udim_sequences stats.
Proof.
  unfold get_udim_statistics_with. cbn.
  pose proof (detect_with_partition cfg texture_files) as Hp.
  apply Permutation_length in Hp. rewrite length_app in Hp.
  pose proof (sequences_sizes texture_files) as Hsz.
  revert Hp Hsz.
  generalize (udim_sequences (detect_udim_sequences_with cfg texture_files)).
  generalize (length (single_textures (detect_udim_sequences_with cfg texture_files))).
  generalize (length texture_files). intros total singles seqs.
  revert total. induction seqs as [|[k info] seqs IH]; intros total Hp Hsz.
  - simpl in *. lia.
  - apply Forall_cons in Hsz as [[Hlen Hmin] Hsz]. simpl in Hlen, Hmin.
    cbn [mbind list_bind] in Hp. rewrite length_app in Hp.
    unfold sequence_paths at 1 in Hp. cbn [snd] in Hp.
    specialize (IH (total - length (info_files info))%nat).
    destruct IH as (IH1 & IH2 & IH3); [lia|done|].
    rewrite fmap_cons. cbn [sum_list foldr length snd] in *.
    fold (sum_list ((λ seq : string * UdimInfo, Z.of_nat (length (info_tiles seq.2)))
                      <$> seqs)) in *.
    lia.
Qed.

End helper_facts.


Section helper_witnesses.
Import UdimUtils DetectorSpec UdimHelpers.

Lemma detected_sequence_validates_witness :
  validate_udim_sequence_with UDIM_CONFIG ["b/w.1001.jpg"; "a/w.1001.jpg"] = false.
Proof.
  apply (detected_sequence_validates UDIM_CONFIG
           ["b/w.1001.jpg"; "a/w.1001.jpg"; "x.png"] "w"
           {| info_pattern := "b/w.<UDIM>.jpg"; info_tiles := [1001; 1001];
              info_files := ["b/w.1001.jpg"; "a/w.1001.jpg"]; tile_count := 2 |}).
  reflexivity.
Defined.

Lemma validate_order_independent_witness :
  validate_udim_sequence_with UDIM_CONFIG ["w.1002.jpg"; "w.1001.jpg"]
  = validate_udim_sequence_with UDIM_CONFIG ["w.1001.jpg"; "w.1002.jpg"].
Proof.
  apply (validate_order_independent UDIM_CONFIG).
  apply Permutation_swap.
Defined.

Lemma create_pattern_path_agrees_witness :
  ∃ first_file rest,
    ["t/w.1001.jpg"; "t/w.1002.jpg"] = first_file :: rest
    ∧ create_udim_pattern_path_with UDIM_CONFIG first_file = "t/w.<UDIM>.jpg".
Proof.
  apply (create_pattern_path_agrees UDIM_CONFIG ["t/w.1002.jpg"; "t/w.1001.jpg"] "w"
           {| info_pattern := "t/w.<UDIM>.jpg"; info_tiles := [1001; 1002];
              info_files := ["t/w.1001.jpg"; "t/w.1002.jpg"]; tile_count := 2 |}).
  reflexivity.
Defined.

End helper_witnesses.

(** ** The loop bodies of the classifiers *)

Section assigning_loops.
Import Search SearchSpec.

Context {C : Type}.
Variable types : list string.
Variable path_of : C → string.
Variable step : gmap string string → C → gmap string string.
Hypothesis step_assigns : assigns types path_of step.

Lemma fold_within (candidates : list C) (paths : list string) found :
  (∀ x, x ∈ candidates → path_of x ∈ paths) →
  within types paths found →
  within types paths (fold_left step candidates found).
Proof.
  revert found. induction candidates as [|x l IH]; intros found Hp Hw; [done|].
  cbn [fold_left]. apply IH.
  { intros y Hy. apply Hp. apply elem_of_cons. by right. }
  destruct (step_assigns found x) as [->|(ty & Hty & Hnone & ->)]; [done|].
  intros ty' p. destruct (decide (ty = ty')) as [<-|Hne].
  - rewrite lookup_insert_eq. intros [= <-]. split; [done|].
    apply Hp. apply elem_of_cons. by left.
  - rewrite lookup_insert_ne by done. apply Hw.
Qed.

Lemma fold_one_type_per_path (candidates : list C) found :
  NoDup (path_of <$> candidates) →
  (∀ ty p, found !! ty = Some p → p ∉ path_of <$> candidates) →
  one_type_per_path found →
  one_type_per_path (fold_left step candidates found).
Proof.
  revert found. induction candidates as [|x l IH]; intros found Hnd Hfresh Hinj;
    [done|].
  rewrite fmap_cons in Hnd, Hfresh. apply NoDup_cons in Hnd as [Hx Hnd].
  cbn [fold_left].
  destruct (step_assigns found x) as [->|(ty & Hty & Hnone & ->)].
  - apply IH; [done| |done]. intros ty p Hl Hin.
    apply (Hfresh ty p Hl). apply elem_of_cons. by right.
  - apply IH; [done| |].
    + intros ty' p. destruct (decide (ty = ty')) as [<-|Hne].
      * rewrite lookup_insert_eq. by intros [= <-].
      * rewrite lookup_insert_ne by done. intros Hl Hin.
        apply (Hfresh ty' p Hl). apply elem_of_cons. by right.
    + intros t1 t2 p.
      destruct (decide (ty = t1)) as [<-|H1]; destruct (decide (ty = t2)) as [<-|H2];
        rewrite ?lookup_insert_eq, ?lookup_insert_ne by done; try done.
      * intros [= <-] Hl. exfalso. apply (Hfresh t2 _ Hl). apply elem_of_cons. by left.
      * intros Hl [= <-]. exfalso. apply (Hfresh t1 _ Hl). apply elem_of_cons. by left.
      * apply Hinj.
Qed.

End assigning_loops.

Section classifier_steps.
Import Search SearchSpec MaterialUtils.

Lemma assign_found_assigns (types : list string) bases matches type_found path found :
  (∀ ty, type_found = Some ty → Str.truthy ty = true → ty ∈ types) →
  assign_found bases matches type_found path found = found
  ∨ ∃ texture_type,
      texture_type ∈ types ∧ found !! texture_type = None
      ∧ assign_found bases matches type_found path found
        = <[texture_type := path]> found.
Proof.
  intros Hty. unfold assign_found. destruct type_found as [ty|]; [|by left].
  destruct (Str.truthy ty) eqn:Ht; simpl; [|by left].
  destruct (assigned found ty) eqn:Ha; simpl; [by left|].
  destruct (_ || _); [|by left]. right. exists ty.
  split_and!; [by apply Hty | by apply assigned_false | done].
Qed.

Lemma aggressive_assign_assigns table name path found :
  aggressive_assign table name path found = found
  ∨ ∃ texture_type,
      texture_type ∈ Dict.keys table ∧ found !! texture_type = None
      ∧ aggressive_assign table name path found = <[texture_type := path]> found.
Proof.
  induction table as [|[ty kws] table IH]; simpl; [by left|].
  destruct (assigned found ty) eqn:Ha.
  - destruct IH as [IH|(ty' & ? & ? & ?)]; [by left|]. right. exists ty'.
    split_and!; [apply elem_of_cons; by right|done..].
  - destruct (any_keyword_in kws name).
    + right. exists ty. split_and!; [apply elem_of_cons; by left| |done].
      by apply assigned_false.
    + destruct IH as [IH|(ty' & ? & ? & ?)]; [by left|]. right. exists ty'.
      split_and!; [apply elem_of_cons; by right|done..].
Qed.

Lemma first_keyword_type_key table found name ty :
  UdimSearch.first_keyword_type table found name = Some ty →
  ty ∈ Dict.keys table.
Proof.
  induction table as [|[ty' kws] table IH]; simpl; [done|].
  destruct (assigned found ty').
  { intros H. apply elem_of_cons. right. auto. }
  destruct (any_keyword_in kws name).
  - destruct (Str.truthy ty').
    + intros [= <-]. apply elem_of_cons. by left.
    + destruct (UdimSearch.first_keyword_type table found name) as [t|].
      * intros [= <-]. apply elem_of_cons. right. auto.
      * intros [= <-]. apply elem_of_cons. by left.
  - intros H. apply elem_of_cons. right. auto.
Qed.

Lemma standard_primary_assigns table bases :
  assigns (Dict.keys table) id (primary_step table bases).
Proof.
  intros found f. unfold primary_step.
  destruct (best_keyword _ _ _) as [[o k] prio] eqn:E.
  apply assign_found_assigns. intros ty -> _.
  apply best_keyword_longest in E as (_ & _ & (kws & Hin & _) & _).
  unfold Dict.keys. by apply (list_elem_of_fmap_2 fst) in Hin.
Qed.

Lemma standard_aggressive_assigns table :
  assigns (Dict.keys table) id (aggressive_step table).
Proof. intros found f. apply aggressive_assign_assigns. Qed.

Lemma udim_primary_assigns table bases :
  assigns (Dict.keys table) UdimSearch.path (UdimSearch.primary_step table bases).
Proof.
  intros found c. unfold UdimSearch.primary_step.
  apply assign_found_assigns. intros ty Hty _.
  by eapply first_keyword_type_key.
Qed.

Lemma udim_aggressive_assigns table :
  assigns (Dict.keys table) UdimSearch.path (UdimSearch.aggressive_step table).
Proof. intros found c. apply aggressive_assign_assigns. Qed.

End classifier_steps.

(** ** What the two searches return *)

Section search_results.
Import Search SearchSpec MaterialUtils.

Lemma within_empty types paths : within types paths ∅.
Proof. intros ty p. by rewrite lookup_empty. Qed.

Lemma within_mono (types types' paths paths' : list string) found :
  (∀ x, x ∈ types → x ∈ types') → (∀ x, x ∈ paths → x ∈ paths') →
  within types paths found → within types' paths' found.
Proof. intros Ht Hp Hw ty p Hl. destruct (Hw ty p Hl). split; auto. Qed.

Lemma within_basemap (types paths : list string) found :
  within types paths found → within ("BaseMap" :: types) paths found.
Proof.
  apply within_mono; [|done]. intros x Hx. apply elem_of_cons. by right.
Qed.

Lemma one_type_per_path_empty : one_type_per_path ∅.
Proof. intros t1 t2 p. by rewrite lookup_empty. Qed.

Lemma one_type_per_path_singleton ty p :
  one_type_per_path (<[ty := p]> ∅).
Proof.
  intros t1 t2 q. rewrite !lookup_insert. repeat case_decide; subst;
    rewrite ?lookup_empty; try done.
Qed.

(** The three passes over a list of candidates, for either classifier. *)
Lemma passes_within {C} (types : list string) (path_of : C → string)
    (primary aggressive : gmap string string → C → gmap string string)
    (candidates : list C) :
  assigns types path_of primary → assigns types path_of aggressive →
  let after := fold_left primary candidates ∅ in
  let agg := if bool_decide (after = ∅)
             then fold_left aggressive candidates after else after in
  within types (path_of <$> candidates) agg
  ∧ (NoDup (path_of <$> candidates) → one_type_per_path agg).
Proof.
  intros Hp Ha after agg.
  assert (∀ x, x ∈ candidates → path_of x ∈ path_of <$> candidates) as Hin.
  { intros x. apply list_elem_of_fmap_2. }
  assert (within types (path_of <$> candidates) after) as Hw.
  { apply (fold_within _ _ _ Hp); [done | apply within_empty]. }
  split.
  - unfold agg. case_bool_decide as E; [|done].
    rewrite E. apply (fold_within _ _ _ Ha); [done | apply within_empty].
  - intros Hnd. unfold agg. case_bool_decide as E.
    + rewrite E. apply (fold_one_type_per_path _ _ _ Ha); [done| |].
      * intros ty p. by rewrite lookup_empty.
      * apply one_type_per_path_empty.
    + apply (fold_one_type_per_path _ _ _ Hp); [done| |].
      * intros ty p. by rewrite lookup_empty.
      * apply one_type_per_path_empty.
Qed.

Lemma standard_search_spec table bases texture_files :
  within ("BaseMap" :: Dict.keys table) texture_files
    (search table bases texture_files)
  ∧ (NoDup texture_files → one_type_per_path (search table bases texture_files))
  ∧ (texture_files ≠ [] → search table bases texture_files ≠ ∅).
Proof.
  destruct (passes_within (Dict.keys table) id
              (primary_step table bases) (aggressive_step table) texture_files
              (standard_primary_assigns table bases)
              (standard_aggressive_assigns table)) as [Hw Hinj].
  rewrite list_fmap_id in Hw, Hinj.
  unfold search, aggressive_pass, fallback.
  set (after := fold_left _ texture_files ∅) in *.
  set (agg := if bool_decide (after = ∅) then _ else _) in *.
  destruct texture_files as [|f fs].
  { split_and!; [|done..]. by apply within_basemap. }
  case_bool_decide as E.
  - rewrite E. split_and!.
    + intros ty p. rewrite lookup_insert. case_decide; [|by rewrite lookup_empty].
      intros [= <-]. subst. split; apply elem_of_cons; by left.
    + intros _. apply one_type_per_path_singleton.
    + intros _. apply insert_non_empty.
  - split_and!; [|done..]. by apply within_basemap.
Qed.

Lemma udim_search_spec table bases candidates :
  within ("BaseMap" :: Dict.keys table) (UdimSearch.path <$> candidates)
    (UdimSearch.search table bases candidates)
  ∧ (NoDup (UdimSearch.path <$> candidates) →
       one_type_per_path (UdimSearch.search table bases candidates))
  ∧ (candidates ≠ [] → UdimSearch.search table bases candidates ≠ ∅).
Proof.
  destruct (passes_within (Dict.keys table) UdimSearch.path
              (UdimSearch.primary_step table bases)
              (UdimSearch.aggressive_step table) candidates
              (udim_primary_assigns table bases)
              (udim_aggressive_assigns table)) as [Hw Hinj].
  unfold UdimSearch.search, UdimSearch.aggressive_pass, UdimSearch.fallback.
  set (after := fold_left _ candidates ∅) in *.
  set (agg := if bool_decide (after = ∅) then _ else _) in *.
  destruct candidates as [|c cs].
  { split_and!; [|done..]. by apply within_basemap. }
  case_bool_decide as E.
  - rewrite E. split_and!.
    + intros ty p. rewrite lookup_insert. case_decide; [|by rewrite lookup_empty].
      intros [= <-]. subst. split; apply elem_of_cons; by left.
    + intros _. apply one_type_per_path_singleton.
    + intros _. apply insert_non_empty.
  - split_and!; [|done..]. by apply within_basemap.
Qed.

Lemma candidates_nonempty texture_files :
  texture_files ≠ [] →
  UdimSearch.all_texture_candidates (UdimUtils.detect_udim_sequences texture_files)
  ≠ [].
Proof.
  intros Hne Hc. apply Hne. unfold UdimSearch.all_texture_candidates in Hc.
  apply app_eq_nil in Hc as [H1 H2].
  apply fmap_nil_inv in H1. apply fmap_nil_inv in H2.
  pose proof (detect_with_partition UDIM_CONFIG texture_files) as Hp.
  unfold UdimUtils.detect_udim_sequences in H1, H2.
  rewrite H1, H2 in Hp. simpl in Hp. by apply Permutation_nil in Hp.
Qed.

(** What both classifiers guarantee about the dictionary an entry-point
    call returns. *)
Lemma find_matching_textures_spec material_name texture_files texture_keywords
    model_basename :
  ∃ found,
    find_matching_textures material_name texture_files texture_keywords
      model_basename = Returned found
    ∧ within ("BaseMap" :: Dict.keys (table_of texture_keywords))
        (texture_files ++ candidate_paths texture_files) found
    ∧ (NoDup texture_files → NoDup (candidate_paths texture_files) →
         one_type_per_path found)
    ∧ (material_name ≠ "" → texture_files ≠ [] → found ≠ ∅).
Proof.
  unfold find_matching_textures. fold (table_of texture_keywords).
  destruct material_name as [|c m].
  { exists ∅. split_and!; [done|apply within_empty|
      intros; apply one_type_per_path_empty|done]. }
  cbn [Str.truthy negb orb].
  case_bool_decide as Hfs.
  { exists ∅. split_and!; [done|apply within_empty|
      intros; apply one_type_per_path_empty|done]. }
  destruct (uses_udim_search texture_files).
  - eexists. split; [done|].
    unfold UdimSearch.find_matching_textures_with_udim.
    cbn [Str.truthy negb orb]. rewrite bool_decide_eq_false_2 by done.
    destruct (udim_search_spec (table_of texture_keywords)
                (search_bases_of (String c m) model_basename)
                (UdimSearch.all_texture_candidates
                   (UdimUtils.detect_udim_sequences texture_files)))
      as (Hw & Hinj & Hne).
    split_and!.
    + eapply within_mono; [done| |exact Hw]. intros x Hx. apply elem_of_app. by right.
    + intros _. exact Hinj.
    + intros _ _. apply Hne. by apply candidates_nonempty.
  - eexists. split; [done|].
    unfold _find_matching_textures_standard.
    destruct texture_files as [|f1 [|f2 fs]]; [done| |].
    + split_and!.
      * intros ty p. rewrite lookup_singleton. case_decide; [|done].
        intros [= <-]. subst. split; [apply elem_of_cons; by left|].
        apply elem_of_app. left. apply elem_of_cons. by left.
      * intros _ _. apply one_type_per_path_singleton.
      * intros _ _. apply insert_non_empty.
    + destruct (standard_search_spec (table_of texture_keywords)
                  (standard_search_bases (String c m) model_basename)
                  (f1 :: f2 :: fs)) as (Hw & Hinj & Hne).
      split_and!.
      * eapply within_mono; [done| |exact Hw]. intros x Hx. apply elem_of_app. by left.
      * intros Hnd _. by apply Hinj.
      * intros _ _. by apply Hne.
Qed.

End search_results.

(** ** The entry point: types, paths and sharing *)

Section classifier_extras.
Import Search SearchSpec MaterialUtils.

Lemma candidate_path_origin texture_files p :
  p ∈ candidate_paths texture_files →
  p ∈ texture_files
  ∨ ∃ entry, entry ∈ UdimUtils.udim_sequences
                       (UdimUtils.detect_udim_sequences texture_files)
             ∧ p = UdimUtils.info_pattern entry.2.
Proof.
  unfold candidate_paths, UdimSearch.all_texture_candidates.
  rewrite fmap_app, elem_of_app, <- !list_fmap_compose.
  intros [Hp|Hp]; apply list_elem_of_fmap in Hp as (x & -> & Hx).
  - right. exists x. split; [done|]. by destruct x.
  - left. simpl.
    pose proof (detect_with_partition UDIM_CONFIG texture_files) as Hperm.
    rewrite <- Hperm. apply elem_of_app. by right.
Qed.

(** X8. Every type in the returned dictionary is a type of the keyword
    table in use, or [BaseMap]. *)
Theorem result_types_from_table (material_name : string)
    (texture_files : list string)
    (texture_keywords : option (Dict.t (list string))) (model_basename : string) :
  ∃ found,
    find_matching_textures material_name texture_files texture_keywords
      model_basename = Returned found
    ∧ ∀ texture_type path,
        found !! texture_type = Some path →
        texture_type = "BaseMap"
        ∨ texture_type ∈ Dict.keys (table_of texture_keywords).
Proof.
  destruct (find_matching_textures_spec material_name texture_files
              texture_keywords model_basename) as (found & Hret & Hw & _).
  exists found. split; [done|]. intros ty p Hl.
  destruct (Hw ty p Hl) as [Hty _]. apply elem_of_cons in Hty. tauto.
Qed.

(** X9. Every path in the returned dictionary is one of the input files or
    the pattern path of a sequence the detector finds among them. *)
Theorem result_paths_from_input (material_name : string)
    (texture_files : list string)
    (texture_keywords : option (Dict.t (list string))) (model_basename : string) :
  ∃ found,
    find_matching_textures material_name texture_files texture_keywords
      model_basename = Returned found
    ∧ ∀ texture_type path,
        found !! texture_type = Some path →
        path ∈ texture_files
        ∨ ∃ entry, entry ∈ UdimUtils.udim_sequences
                             (UdimUtils.detect_udim_sequences texture_files)
                   ∧ path = UdimUtils.info_pattern entry.2.
Proof.
  destruct (find_matching_textures_spec material_name texture_files
              texture_keywords model_basename) as (found & Hret & Hw & _).
  exists found. split; [done|]. intros ty p Hl.
  destruct (Hw ty p Hl) as [_ Hp]. apply elem_of_app in Hp as [Hp|Hp]; [by left|].
  by apply candidate_path_origin.
Qed.

(** X10. With a material name and at least one file the result is never
    empty: some type receives a texture. *)
Theorem result_not_empty (material_name : string) (texture_files : list string)
    (texture_keywords : option (Dict.t (list string))) (model_basename : string) :
  material_name ≠ "" → texture_files ≠ [] →
  ∃ found,
    find_matching_textures material_name texture_files texture_keywords
      model_basename = Returned found
    ∧ found ≠ ∅.
Proof.
  intros Hm Hfs.
  destruct (find_matching_textures_spec material_name texture_files
              texture_keywords model_basename) as (found & Hret & _ & _ & Hne).
  exists found. auto.
Qed.

(** X11. When the candidates are pairwise different, no texture is given to
    two types. *)
Theorem no_texture_for_two_types (material_name : string)
    (texture_files : list string)
    (texture_keywords : option (Dict.t (list string))) (model_basename : string) :
  NoDup texture_files → NoDup (candidate_paths texture_files) →
  ∃ found,
    find_matching_textures material_name texture_files texture_keywords
      model_basename = Returned found
    ∧ ∀ type1 type2 path,
        found !! type1 = Some path → found !! type2 = Some path → type1 = type2.
Proof.
  intros H1 H2.
  destruct (find_matching_textures_spec material_name texture_files
              texture_keywords model_basename) as (found & Hret & _ & Hinj & _).
  exists found. split; [done|]. by apply Hinj.
Qed.

Lemma result_not_empty_witness :
  ∃ found,
    find_matching_textures "stone" ["a/photo1.jpg"; "a/photo2.jpg"] None ""
    = Returned found
    ∧ found ≠ ∅.
Proof.
  apply (result_not_empty "stone" ["a/photo1.jpg"; "a/photo2.jpg"] None "");
    discriminate.
Defined.

Lemma no_texture_for_two_types_witness :
  ∃ found,
    find_matching_textures "crate" ["crate_diff_nrm.jpg"; "crate_rough.jpg"] None ""
    = Returned found
    ∧ ∀ type1 type2 path,
        found !! type1 = Some path → found !! type2 = Some path → type1 = type2.
Proof.
  apply (no_texture_for_two_types "crate"
           ["crate_diff_nrm.jpg"; "crate_rough.jpg"] None "").
  - apply (bool_decide_unpack (NoDup ["crate_diff_nrm.jpg"; "crate_rough.jpg"])).
    vm_compute. exact I.
  - apply (bool_decide_unpack
             (NoDup (candidate_paths ["crate_diff_nrm.jpg"; "crate_rough.jpg"]))).
    vm_compute. exact I.
Defined.

End classifier_extras.

(** ** Keywords with capital letters *)

Section capital_keywords.
Import Search SearchSpec MaterialUtils.

Implicit Types (s k name : string).

Lemma lower_char_not_upper c : is_upper (Str.lower_char c) = false.
Proof.
  unfold Str.lower_char, is_upper.
  destruct (Str.between 65 90 c) eqn:E; [|done].
  unfold Str.between, Str.code in *.
  apply andb_true_iff in E as [H1%Nat.leb_le H2%Nat.leb_le].
  rewrite nat_ascii_embedding by lia.
  apply andb_false_iff. right. apply Nat.leb_gt. lia.
Qed.

Lemma lower_lowercase s : lowercase (Str.lower s).
Proof.
  unfold lowercase. induction s as [|c s IH]; simpl; [done|].
  by rewrite lower_char_not_upper, IH.
Qed.

Lemma prefix_all_chars (p : ascii → bool) k s :
  String.prefix k s = true → Str.all_chars p s = true → Str.all_chars p k = true.
Proof.
  revert s. induction k as [|c k IH]; intros s; [done|].
  destruct s as [|d s]; [done|]. cbn [String.prefix Str.all_chars].
  destruct (ascii_dec c d) as [<-|]; [|done].
  intros Hp [Hc Hs]%andb_true_iff. rewrite Hc. simpl. by eapply IH.
Qed.

Lemma contains_all_chars (p : ascii → bool) k s :
  Str.contains k s = true → Str.all_chars p s = true → Str.all_chars p k = true.
Proof.
  induction s as [|d s IH]; cbn [Str.contains].
  - rewrite orb_false_r. apply prefix_all_chars.
  - intros [Hp|Hc]%orb_true_iff Hs.
    + by eapply prefix_all_chars.
    + cbn [Str.all_chars] in Hs. apply andb_true_iff in Hs as [_ Hs]. auto.
Qed.

Lemma capital_keyword_never_found k name :
  has_upper k = true → lowercase name → Str.contains k name = false.
Proof.
  unfold has_upper, lowercase. intros Hk Hn.
  destruct (Str.contains k name) eqn:E; [|done].
  rewrite (contains_all_chars _ _ _ E Hn) in Hk. done.
Qed.

Lemma any_keyword_in_drop kws name :
  lowercase name →
  any_keyword_in (List.filter (λ k, negb (has_upper k)) kws) name
  = any_keyword_in kws name.
Proof.
  intros Hn. unfold any_keyword_in. induction kws as [|k kws IH]; [done|].
  simpl. destruct (has_upper k) eqn:E; simpl.
  - by rewrite capital_keyword_never_found.
  - by rewrite IH.
Qed.

Lemma first_keyword_type_drop table found name :
  lowercase name →
  UdimSearch.first_keyword_type (drop_upper table) found name
  = UdimSearch.first_keyword_type table found name.
Proof.
  intros Hn. induction table as [|[ty kws] table IH]; [done|].
  unfold drop_upper in *. rewrite fmap_cons. simpl.
  rewrite any_keyword_in_drop, IH by done. done.
Qed.

Lemma aggressive_assign_drop table name path found :
  lowercase name →
  aggressive_assign (drop_upper table) name path found
  = aggressive_assign table name path found.
Proof.
  intros Hn. induction table as [|[ty kws] table IH]; [done|].
  unfold drop_upper in *. rewrite fmap_cons. simpl.
  rewrite any_keyword_in_drop, IH by done. done.
Qed.

Lemma keyword_fold_drop ty name kws best :
  lowercase name →
  fold_left (keyword_step ty name) (List.filter (λ k, negb (has_upper k)) kws) best
  = fold_left (keyword_step ty name) kws best.
Proof.
  intros Hn. revert best. induction kws as [|k kws IH]; intros best; [done|].
  simpl. destruct (has_upper k) eqn:E; simpl.
  - rewrite IH. f_equal. unfold keyword_step. destruct best as [[o k'] prio].
    by rewrite capital_keyword_never_found.
  - apply IH.
Qed.

Lemma best_keyword_drop table found name :
  lowercase name →
  best_keyword (drop_upper table) found name = best_keyword table found name.
Proof.
  intros Hn. unfold best_keyword. generalize no_best.
  induction table as [|[ty kws] table IH]; intros best; [done|].
  unfold drop_upper in *. rewrite fmap_cons. cbn [fold_left].
  rewrite IH. f_equal. unfold type_step. simpl.
  destruct (assigned found ty); [done|]. by apply keyword_fold_drop.
Qed.

Lemma fold_left_ext {A B} (f g : A → B → A) l a :
  (∀ a x, f a x = g a x) → fold_left f l a = fold_left g l a.
Proof.
  intros H. revert a. induction l as [|x l IH]; intros a; [done|].
  simpl. by rewrite H, IH.
Qed.

Lemma standard_search_drop table bases texture_files :
  search (drop_upper table) bases texture_files = search table bases texture_files.
Proof.
  unfold search, aggressive_pass.
  rewrite (fold_left_ext (primary_step (drop_upper table) bases)
             (primary_step table bases)); cycle 1.
  { intros a f. unfold primary_step. by rewrite best_keyword_drop by apply lower_lowercase. }
  rewrite (fold_left_ext (aggressive_step (drop_upper table))
             (aggressive_step table)); [done|].
  intros a f. unfold aggressive_step.
  by rewrite aggressive_assign_drop by apply lower_lowercase.
Qed.

Lemma udim_search_drop table bases candidates :
  UdimSearch.search (drop_upper table) bases candidates
  = UdimSearch.search table bases candidates.
Proof.
  unfold UdimSearch.search, UdimSearch.aggressive_pass.
  rewrite (fold_left_ext (UdimSearch.primary_step (drop_upper table) bases)
             (UdimSearch.primary_step table bases)); cycle 1.
  { intros a c. unfold UdimSearch.primary_step.
    by rewrite first_keyword_type_drop by apply lower_lowercase. }
  rewrite (fold_left_ext (UdimSearch.aggressive_step (drop_upper table))
             (UdimSearch.aggressive_step table)); [done|].
  intros a c. unfold UdimSearch.aggressive_step.
  by rewrite aggressive_assign_drop by apply lower_lowercase.
Qed.

(** X12. Keywords with a capital letter are dead: names are compared in lower
    case, so a call returns the same with every such keyword removed
    from its table. *)
Theorem capital_keywords_never_match (material_name : string)
    (texture_files : list string)
    (texture_keywords : option (Dict.t (list string))) (model_basename : string) :
  find_matching_textures material_name texture_files
    (Some (drop_upper (table_of texture_keywords))) model_basename
  = find_matching_textures material_name texture_files texture_keywords
      model_basename.
Proof.
  unfold find_matching_textures. fold (table_of texture_keywords).
  destruct (negb _ || _); [done|].
  destruct (uses_udim_search texture_files).
  - unfold UdimSearch.find_matching_textures_with_udim.
    destruct (negb _ || _); [done|]. by rewrite udim_search_drop.
  - unfold _find_matching_textures_standard.
    destruct texture_files as [|f1 [|f2 fs]]; [done..|].
    by rewrite standard_search_drop.
Qed.

End capital_keywords.

(** ** The wrapper of udim_utils.py *)

Section wrapper.
Import MaterialUtils UdimHelpers.

Lemma potential_udim_count_pos (texture_files : list string) f :
  f ∈ take 50 texture_files →
  is_Some (Re.udim_match quick_pattern (PosixPath.basename f)) →
  1 ≤ potential_udim_count texture_files.
Proof.
  intros Hin Hm. unfold potential_udim_count.
  induction (take 50 texture_files) as [|g l IH]; [by apply elem_of_nil in Hin|].
  simpl. apply elem_of_cons in Hin as [<-|Hin].
  - rewrite bool_decide_eq_true_2 by done. simpl. lia.
  - specialize (IH Hin). destruct (bool_decide _); simpl; lia.
Qed.

Lemma take_take_elem {A} (l : list A) (x : A) (n m : nat) :
  (n ≤ m)%nat → x ∈ take n l → x ∈ take m l.
Proof.
  intros Hnm. rewrite !elem_of_take. intros (i & Hi & Hlt).
  exists i. split; [done|lia].
Qed.

(** X13. The backward-compatible wrapper of udim_utils.py and the entry point
    of material_utils.py choose between the two searches by different
    tests (one tile among the first 10 files; two among the first 50).
    They return the same whenever the number of tile names among the
    first 50 files is not exactly one. *)
Theorem wrapper_agrees_with_entry_point (material_name : string)
    (texture_files : list string) (texture_keywords : Dict.t (list string))
    (model_basename : string) :
  potential_udim_count texture_files ≠ 1 →
  enhanced_find_matching_textures material_name texture_files texture_keywords
    model_basename
  = find_matching_textures material_name texture_files (Some texture_keywords)
      model_basename.
Proof.
  intros Hcount. unfold enhanced_find_matching_textures.
  destruct (existsb _ _) eqn:Hex; [|done].
  apply existsb_exists in Hex as (f & Hf & Hm).
  apply bool_decide_eq_true in Hm. apply list_elem_of_In in Hf.
  assert (1 ≤ potential_udim_count texture_files) as Hpos.
  { apply (potential_udim_count_pos _ f); [|done].
    eapply take_take_elem; [|done]. lia. }
  unfold find_matching_textures, uses_udim_search.
  replace (2 <=? potential_udim_count texture_files) with true
    by (symmetry; apply Z.leb_le; lia).
  change (UDIM_SUPPORT && true) with true. cbv iota.
  unfold UdimSearch.find_matching_textures_with_udim.
  by destruct (negb _ || _).
Qed.

Lemma wrapper_agrees_with_entry_point_witness :
  potential_udim_count ["t/wall_diffuse.1001.jpg"; "t/wall_diffuse.1002.jpg"] ≠ 1
  ∧ enhanced_find_matching_textures "wall"
      ["t/wall_diffuse.1001.jpg"; "t/wall_diffuse.1002.jpg"]
      ENHANCED_TEXTURE_KEYWORDS ""
    = find_matching_textures "wall"
        ["t/wall_diffuse.1001.jpg"; "t/wall_diffuse.1002.jpg"]
        (Some ENHANCED_TEXTURE_KEYWORDS) "".
Proof.
  split; [by vm_compute|].
  apply wrapper_agrees_with_entry_point. by vm_compute.
Defined.

End wrapper.

(** ** Node names *)

Section node_names.
Import StrMore Utils NodeNameSpec.

Implicit Types (s t name : string) (c d : ascii) (p q : ascii → bool).

Lemma string_ind2 (P : string → Prop) :
  P "" → (∀ c, P (String c "")) →
  (∀ c d s, P s → P (String d s) → P (String c (String d s))) →
  ∀ s, P s.
Proof.
  intros H0 H1 H2 s. cut (P s ∧ ∀ c, P (String c s)); [tauto|].
  induction s as [|d s [IH1 IH2]]; [auto|]. split; [apply IH2|].
  intros c. apply H2; auto.
Qed.

(** *** The replacement of doubled underscores *)

Lemma replace_double_underscore_eq c d s :
  replace_double_underscore (String c (String d s))
  = if Ascii.eqb c "_" && Ascii.eqb d "_"
    then String "_" (replace_double_underscore s)
    else String c (replace_double_underscore (String d s)).
Proof.
  destruct (Ascii.eqb_spec c "_") as [->|Hc].
  - destruct (Ascii.eqb_spec d "_") as [->|Hd]; [done|].
    destruct d as [[] [] [] [] [] [] [] []]; try done.
  - destruct c as [[] [] [] [] [] [] [] []]; try done.
Qed.

Lemma replace_double_underscore_one c :
  replace_double_underscore (String c "") = String c "".
Proof. destruct c as [[] [] [] [] [] [] [] []]; done. Qed.

Lemma prefix_double_underscore c d s :
  String.prefix "__" (String c (String d s)) = Ascii.eqb c "_" && Ascii.eqb d "_".
Proof.
  cbn [String.prefix].
  destruct (ascii_dec "_" c) as [<-|Hc].
  - rewrite Ascii.eqb_refl, andb_true_l.
    destruct (ascii_dec "_" d) as [<-|Hd]; [by destruct s|].
    symmetry. apply Ascii.eqb_neq. congruence.
  - symmetry. apply andb_false_iff. left. apply Ascii.eqb_neq. congruence.
Qed.

Lemma contains_double_underscore_one c : Str.contains "__" (String c "") = false.
Proof. cbn [Str.contains String.prefix]. by destruct (ascii_dec "_" c). Qed.

Lemma replace_double_underscore_length s :
  (String.length (replace_double_underscore s) ≤ String.length s)%nat.
Proof.
  induction s as [|c|c d s IH1 IH2] using string_ind2;
    [done|by rewrite replace_double_underscore_one|].
  rewrite replace_double_underscore_eq.
  destruct (_ && _); simpl in *; lia.
Qed.

Lemma replace_double_underscore_shorter s :
  Str.contains "__" s = true →
  (String.length (replace_double_underscore s) < String.length s)%nat.
Proof.
  induction s as [|c|c d s IH1 IH2] using string_ind2;
    [done|by rewrite contains_double_underscore_one|].
  rewrite replace_double_underscore_eq.
  cbn [Str.contains] in *. rewrite prefix_double_underscore.
  destruct (_ && _).
  - intros _. pose proof (replace_double_underscore_length s). simpl. lia.
  - rewrite orb_false_l. intros H%IH2. simpl in *. lia.
Qed.

Lemma replace_double_underscore_chars p s :
  Str.all_chars p s = true → Str.all_chars p (replace_double_underscore s) = true.
Proof.
  induction s as [|c|c d s IH1 IH2] using string_ind2;
    [done|by rewrite replace_double_underscore_one|].
  rewrite replace_double_underscore_eq.
  destruct (Ascii.eqb_spec c "_") as [->|Hc]; simpl.
  - destruct (Ascii.eqb_spec d "_") as [->|Hd]; simpl.
    + intros [-> [_ H]%andb_true_iff]%andb_true_iff. auto.
    + intros [-> H]%andb_true_iff. simpl. apply IH2, H.
  - intros [-> H]%andb_true_iff. simpl. apply IH2, H.
Qed.

Lemma contains_double_underscore_cons c d s :
  Ascii.eqb c "_" = false →
  Str.contains "__" (String c (String d s)) = Str.contains "__" (String d s).
Proof.
  intros Hc. cbn [Str.contains]. rewrite prefix_double_underscore, Hc. done.
Qed.

Lemma all_chars_impl p q s :
  (∀ c, p c = true → q c = true) →
  Str.all_chars p s = true → Str.all_chars q s = true.
Proof.
  intros Hpq. induction s as [|c s IH]; [done|]. cbn [Str.all_chars].
  intros [Hc Hs]%andb_true_iff. by rewrite (Hpq _ Hc), IH.
Qed.

Lemma name_char_not_space c : is_name_char c = true → negb (Str.is_space c) = true.
Proof.
  unfold is_name_char, Str.is_space, Str.is_digit, Str.between.
  destruct (Ascii.eqb_spec c "_") as [->|_]; [done|].
  rewrite orb_false_r. intros H. apply negb_true_iff.
  repeat match goal with
  | H : _ || _ = true |- _ => apply orb_true_iff in H as [H|H]
  | H : _ && _ = true |- _ => apply andb_true_iff in H as [?%Nat.leb_le ?%Nat.leb_le]
  end.
  all: repeat (apply orb_false_iff; split); rewrite ?andb_false_iff, ?Nat.leb_gt;
    try (apply Nat.eqb_neq); lia.
Qed.

Lemma letter_not_digit c : is_letter c = true → Str.is_digit c = false.
Proof.
  unfold is_letter, Str.is_digit, Str.between. intros H.
  repeat match goal with
  | H : _ || _ = true |- _ => apply orb_true_iff in H as [H|H]
  | H : _ && _ = true |- _ => apply andb_true_iff in H as [?%Nat.leb_le ?%Nat.leb_le]
  end.
  all: rewrite andb_false_iff, !Nat.leb_gt; lia.
Qed.

Lemma letter_not_underscore c : is_letter c = true → Ascii.eqb "_" c = false.
Proof.
  intros H. destruct (Ascii.eqb_spec "_" c) as [<-|]; [|done]. done.
Qed.

(** *** The loop *)

Lemma collapse_underscores_length fuel s :
  (String.length (collapse_underscores fuel s) ≤ String.length s)%nat.
Proof.
  revert s. induction fuel as [|fuel IH]; intros s; simpl; [lia|].
  destruct (Str.contains "__" s); [|lia].
  etrans; [apply IH|apply replace_double_underscore_length].
Qed.

Lemma collapse_underscores_chars p fuel s :
  Str.all_chars p s = true → Str.all_chars p (collapse_underscores fuel s) = true.
Proof.
  revert s. induction fuel as [|fuel IH]; intros s Hs; simpl; [done|].
  destruct (Str.contains "__" s); [|done].
  by apply IH, replace_double_underscore_chars.
Qed.

(** The length of the name is enough fuel: the loop has ended. *)
Lemma collapse_underscores_done fuel s :
  (String.length s ≤ fuel)%nat →
  Str.contains "__" (collapse_underscores fuel s) = false.
Proof.
  revert s. induction fuel as [|fuel IH]; intros s Hlen; simpl.
  - destruct s; [done|simpl in Hlen; lia].
  - destruct (Str.contains "__" s) eqn:E; [|done].
    apply IH. apply replace_double_underscore_shorter in E. lia.
Qed.

Lemma collapse_underscores_id fuel s :
  Str.contains "__" s = false → collapse_underscores fuel s = s.
Proof. intros H. destruct fuel; simpl; [done|]. by rewrite H. Qed.

(** *** Stripping *)

Lemma contains_tail sub c s :
  Str.contains sub (String c s) = false → Str.contains sub s = false.
Proof. cbn [Str.contains]. by intros [_ H]%orb_false_iff. Qed.

Lemma lstrip_chars_head p s d r : lstrip_chars p s = String d r → p d = false.
Proof.
  induction s as [|c s IH]; [done|]. simpl.
  destruct (p c) eqn:E; [done|]. by intros [= <- _].
Qed.

Lemma lstrip_chars_chars p q s :
  Str.all_chars q s = true → Str.all_chars q (lstrip_chars p s) = true.
Proof.
  induction s as [|c s IH]; [done|]. simpl.
  intros [Hc Hs]%andb_true_iff. destruct (p c); [auto|].
  simpl. by rewrite Hc.
Qed.

Lemma lstrip_chars_length p s :
  (String.length (lstrip_chars p s) ≤ String.length s)%nat.
Proof. induction s as [|c s IH]; simpl; [lia|]. destruct (p c); simpl; lia. Qed.

Lemma lstrip_chars_contains p sub s :
  Str.contains sub s = false → Str.contains sub (lstrip_chars p s) = false.
Proof.
  induction s as [|c s IH]; [done|]. intros H. simpl.
  destruct (p c); [|done]. by apply IH, (contains_tail _ c).
Qed.

Lemma lstrip_chars_ends sub p s :
  endswith sub s = false → endswith sub (lstrip_chars p s) = false.
Proof.
  induction s as [|c s IH]; [done|]. intros H. simpl.
  destruct (p c); [|done]. apply IH.
  cbn [endswith] in H. by apply orb_false_iff in H as [_ H].
Qed.

Lemma lstrip_chars_id p s :
  match s with String c _ => p c = false | EmptyString => True end →
  lstrip_chars p s = s.
Proof. destruct s as [|c s]; [done|]. simpl. by intros ->. Qed.

Lemma rstrip_chars_cons p c s :
  rstrip_chars p (String c s)
  = match rstrip_chars p s with
    | EmptyString => if p c then EmptyString else String c EmptyString
    | r => String c r
    end.
Proof. done. Qed.

Lemma rstrip_chars_head p s d r :
  rstrip_chars p s = String d r → ∃ s', s = String d s'.
Proof.
  destruct s as [|c s]; [done|]. rewrite rstrip_chars_cons.
  destruct (rstrip_chars p s); [destruct (p c)|]; intros [= <- _]; eauto.
Qed.

Lemma rstrip_chars_chars p q s :
  Str.all_chars q s = true → Str.all_chars q (rstrip_chars p s) = true.
Proof.
  induction s as [|c s IH]; [done|]. rewrite rstrip_chars_cons.
  cbn [Str.all_chars]. intros [Hc Hs]%andb_true_iff. specialize (IH Hs).
  destruct (rstrip_chars p s); [destruct (p c)|]; simpl in *;
    rewrite ?Hc, ?IH; done.
Qed.

Lemma rstrip_chars_length p s :
  (String.length (rstrip_chars p s) ≤ String.length s)%nat.
Proof.
  induction s as [|c s IH]; [done|]. rewrite rstrip_chars_cons.
  destruct (rstrip_chars p s); [destruct (p c)|]; simpl in *; lia.
Qed.

Lemma rstrip_chars_prefix sub p s :
  String.prefix sub s = false → String.prefix sub (rstrip_chars p s) = false.
Proof.
  revert sub. induction s as [|c s IH]; intros sub; [done|].
  rewrite rstrip_chars_cons. destruct sub as [|a sub]; [done|].
  cbn [String.prefix]. destruct (ascii_dec a c) as [->|Hac]; cycle 1.
  { intros _.
    destruct (rstrip_chars p s); [destruct (p c)|]; cbn [String.prefix];
      try done; by destruct (ascii_dec a c). }
  intros H%IH.
  destruct (rstrip_chars p s); [destruct (p c)|]; cbn [String.prefix] in *;
    try done; by destruct (ascii_dec c c).
Qed.

Lemma rstrip_chars_contains p sub s :
  Str.contains sub s = false → Str.contains sub (rstrip_chars p s) = false.
Proof.
  induction s as [|c s IH]; [done|]. intros H.
  pose proof (contains_tail _ _ _ H) as Ht. specialize (IH Ht).
  cbn [Str.contains] in H. apply orb_false_iff in H as [Hp _].
  apply (rstrip_chars_prefix _ p) in Hp.
  destruct (rstrip_chars p (String c s)) as [|d r] eqn:E; [by destruct sub|].
  cbn [Str.contains]. rewrite Hp. simpl.
  rewrite rstrip_chars_cons in E.
  destruct (rstrip_chars p s); [destruct (p c)|]; simplify_eq; [by destruct sub|done].
Qed.

Lemma rstrip_chars_ends p a s :
  p a = true → endswith (String a "") (rstrip_chars p s) = false.
Proof.
  intros Ha. induction s as [|c s IH]; [done|]. rewrite rstrip_chars_cons.
  destruct (rstrip_chars p s) as [|d r]; [destruct (p c) eqn:Hc|]; [done| |].
  - cbn [endswith String.eqb]. destruct (Ascii.eqb_spec a c) as [->|]; [congruence|done].
  - cbn [endswith] in *. rewrite IH, orb_false_r. simpl.
    by destruct (Ascii.eqb a c).
Qed.

Lemma rstrip_chars_id a s :
  endswith (String a "") s = false → rstrip_chars (Ascii.eqb a) s = s.
Proof.
  induction s as [|c s IH]; [done|]. rewrite rstrip_chars_cons.
  cbn [endswith]. intros [Hc Hs]%orb_false_iff. rewrite (IH Hs).
  destruct s; [|done]. simpl in Hc. by destruct (Ascii.eqb a c).
Qed.

Lemma rstrip_chars_none p s :
  Str.all_chars (λ c, negb (p c)) s = true → rstrip_chars p s = s.
Proof.
  induction s as [|c s IH]; [done|]. rewrite rstrip_chars_cons.
  cbn [Str.all_chars]. intros [Hc Hs]%andb_true_iff. rewrite (IH Hs).
  destruct s; [|done]. by destruct (p c).
Qed.

Lemma prefix_char a d r : String.prefix (String a "") (String d r) = Ascii.eqb a d.
Proof.
  cbn [String.prefix]. destruct (ascii_dec a d) as [->|Hne].
  - rewrite Ascii.eqb_refl. by destruct r.
  - symmetry. by apply Ascii.eqb_neq.
Qed.

Lemma strip_chars_tidy s :
  Str.all_chars is_name_char s = true → Str.contains "__" s = false →
  tidy (strip_chars (Ascii.eqb "_") s).
Proof.
  intros Hc Hd. unfold strip_chars. split_and!.
  - by apply rstrip_chars_chars, lstrip_chars_chars.
  - by apply rstrip_chars_contains, lstrip_chars_contains.
  - destruct (rstrip_chars _ _) as [|d r] eqn:E; [done|].
    apply rstrip_chars_head in E as [s' E].
    apply lstrip_chars_head in E. by rewrite prefix_char.
  - by apply rstrip_chars_ends.
Qed.

(** *** The steps of [clean_node_name] *)

Lemma sub_non_name_chars_chars s :
  Str.all_chars is_name_char (sub_non_name_chars s) = true.
Proof.
  induction s as [|c s IH]; [done|]. cbn [sub_non_name_chars Str.all_chars].
  rewrite IH, andb_true_r. by destruct (is_name_char c) eqn:E.
Qed.

Lemma sub_non_name_chars_id s :
  Str.all_chars is_name_char s = true → sub_non_name_chars s = s.
Proof.
  induction s as [|c s IH]; [done|]. cbn [sub_non_name_chars Str.all_chars].
  intros [-> Hs]%andb_true_iff. by rewrite IH.
Qed.

Lemma take_chars p n s :
  Str.all_chars p s = true → Str.all_chars p (StrMore.take n s) = true.
Proof.
  unfold StrMore.take. revert n. induction s as [|c s IH]; intros n.
  - by rewrite substring_nil.
  - cbn [Str.all_chars]. intros [Hc Hs]%andb_true_iff.
    destruct n as [|n]; [done|]. simpl. by rewrite Hc, IH.
Qed.

Lemma take_length n s : (String.length (StrMore.take n s) ≤ n)%nat.
Proof.
  unfold StrMore.take. revert n. induction s as [|c s IH]; intros n.
  - rewrite substring_nil. simpl. lia.
  - destruct n as [|n]; simpl; [lia|]. specialize (IH n). lia.
Qed.

Lemma digit_prefix_chars s :
  Str.all_chars is_name_char s = true →
  Str.all_chars is_name_char
    match s with
    | String c _ => if Str.is_digit c then "n_" +:+ s else s
    | EmptyString => s
    end = true.
Proof.
  intros Hs. destruct s as [|c s]; [done|]. destruct (Str.is_digit c); [|done].
  rewrite !str_app_cons, str_app_nil_l. cbn [Str.all_chars] in Hs |- *.
  by rewrite Hs.
Qed.

Lemma default_node_tidy : tidy "default_node".
Proof. by split_and!. Qed.

Lemma node_prefix_tidy v :
  tidy v → 2 ≤ Str.len v →
  tidy ("node_" +:+ v) ∧ isdigit ("node_" +:+ v) = false.
Proof.
  intros (Hc & Hd & Hp & He) Hlen.
  rewrite !str_app_cons, str_app_nil_l. split; [split_and!|done].
  - cbn [Str.all_chars]. by rewrite Hc.
  - do 4 (rewrite (contains_double_underscore_cons _ _ _); [|done]).
    destruct v as [|d v]; [done|].
    cbn [Str.contains]. rewrite prefix_double_underscore.
    rewrite prefix_char in Hp. rewrite Ascii.eqb_sym in Hp. rewrite Hp.
    rewrite andb_false_r. done.
  - done.
  - destruct v as [|d v]; [done|].
    do 5 (cbn [endswith]; rewrite orb_false_l by done). done.
Qed.

(** X14. Whatever it is given, [clean_node_name] returns a name of letters,
    digits and underscores, 2 to 35 characters long, that does not
    consist of digits only and has no underscore doubled, at its start
    or at its end. *)
Theorem clean_node_name_tidy (name : string) :
  tidy (clean_node_name name)
  ∧ 2 ≤ Str.len (clean_node_name name) ≤ 35
  ∧ isdigit (clean_node_name name) = false.
Proof.
  assert (tidy "default_node" ∧ 2 ≤ Str.len "default_node" ≤ 35
          ∧ isdigit "default_node" = false) as Hdefault.
  { split; [apply default_node_tidy|done]. }
  unfold clean_node_name.
  destruct (negb (Str.truthy name)); [done|].
  destruct (negb (Str.truthy (strip name))); [done|].
  pose proof (digit_prefix_chars _ (sub_non_name_chars_chars (strip name))) as H2.
  set (c2 := match sub_non_name_chars (strip name) with
             | String c _ => _ | EmptyString => _ end) in *.
  set (c3 := if 30 <? Str.len c2 then StrMore.take 30 c2 else c2).
  assert (Str.all_chars is_name_char c3 = true ∧ Str.len c3 ≤ 30) as [H3 L3].
  { unfold c3. destruct (Z.ltb_spec 30 (Str.len c2)); [|done].
    split; [by apply take_chars|]. pose proof (take_length 30 c2).
    unfold Str.len. lia. }
  set (c4 := collapse_underscores (String.length c3) c3).
  assert (Str.all_chars is_name_char c4 = true ∧ Str.len c4 ≤ 30
          ∧ Str.contains "__" c4 = false) as (H4 & L4 & D4).
  { unfold c4. split_and!.
    - by apply collapse_underscores_chars.
    - pose proof (collapse_underscores_length (String.length c3) c3).
      unfold Str.len in *. lia.
    - by apply collapse_underscores_done. }
  pose proof (strip_chars_tidy c4 H4 D4) as H5.
  set (c5 := strip_chars (Ascii.eqb "_") c4) in *.
  assert (Str.len c5 ≤ 30) as L5.
  { unfold c5, strip_chars.
    pose proof (rstrip_chars_length (Ascii.eqb "_") (lstrip_chars (Ascii.eqb "_") c4)).
    pose proof (lstrip_chars_length (Ascii.eqb "_") c4).
    unfold Str.len in *. lia. }
  set (c6 := if negb (Str.truthy c5) || (Str.len c5 <? 2) then _ else c5).
  assert (tidy c6 ∧ 2 ≤ Str.len c6 ≤ 30) as (H6 & L6).
  { unfold c6. destruct (negb (Str.truthy c5)); simpl.
    - split; [apply default_node_tidy|done].
    - destruct (Z.ltb_spec (Str.len c5) 2).
      + split; [apply default_node_tidy|done].
      + split; [done|lia]. }
  destruct (isdigit c6) eqn:Hdigit; [|split_and!; [done|lia|lia|done]].
  destruct (node_prefix_tidy c6 H6) as [Ht Hd]; [lia|].
  split_and!; [done| | |done].
  all: rewrite !str_app_cons, str_app_nil_l; unfold Str.len in *; simpl; lia.
Qed.

(** X15. A name that is already a clean node name is returned as it is: it
    begins with a letter, has 2 to 30 letters, digits and underscores,
    and no underscore doubled or at its end. *)
Theorem clean_node_name_fixed (name : string) :
  Str.all_chars is_name_char name = true →
  starts_with_letter name = true →
  2 ≤ Str.len name ≤ 30 →
  Str.contains "__" name = false →
  endswith "_" name = false →
  clean_node_name name = name.
Proof.
  intros Hc Hl Hlen Hd He. unfold clean_node_name.
  destruct name as [|c name]; [done|]. cbn [Str.truthy negb].
  assert (strip (String c name) = String c name) as ->.
  { unfold strip, strip_chars. rewrite lstrip_chars_id.
    - apply rstrip_chars_none. eapply all_chars_impl; [|exact Hc].
      intros a. apply name_char_not_space.
    - apply negb_true_iff, name_char_not_space. cbn [Str.all_chars] in Hc.
      by apply andb_true_iff in Hc as [-> _]. }
  cbn [Str.truthy negb]. rewrite (sub_non_name_chars_id _ Hc).
  simpl in Hl.
  rewrite (letter_not_digit c Hl).
  destruct (Z.ltb_spec 30 (Str.len (String c name))); [lia|].
  rewrite (collapse_underscores_id _ _ Hd).
  assert (strip_chars (Ascii.eqb "_") (String c name) = String c name) as ->.
  { unfold strip_chars. rewrite lstrip_chars_id; [by apply rstrip_chars_id|].
    by apply letter_not_underscore. }
  cbn [Str.truthy negb orb].
  destruct (Z.ltb_spec (Str.len (String c name)) 2); [lia|].
  unfold isdigit. cbn [Str.truthy Str.all_chars andb].
  by rewrite (letter_not_digit c Hl).
Qed.

Lemma clean_node_name_fixed_witness :
  Str.all_chars is_name_char "geo_Wall_01" = true
  ∧ clean_node_name "geo_Wall_01" = "geo_Wall_01".
Proof.
  split; [done|]. by apply clean_node_name_fixed.
Defined.

End node_names.

(** ** The name patterns of constants.py *)

Section name_patterns.
Import Constants ConstantsMore.

Implicit Types (p : UdimPattern) (cfg : UdimConfig) (filename : string).

Lemma udim_match_ext p filename base n ext :
  Re.udim_match p filename = Some (base, n, ext) →
  Re.ext_matches (extensions p) ext = true.
Proof.
  unfold Re.udim_match. destruct (Str.rsplit_after _ _) as [pre e].
  destruct (Nat.ltb _ _); [done|].
  destruct (_ && _) eqn:Hchk; [|done]. intros [= _ _ <-].
  by apply andb_true_iff in Hchk as [_ ?].
Qed.

(** A pattern with more separators and the same extensions matches
    whatever the pattern matches, with the same groups. *)
Lemma udim_match_weaken p p' filename m :
  extensions p = extensions p' →
  (∀ c, Str.has_char c (separators p) = true → Str.has_char c (separators p') = true) →
  Re.udim_match p filename = Some m → Re.udim_match p' filename = Some m.
Proof.
  intros Hext Hsep. unfold Re.udim_match.
  destruct (Str.rsplit_after _ _) as [pre e].
  destruct (Nat.ltb _ _); [done|]. rewrite <- Hext.
  destruct (_ && _) eqn:Hchk; [|done]. intros <-.
  apply andb_true_iff in Hchk as [Hchk ->].
  apply andb_true_iff in Hchk as [Hchk ->].
  apply andb_true_iff in Hchk as [-> Hs].
  by rewrite (all_chars_impl _ _ _ Hsep Hs).
Qed.

Lemma first_match_index_snd i ps filename :
  first_match ps filename = snd <$> first_match_index i ps filename.
Proof.
  revert i. induction ps as [|p ps IH]; intros i; [done|]. simpl.
  destruct (Re.udim_match p filename); [done|]. apply IH.
Qed.

Lemma first_match_existsb ps filename :
  existsb (λ p, bool_decide (is_Some (Re.udim_match p filename))) ps
  = bool_decide (is_Some (first_match ps filename)).
Proof.
  induction ps as [|p ps IH]; simpl; [done|].
  destruct (Re.udim_match p filename) eqn:E; simpl; [done|by rewrite IH].
Qed.

Lemma extract_udim_info_full_fst cfg filename :
  extract_udim_info cfg filename = fst <$> extract_udim_info_full cfg filename.
Proof.
  unfold extract_udim_info, extract_udim_info_full.
  destruct (negb _); [done|]. simpl.
  destruct (Re.udim_match (pattern cfg) filename); [done|].
  rewrite (first_match_index_snd 0).
  by destruct (first_match_index _ _ _) as [[i m]|].
Qed.

(** X16. [is_udim_filename] says yes exactly on the names for which
    [extract_udim_info] returns a record, in every configuration. *)
Theorem is_udim_filename_iff_record cfg filename :
  is_udim_filename cfg filename
  = bool_decide (is_Some (extract_udim_info cfg filename)).
Proof.
  unfold is_udim_filename, extract_udim_info.
  destruct (negb _); [done|]. apply first_match_existsb.
Qed.

(** X17. In the default configuration the first two alternative patterns are
    shadowed by the main pattern: the [pattern_type] of a record is
    [main] or [alternative_2], the latter on names with a dash before
    the tile number. *)
Theorem only_dash_alternative_fires filename base n ext ty :
  extract_udim_info_full UDIM_CONFIG filename = Some (base, n, ext, ty) →
  ty = main_pattern
  ∨ ty = alternative 2
    ∧ ∃ digits, Re.drop_final_newline filename
                = base +:+ "-" +:+ digits +:+ "." +:+ ext.
Proof.
  unfold extract_udim_info_full. destruct (negb _); [done|].
  destruct (Re.udim_match (pattern UDIM_CONFIG) filename) as [m|] eqn:Hmain.
  { intros [= _ <-]. by left. }
  cbn [alternative_patterns UDIM_CONFIG first_match_index].
  destruct (Re.udim_match {| separators := "." |} filename) as [m|] eqn:Hdot.
  { apply (udim_match_weaken _ (pattern UDIM_CONFIG)) in Hdot; [congruence|done|].
    intros c. cbn [Str.has_char separators pattern UDIM_CONFIG].
    rewrite !orb_false_r. by intros ->. }
  destruct (Re.udim_match {| separators := "_" |} filename) as [m|] eqn:Hus.
  { apply (udim_match_weaken _ (pattern UDIM_CONFIG)) in Hus; [congruence|done|].
    intros c. cbn [Str.has_char separators pattern UDIM_CONFIG].
    rewrite !orb_false_r. intros ->. apply orb_true_r. }
  destruct (Re.udim_match {| separators := "-" |} filename) as [m|] eqn:Hdash; [|done].
  intros [= -> <-]. right. split; [done|].
  apply udim_match_shape in Hdash as (sepc & digits & -> & _ & _ & Hsep & _).
  cbn [Str.has_char separators] in Hsep.
  rewrite orb_false_r in Hsep. apply Ascii.eqb_eq in Hsep as <-.
  exists digits. by rewrite !str_app_cons, !str_app_nil_l.
Qed.

Lemma only_dash_alternative_fires_witness :
  extract_udim_info_full UDIM_CONFIG "wall-1001.jpg"
  = Some ("wall", 1001, "jpg", alternative 2)
  ∧ ∃ digits, Re.drop_final_newline "wall-1001.jpg"
              = "wall" +:+ "-" +:+ digits +:+ "." +:+ "jpg".
Proof.
  assert (extract_udim_info_full UDIM_CONFIG "wall-1001.jpg"
          = Some ("wall", 1001, "jpg", alternative 2)) as H by by vm_compute.
  split; [done|].
  destruct (only_dash_alternative_fires _ _ _ _ _ H) as [|[_ Hd]]; done.
Defined.

End name_patterns.

(** ** Tiles and texture formats *)

Section tile_formats.
Import StrMore ConstantsMore.

Implicit Types (s t : string) (c : ascii).

Lemma lower_app s t : Str.lower (s +:+ t) = Str.lower s +:+ Str.lower t.
Proof.
  induction s as [|c s IH]; rewrite ?str_app_nil_l; [done|].
  rewrite str_app_cons. cbn [Str.lower]. by rewrite str_app_cons, IH.
Qed.

Lemma endswith_app suffix s : endswith suffix (s +:+ suffix) = true.
Proof.
  induction s as [|c s IH].
  - rewrite str_app_nil_l. destruct suffix; cbn [endswith];
      by rewrite String.eqb_refl.
  - rewrite str_app_cons. cbn [endswith]. rewrite IH. apply orb_true_r.
Qed.

Lemma drop_final_newline_id s :
  Str.endswith_char Re.newline s = false → Re.drop_final_newline s = s.
Proof.
  induction s as [|c s IH]; [done|].
  cbn [Str.endswith_char Re.drop_final_newline].
  destruct s as [|d s]; [by intros ->|]. intros H. by rewrite IH.
Qed.

Lemma endswith_char_app c s t :
  t ≠ "" → Str.endswith_char c (s +:+ t) = Str.endswith_char c t.
Proof.
  intros Ht. induction s as [|d s IH]; rewrite ?str_app_nil_l; [done|].
  rewrite str_app_cons. cbn [Str.endswith_char]. rewrite <- IH.
  destruct (s +:+ t) eqn:E; [|done].
  destruct s; [by rewrite str_app_nil_l in E|by rewrite str_app_cons in E].
Qed.

Lemma texture_exts_supported x :
  In x texture_exts → In ("." +:+ Str.lower x) SUPPORTED_TEXTURE_FORMATS.
Proof.
  unfold texture_exts. cbn [In]. intros H.
  repeat (destruct H as [<-|H]; [vm_compute; tauto|]). done.
Qed.

(** X18. A path of ASCII characters whose name the detector reads as a
    tile has a supported texture format, unless the path ends in a
    newline (which the [$] of the pattern lets pass and [endswith] does
    not). Outside ASCII the case-insensitive match of the pattern and
    [str.lower] part ways (the pattern letter [i] also matches the
    dotless and the dotted capital i), so the statement is about ASCII
    paths. *)
Theorem tile_has_texture_format (file_path : string) :
  isascii file_path = true →
  is_Some (Re.udim_match (pattern UDIM_CONFIG) (PosixPath.basename file_path)) →
  Str.endswith_char Re.newline file_path = false →
  is_supported_texture_format file_path = true.
Proof.
  intros _ [[[b n] e] Hm] Hnl.
  pose proof (udim_match_ext _ _ _ _ _ Hm) as Hext.
  apply udim_match_shape in Hm as (sepc & digits & Hshape & _).
  pose proof (rsplit_after_concat PosixPath.sep file_path) as Hcat.
  fold (PosixPath.basename file_path) in Hcat.
  set (dir := (Str.rsplit_after PosixPath.sep file_path).1) in *.
  set (name := PosixPath.basename file_path) in *.
  assert (name ≠ "") as Hname.
  { intros E. rewrite E in Hshape. simpl in Hshape.
    destruct b; [by rewrite str_app_nil_l, str_app_cons in Hshape
                |by rewrite str_app_cons in Hshape]. }
  rewrite <- Hcat, endswith_char_app in Hnl by done.
  rewrite (drop_final_newline_id _ Hnl) in Hshape.
  assert (file_path = (dir +:+ b +:+ String sepc digits) +:+ "." +:+ e) as Hfile.
  { by rewrite <- Hcat, Hshape, !str_app_assoc. }
  unfold Re.ext_matches in Hext.
  apply existsb_exists in Hext as (x & Hx & Heq%String.eqb_eq).
  unfold is_supported_texture_format, has_format.
  assert (Str.truthy file_path = true) as ->.
  { destruct file_path; [|done]. rewrite <- Hcat in Hfile.
    destruct dir; [|done]. by rewrite str_app_nil_l in Hcat. }
  cbn [negb]. apply existsb_exists. exists ("." +:+ Str.lower x).
  split; [by apply texture_exts_supported|].
  rewrite Hfile, (lower_app _ ("." +:+ e)), (lower_app "." e), <- Heq.
  apply endswith_app.
Qed.

Lemma tile_has_texture_format_witness :
  isascii "tex/Wall_Diffuse.1001.JPG" = true
  ∧ Str.endswith_char Re.newline "tex/Wall_Diffuse.1001.JPG" = false
  ∧ is_supported_texture_format "tex/Wall_Diffuse.1001.JPG" = true.
Proof.
  split_and!; [done..|]. apply tile_has_texture_format; [done| |done].
  vm_compute. by eexists.
Defined.

End tile_formats.

(** ** Pattern paths *)

Section pattern_paths.
Import UdimUtils UdimHelpers PathSpec.

Implicit Types (s t : string) (c : ascii).

Lemma substring_app_skip s t k m :
  String.substring (String.length s + k) m (s +:+ t) = String.substring k m t.
Proof. induction s as [|c s IH]; [done|]. rewrite str_app_cons. simpl. apply IH. Qed.

Lemma drop_final_newline_app s t :
  Str.endswith_char Re.newline s = false →
  Re.drop_final_newline (s +:+ t) = s +:+ Re.drop_final_newline t.
Proof.
  intros Hs. induction s as [|c s IH]; [by rewrite !str_app_nil_l|].
  rewrite !str_app_cons. cbn [Re.drop_final_newline].
  cbn [Str.endswith_char] in Hs.
  destruct s as [|d s].
  - rewrite !str_app_nil_l. destruct t as [|e t]; [by rewrite Hs|done].
  - rewrite <- IH by done. by rewrite str_app_cons.
Qed.

Lemma udim_match_ext_no_dot p filename base n ext :
  Re.udim_match p filename = Some (base, n, ext) → Str.has_char "." ext = false.
Proof.
  unfold Re.udim_match.
  pose proof (rsplit_after_snd "." (Re.drop_final_newline filename)) as H.
  destruct (Str.rsplit_after _ _) as [pre e].
  destruct (Nat.ltb _ _); [done|].
  destruct (_ && _); [|done]. by intros [= _ _ <-].
Qed.

(** A name with the default placeholder in the place of the tile number
    does not match a UDIM pattern. *)
Lemma placeholder_name_no_match p base ext :
  Str.has_char "." ext = false →
  Re.udim_match p (base +:+ "." +:+ "<UDIM>" +:+ "." +:+ ext) = None.
Proof.
  intros Hext. unfold Re.udim_match.
  replace (base +:+ "." +:+ "<UDIM>" +:+ "." +:+ ext)
    with ((base +:+ ".<UDIM>.") +:+ ext)
    by (by rewrite !str_app_assoc, !str_app_cons, !str_app_nil_l).
  rewrite drop_final_newline_app by (by rewrite endswith_char_app).
  replace (base +:+ ".<UDIM>.") with ((base +:+ ".<UDIM>") +:+ ".")
    by (by rewrite !str_app_assoc, !str_app_cons, !str_app_nil_l).
  rewrite str_app_assoc, str_app_cons, str_app_nil_l.
  rewrite rsplit_after_app by (by apply has_char_drop_final_newline).
  rewrite !str_length_app. cbn [String.length].
  destruct (Nat.ltb _ _); [done|].
  replace (String.length base + 7 + 1 - 5)%nat with (String.length base + 3)%nat by lia.
  rewrite !str_app_assoc, substring_app_skip.
  by rewrite andb_false_r.
Qed.

Lemma create_udim_pattern_path_shape first_file base n ext :
  Re.udim_match (pattern UDIM_CONFIG) (PosixPath.basename first_file)
    = Some (base, n, ext) →
  ∃ p, create_udim_pattern_path first_file
       = p +:+ (base +:+ "." +:+ "<UDIM>" +:+ "." +:+ ext)
       ∧ dir_prefix p
       ∧ Str.has_char "/" (base +:+ "." +:+ "<UDIM>" +:+ "." +:+ ext) = false
       ∧ Str.has_char "." ext = false.
Proof.
  intros Hm. unfold create_udim_pattern_path, create_udim_pattern_path_with.
  rewrite Hm.
  destruct (udim_match_no_char "/" _ _ _ _ _ (basename_no_sep first_file) Hm)
    as [Hb He].
  destruct (udim_pattern_path_shape UDIM_CONFIG base
              {| file := first_file; udim := n; extension := ext |})
    as (p & Hp & Hdir); [done..|].
  exists p. split_and!; [exact Hp|done| |by eapply udim_match_ext_no_dot].
  by rewrite !has_char_app, Hb, He.
Qed.

Lemma create_udim_pattern_path_no_match first_file :
  is_Some (Re.udim_match (pattern UDIM_CONFIG) (PosixPath.basename first_file)) →
  Re.udim_match (pattern UDIM_CONFIG)
    (PosixPath.basename (create_udim_pattern_path first_file)) = None.
Proof.
  intros [[[b n] e] Hm].
  destruct (create_udim_pattern_path_shape _ _ _ _ Hm) as (p & -> & Hdir & Hsep & Hdot).
  rewrite basename_shape by done. by apply placeholder_name_no_match.
Qed.

(** X19. The pattern path made from a tile is marked as a UDIM texture and is
    not itself read as a tile: its name does not match the pattern. *)
Theorem pattern_path_is_not_a_tile (first_file : string) :
  is_Some (Re.udim_match (pattern UDIM_CONFIG) (PosixPath.basename first_file)) →
  is_udim_texture (create_udim_pattern_path first_file) = true
  ∧ Re.udim_match (pattern UDIM_CONFIG)
      (PosixPath.basename (create_udim_pattern_path first_file)) = None.
Proof.
  intros Hm. split; [|by apply create_udim_pattern_path_no_match].
  destruct Hm as [[[b n] e] Hm].
  destruct (create_udim_pattern_path_shape _ _ _ _ Hm) as (p & -> & _).
  unfold is_udim_texture, is_udim_texture_with.
  apply contains_app_r. rewrite <- str_app_assoc. apply contains_middle.
Qed.

(** X20. [create_udim_pattern_path] applied twice gives what it gives applied
    once. *)
Theorem create_udim_pattern_path_idempotent (first_file : string) :
  create_udim_pattern_path (create_udim_pattern_path first_file)
  = create_udim_pattern_path first_file.
Proof.
  destruct (Re.udim_match (pattern UDIM_CONFIG) (PosixPath.basename first_file))
    as [m|] eqn:Hm.
  - pose proof (create_udim_pattern_path_no_match first_file (mk_is_Some _ _ Hm)) as H.
    unfold create_udim_pattern_path at 1, create_udim_pattern_path_with.
    by rewrite H.
  - assert (create_udim_pattern_path first_file = first_file) as Hid.
    { unfold create_udim_pattern_path, create_udim_pattern_path_with. by rewrite Hm. }
    by rewrite !Hid.
Qed.

Lemma pattern_path_is_not_a_tile_witness :
  is_udim_texture (create_udim_pattern_path "tex/wall_1001.png") = true
  ∧ Re.udim_match (pattern UDIM_CONFIG)
      (PosixPath.basename (create_udim_pattern_path "tex/wall_1001.png")) = None.
Proof.
  apply pattern_path_is_not_a_tile. vm_compute. by eexists.
Defined.

End pattern_paths.

(** ** Material statistics *)

Section material_counts.
Import MaterialStats MaterialBuilders.

Lemma filter_count_le {A} (f : A → bool) (l : list A) :
  (length (List.filter f l) ≤ length l)%nat.
Proof. induction l as [|x l IH]; simpl; [lia|]. destruct (f x); simpl; lia. Qed.

Lemma existsb_filter_count {A} (f : A → bool) (l : list A) :
  existsb f l = true ↔ (0 < length (List.filter f l))%nat.
Proof.
  induction l as [|x l IH]; simpl; [split; [done|lia]|].
  destruct (f x); simpl; [split; [lia|done]|done].
Qed.

(** X21. The counts of [get_material_stats]: [total] is the number of entries,
    [udim] and [regular] are not negative and add up to [total], and the
    builders ask for texture nodes exactly when [udim] is positive. *)
Theorem material_stats_counts (texture_maps : gmap string string) :
  total (get_material_stats texture_maps) = Z.of_nat (size texture_maps)
  ∧ 0 ≤ udim (get_material_stats texture_maps)
  ∧ 0 ≤ regular (get_material_stats texture_maps)
  ∧ udim (get_material_stats texture_maps)
    + regular (get_material_stats texture_maps)
    = total (get_material_stats texture_maps)
  ∧ (_needs_texture_nodes texture_maps = true
     ↔ 0 < udim (get_material_stats texture_maps)).
Proof.
  unfold get_material_stats, _needs_texture_nodes.
  change MaterialUtils.UDIM_SUPPORT with true. cbn [negb].
  case_bool_decide as Hempty.
  - subst. rewrite map_to_list_empty, map_size_empty. by cbn.
  - cbn [total udim regular].
    pose proof (filter_count_le (λ entry : string * string,
                  UdimHelpers.is_udim_texture entry.2) (map_to_list texture_maps)) as Hle.
    rewrite length_map_to_list in Hle.
    rewrite existsb_filter_count. split_and!; lia.
Qed.

End material_counts.

